(** * TicTacToe: rules engine, move policy, calibrator, turn controller
      and session synchronizer

    A shallow embedding of the game logic of the TicTacToe application
    (TypeScript, React) and the properties of its specification.

    Embedded sources:
    - the class [AIService] (imported by the components as
      [./AIService]): [checkWinner], [getEmptyCells], [findWinningMove],
      [findForkMove], [getStrategicMove], [minimaxWithPruning],
      [getEasyMove], [getMediumMove], [getHardMove], [getMove];
    - [Components/EnhancedGameBoard.tsx], component [EnhancedGameBoard]:
      [checkWinner];
    - [Components/EnhancedGameBoard.tsx], component [GameBoard]:
      [checkWinner], the move policy ([getAiMove], [getBestMove],
      [minimax], ...) and the turn controller ([startTimer],
      [handleTimeUp], [handleCellClick], [triggerAiMove], [undoMove],
      [resetGame]);
    - [Components/AIPersonalityService.tsx]: [shouldAITryToWin],
      [recordGameResult], [getStats], [resetStats], [getDifficultyInfo];
    - [Components/OnlineGameService.tsx]: [makeMove],
      [executeOpponentMove], matchmaking and its timers;
    - [Components/CoinService.tsx]: [recordGame], [awardCoins],
      [addCoins], [spendCoins], [resetStats];
    - [Components/AchievementService.tsx]: [updateAchievement],
      [updateAchievementProgress], the calls that record what the player
      did, [getAllAchievements], [getProgress].

    Conventions.  A JavaScript array is a [list]; reading [arr[i]] is
    stdpp's lookup [arr !! i], whose [None] is JavaScript's [undefined];
    a write [arr[i] = v] is [<[i:=v]> arr]: every write of the embedded
    code is at an index that was read as [null] just before, or at the
    index of a rendered cell, hence in range.  The value [null] of the
    type ['X' | 'O' | null] is the [None] of [option Mark].
    [Math.random()] is a stream of draws read in order; draws,
    probabilities and rates are exact rationals, and where the
    calibrator computes with a rate and compares it, it does so on the
    binary64 values of the numbers ([Binary64]).  A recursion that the
    source leaves to the call stack takes a [fuel] argument and returns
    [None] when it runs out; section "The deep searches return" shows
    that the fuel given is always enough.  Timers are events: a state
    records which callbacks are pending, and a callback is a function
    of the state; the callbacks of the game screen, which are never
    cancelled, are kept with the values of the render that created them
    ([GameScreen]). *)

From Stdlib Require Import ZArith QArith Qround Lia Bool SpecFloat.
From stdpp Require Import base option list gmap strings.

Set Default Proof Using "Type".

(** ** Data model *)

(** [type Player = 'X' | 'O' | null] *)
Inductive Mark : Set := X | O.

Abbreviation Player := (option Mark).

(** [type Board = Player[]] *)
Abbreviation Board := (list Player).

(** [type GameResult = 'X' | 'O' | 'draw' | null]: the non-null values. *)
Inductive Winner : Set :=
  | WMark (m : Mark)
  | WDraw.

Abbreviation GameResult := (option Winner).

(** The object [{ winner, line }] returned by every [checkWinner]. *)
Record WinnerInfo : Set := mkWinnerInfo {
  winner : GameResult;
  line : option (list nat)
}.

#[global] Instance Mark_eq_dec : EqDecision Mark.
Proof. solve_decision. Defined.

#[global] Instance Winner_eq_dec : EqDecision Winner.
Proof. solve_decision. Defined.

#[global] Instance WinnerInfo_eq_dec : EqDecision WinnerInfo.
Proof. solve_decision. Defined.

Definition Mark_eqb (a b : Mark) : bool :=
  match a, b with
  | X, X | O, O => true
  | _, _ => false
  end.

(** [m === 'X' ? 'O' : 'X'] *)
Definition otherMark (m : Mark) : Mark :=
  match m with X => O | O => X end.

(** ** JavaScript values read from a board

    [board[i]] is [undefined] (outer [None]), [null] (inner [None]) or
    a mark. *)

Abbreviation JsCell := (option Player).

(** Truthiness: [undefined] and [null] are falsy, a mark is truthy. *)
Definition truthy (v : JsCell) : bool :=
  match v with
  | Some (Some _) => true
  | _ => false
  end.

(** Strict equality [===] on cell values. *)
Definition strict_eq (v w : JsCell) : bool :=
  match v, w with
  | None, None => true
  | Some None, Some None => true
  | Some (Some a), Some (Some b) => Mark_eqb a b
  | _, _ => false
  end.

(** [cell !== null] and [cell === null] on a cell value. *)
Definition not_null (v : JsCell) : bool :=
  match v with
  | Some None => false
  | _ => true
  end.

Definition is_null (v : JsCell) : bool := negb (not_null v).

(** The cast [board[a] as GameResult] of a truthy cell. *)
Definition asGameResult (v : JsCell) : GameResult :=
  match v with
  | Some (Some m) => Some (WMark m)
  | _ => None
  end.

(** The array literal [lines] that each [checkWinner] declares. *)
Definition lines : list (list nat) :=
  [ [0; 1; 2]; [3; 4; 5]; [6; 7; 8];   (* rows *)
    [0; 3; 6]; [1; 4; 7]; [2; 5; 8];   (* columns *)
    [0; 4; 8]; [2; 4; 6] ].            (* diagonals *)

(** The test of one line:
    [const [a, b, c] = line;
     board[a] && board[a] === board[b] && board[a] === board[c]]. *)
Definition lineWins (board : Board) (l : list nat) : bool :=
  match l with
  | a :: b :: c :: _ =>
      truthy (board !! a)
      && strict_eq (board !! a) (board !! b)
      && strict_eq (board !! a) (board !! c)
  | _ => false
  end.

(** The mark returned with a winning line: [board[a]]. *)
Definition lineMark (board : Board) (l : list nat) : GameResult :=
  match l with
  | a :: _ => asGameResult (board !! a)
  | [] => None
  end.

(** [board.every(cell => cell !== null)] *)
Definition everyNotNull (board : Board) : bool :=
  forallb (fun cell => not_null (Some cell)) board.

Definition emptyBoard : Board := replicate 9 None.

(** A game result used as a condition: [null] is falsy. *)
Definition isOverResult (r : GameResult) : bool :=
  match r with
  | Some _ => true
  | None => false
  end.

(** ** Numbers

    Scores are JavaScript numbers that are integers or [±Infinity]. *)
Inductive Num : Set :=
  | NegInf
  | Fin (z : Z)
  | PosInf.

Definition Num_ltb (a b : Num) : bool :=
  match a, b with
  | NegInf, NegInf => false
  | NegInf, _ => true
  | Fin _, NegInf => false
  | Fin x, Fin y => (x <? y)%Z
  | Fin _, PosInf => true
  | PosInf, _ => false
  end.

Definition Num_leb (a b : Num) : bool := negb (Num_ltb b a).

(** [Math.max] and [Math.min] *)
Definition Num_max (a b : Num) : Num := if Num_ltb a b then b else a.
Definition Num_min (a b : Num) : Num := if Num_ltb b a then b else a.

(** Probabilities, rates and random draws are exact rationals. *)
Definition Qltb (x y : Q) : bool := negb (Qle_bool y x).

(** ** Binary64

    A JavaScript number is an IEEE 754 binary64 value: here a
    [spec_float] of the Standard Library's specification of
    floating-point arithmetic, at precision 53 with round to nearest,
    ties to even. *)
Module Binary64.

Definition prec : Z := 53.
Definition emax : Z := 1024.

(** The number of an integer; exact below [2^53]. *)
Definition ofZ (z : Z) : spec_float := binary_normalize prec emax z 0 false.

(** [x + y], [x - y], [x / y], [-x] and [x < y] *)
Definition add : spec_float -> spec_float -> spec_float := SFadd prec emax.
Definition sub : spec_float -> spec_float -> spec_float := SFsub prec emax.
Definition div : spec_float -> spec_float -> spec_float := SFdiv prec emax.
Definition opp : spec_float -> spec_float := SFopp.
Definition ltb : spec_float -> spec_float -> bool := SFltb.

(** The number nearest to a fraction of two integers below [2^53]: the
    value of a decimal literal such as [0.1] (the fraction [1 / 10]),
    and of the quotient [aiWins / totalGames] of two counters. *)
Definition ofQ (q : Q) : spec_float :=
  div (ofZ (Qnum q)) (ofZ (Zpos (Qden q))).

End Binary64.

(** ** [Math.random()]

    The successive results of [Math.random()] are a stream [g]; a
    computation reads the draw at the current position and advances. *)
Definition Rng : Type := nat -> Q.

Definition Rand (A : Type) : Type := Rng -> nat -> A * nat.

#[global] Instance Rand_ret : MRet Rand := fun A a _ i => (a, i).

#[global] Instance Rand_bind : MBind Rand :=
  fun A B k m g i => let '(a, j) := m g i in k a g j.

Definition random : Rand Q := fun g i => (g i, S i).

(** A stream of draws as [Math.random()] produces them: in [[0, 1)]. *)
Definition validRng (g : Rng) : Prop := forall i, (0 <= g i)%Q /\ (g i < 1)%Q.

(** [Math.floor(Math.random() * n)] *)
Definition randomIndex (n : nat) : Rand Z :=
  r ← random; mret (Qfloor (r * inject_Z (Z.of_nat n))).

(** A cell index as the move functions return it: a cell, the sentinel
    [-1], or [undefined] (an array read out of range). *)
Inductive Pick : Set :=
  | Cell (c : nat)
  | MinusOne
  | Undefined.

#[global] Instance Pick_eq_dec : EqDecision Pick.
Proof. solve_decision. Defined.

(** [arr[k]] for a number [k] *)
Definition pickAt (arr : list nat) (k : Z) : Pick :=
  if (k <? 0)%Z then Undefined
  else match arr !! Z.to_nat k with
       | Some c => Cell c
       | None => Undefined
       end.

(** [arr[Math.floor(Math.random() * arr.length)]] *)
Definition randomElement (arr : list nat) : Rand Pick :=
  k ← randomIndex (length arr); mret (pickAt arr k).

(** [winner === symbol] for a mark [symbol] *)
Definition winner_is (w : GameResult) (symbol : Mark) : bool :=
  match w with
  | Some (WMark m) => Mark_eqb m symbol
  | _ => false
  end.

(** [winner === 'draw'] *)
Definition winner_is_draw (w : GameResult) : bool :=
  match w with
  | Some WDraw => true
  | _ => false
  end.

(** ** Application types ([App.tsx]) *)
Inductive GameMode : Set := single | two_player | online.
Inductive Difficulty : Set := easy | medium | hard.

#[global] Instance GameMode_eq_dec : EqDecision GameMode.
Proof. solve_decision. Defined.

#[global] Instance Difficulty_eq_dec : EqDecision Difficulty.
Proof. solve_decision. Defined.

(** ** The difficulty calibrator ([AIPersonalityService.tsx]) *)
Module AIPersonalityService.

Record AIPersonality : Type := mkAIPersonality {
  name : string;
  avatar : string;
  thinkingTime : Z;        (* milliseconds *)
  blunderChance : Q;       (* probability of a random move *)
  targetWinRate : Q        (* expected AI win rate *)
}.

Record AIStats : Type := mkAIStats {
  totalGames : Z;
  aiWins : Z;
  playerWins : Z;
  draws : Z;
  winRate : Q
}.

(** The table built by the constructor (the [description] texts are
    left out). *)
Definition personalities (d : Difficulty) : AIPersonality :=
  match d with
  | easy => mkAIPersonality "Friendly Bear" "bear" 800 0.15 0.40
  | medium => mkAIPersonality "Smart Fox" "fox" 1000 0.08 0.60
  | hard => mkAIPersonality "Master Owl" "owl" 1200 0.03 0.80
  end.

Definition getAIPersonality (d : Difficulty) : AIPersonality :=
  personalities d.

(** [localStorage]: a string-keyed store.  An item is the JSON text of
    a stats object, or a text that [JSON.parse] rejects. *)
Inductive Item : Type :=
  | Json (s : AIStats)
  | Unparsable.

Abbreviation LocalStorage := (gmap string Item).

Definition difficultyName (d : Difficulty) : string :=
  match d with
  | easy => "easy"
  | medium => "medium"
  | hard => "hard"
  end.

(** [`ai-stats-${difficulty}`] *)
Definition key (d : Difficulty) : string := "ai-stats-" +:+ difficultyName d.

Definition defaultStats : AIStats := mkAIStats 0 0 0 0 0.

Definition getStats (d : Difficulty) (ls : LocalStorage) : AIStats :=
  match ls !! key d with
  | Some (Json s) => s
  | Some Unparsable => defaultStats
  | None => defaultStats
  end.

(** [shouldAITryToWin].  The stored rate is the quotient of the two
    counters; it is compared, as a binary64 number, with the binary64
    sum and difference of the target and [0.1]. *)
Definition shouldAITryToWin (d : Difficulty) (ls : LocalStorage) : Rand bool :=
  let stats := getStats d ls in
  let personality := personalities d in
  if (totalGames stats <? 5)%Z then
    r ← random; mret (Qltb r (targetWinRate personality))
  else
    let currentWinRate := Binary64.ofQ (winRate stats) in
    let target := Binary64.ofQ (targetWinRate personality) in
    if Binary64.ltb (Binary64.add target (Binary64.ofQ 0.1)) currentWinRate
    then
      r ← random; mret (Qltb r 0.3)
    else if Binary64.ltb currentWinRate
              (Binary64.sub target (Binary64.ofQ 0.1))
    then
      r ← random; mret (Qltb r 0.9)
    else
      r ← random; mret (Qltb r (targetWinRate personality)).

Definition recordGameResult (d : Difficulty) (w : Winner) (ls : LocalStorage)
  : LocalStorage :=
  let stats := getStats d ls in
  let total := (totalGames stats + 1)%Z in
  let '(wins, losses, ties) :=
    match w with
    | WDraw => (aiWins stats, playerWins stats, (draws stats + 1)%Z)
    | WMark m =>
        let aiWon := Mark_eqb m O in
        if aiWon
        then ((aiWins stats + 1)%Z, playerWins stats, draws stats)
        else (aiWins stats, (playerWins stats + 1)%Z, draws stats)
    end in
  let rate :=
    if (0 <? total)%Z then (inject_Z wins / inject_Z total)%Q else 0%Q in
  <[key d := Json (mkAIStats total wins losses ties rate)]> ls.

Definition resetStats (d : option Difficulty) (ls : LocalStorage)
  : LocalStorage :=
  match d with
  | Some d => delete (key d) ls
  | None => delete (key hard) (delete (key medium) (delete (key easy) ls))
  end.

(** The stores that the service itself produces. *)
Inductive recorded : LocalStorage -> Prop :=
  | recorded_empty : recorded ∅
  | recorded_result d w ls :
      recorded ls -> recorded (recordGameResult d w ls)
  | recorded_reset d ls :
      recorded ls -> recorded (resetStats d ls).

(** [getDifficultyInfo]: the personality, the stats and how the AI's
    win rate stands against its target. *)
Inductive Performance : Set := below | on_target | above.

Record DifficultyInfo : Type := mkDifficultyInfo {
  personality : AIPersonality;
  stats : AIStats;
  performance : Performance
}.

Definition getDifficultyInfo (d : Difficulty) (ls : LocalStorage)
  : DifficultyInfo :=
  let personality := personalities d in
  let stats := getStats d ls in
  let performance :=
    if (5 <=? totalGames stats)%Z then
      let diff :=
        Binary64.sub (Binary64.ofQ (winRate stats))
          (Binary64.ofQ (targetWinRate personality)) in
      if Binary64.ltb diff (Binary64.opp (Binary64.ofQ 0.1)) then below
      else if Binary64.ltb (Binary64.ofQ 0.1) diff then above
      else on_target
    else on_target in
  mkDifficultyInfo personality stats performance.

End AIPersonalityService.

(** ** The move policy of [AIService]

    The methods of [AIService] write candidate moves into the array they
    are given and write [null] back afterwards.  The array is threaded
    through: each function below takes the board and returns it next to
    its result. *)
Module AIService.

Record AIMove : Type := mkAIMove {
  position : Pick;
  confidence : Q;
  reasoning : string
}.

(** [checkWinner] *)
Fixpoint scan (board : Board) (ls : list (list nat)) : option WinnerInfo :=
  match ls with
  | [] => None
  | l :: rest =>
      if lineWins board l
      then Some (mkWinnerInfo (lineMark board l) (Some l))
      else scan board rest
  end.

Definition checkWinner (board : Board) : WinnerInfo :=
  match scan board lines with
  | Some r => r
  | None =>
      if everyNotNull board
      then mkWinnerInfo (Some WDraw) None
      else mkWinnerInfo None None
  end.

(** [getEmptyCells]:
    [board.map((cell, index) => cell === null ? index : null)
          .filter(val => val !== null)] *)
Definition getEmptyCells (board : Board) : list nat :=
  omap id
    (imap (fun index cell => if is_null (Some cell) then Some index else None)
       board).

(** [findWinningMove]: the loop over [emptyCells], with the board as it
    stands at each iteration. *)
Fixpoint findWinningMove_loop (player : Mark) (cells : list nat) (board : Board)
  : Pick * Board :=
  match cells with
  | [] => (MinusOne, board)
  | move :: rest =>
      let board1 := <[move := Some player]> board in
      let w := winner (checkWinner board1) in
      let board2 := <[move := None]> board1 in
      if winner_is w player
      then (Cell move, board2)
      else findWinningMove_loop player rest board2
  end.

Definition findWinningMove (board : Board) (player : Mark) : Pick * Board :=
  findWinningMove_loop player (getEmptyCells board) board.

(** The inner loop of [findForkMove]: counts the cells that would win. *)
Fixpoint countWinningMoves (player : Mark) (cells : list nat) (board : Board)
    (winningMoves : nat) : nat * Board :=
  match cells with
  | [] => (winningMoves, board)
  | testMove :: rest =>
      let board1 := <[testMove := Some player]> board in
      let w := winner (checkWinner board1) in
      let board2 := <[testMove := None]> board1 in
      countWinningMoves player rest board2
        (if winner_is w player then S winningMoves else winningMoves)
  end.

Fixpoint findForkMove_loop (player : Mark) (cells : list nat) (board : Board)
  : Pick * Board :=
  match cells with
  | [] => (MinusOne, board)
  | move :: rest =>
      let board1 := <[move := Some player]> board in
      let '(winningMoves, board2) :=
        countWinningMoves player (getEmptyCells board1) board1 0 in
      let board3 := <[move := None]> board2 in
      if 2 <=? winningMoves
      then (Cell move, board3)
      else findForkMove_loop player rest board3
  end.

Definition findForkMove (board : Board) (player : Mark) : Pick * Board :=
  findForkMove_loop player (getEmptyCells board) board.

(** [[0, 2, 6, 8].filter(i => board[i] === null)] and the like *)
Definition nullCellsAmong (board : Board) (cells : list nat) : list nat :=
  filter (fun i => is_null (board !! i) = true) cells.

(** [getStrategicMove], from the fork search on. *)
Definition strategicAfterOpening (board : Board) (emptyCells : list nat)
  : Rand (Pick * Board) :=
  let '(forkMove, board) := findForkMove board O in
  match forkMove with
  | Cell _ => mret (forkMove, board)
  | _ =>
      let '(blockForkMove, board) := findForkMove board X in
      match blockForkMove with
      | Cell _ => mret (blockForkMove, board)
      | _ =>
          if is_null (board !! 4) then mret (Cell 4, board)
          else
            let corners := nullCellsAmong board [0; 2; 6; 8] in
            if 0 <? length corners
            then p ← randomElement corners; mret (p, board)
            else
              let edges := nullCellsAmong board [1; 3; 5; 7] in
              if 0 <? length edges
              then p ← randomElement edges; mret (p, board)
              else mret (pickAt emptyCells 0, board)
      end
  end.

Definition getStrategicMove (board : Board) (moveCount : nat)
  : Rand (Pick * Board) :=
  let emptyCells := getEmptyCells board in
  if moveCount <=? 1 then
    if is_null (board !! 4) then mret (Cell 4, board)
    else
      let corners := nullCellsAmong board [0; 2; 6; 8] in
      if 0 <? length corners
      then p ← randomElement corners; mret (p, board)
      else strategicAfterOpening board emptyCells
  else strategicAfterOpening board emptyCells.

(** The [for] loop of the maximizing branch of [minimaxWithPruning]:
    [child] is the recursive call on the board with the move written in,
    given the current [alpha]; the loop carries the board, the best move
    and score so far and [alpha], and [break] ends it. *)
Fixpoint maximizingLoop
    (child : Board -> Num -> option ((Pick * Num) * Board))
    (beta : Num) (cells : list nat) (board : Board) (bestMove : Pick)
    (maxScore alpha : Num) : option ((Pick * Num) * Board) :=
  match cells with
  | [] => Some ((bestMove, maxScore), board)
  | move :: rest =>
      match child (<[move := Some O]> board) alpha with
      | None => None
      | Some ((_, score), board1) =>
          let board2 := <[move := None]> board1 in
          let improved := Num_ltb maxScore score in
          let maxScore' := if improved then score else maxScore in
          let bestMove' := if improved then Cell move else bestMove in
          let alpha' := Num_max alpha score in
          if Num_leb beta alpha'
          then Some ((bestMove', maxScore'), board2)
          else maximizingLoop child beta rest board2 bestMove' maxScore' alpha'
      end
  end.

(** The [for] loop of the minimizing branch; it carries [beta]. *)
Fixpoint minimizingLoop
    (child : Board -> Num -> option ((Pick * Num) * Board))
    (alpha : Num) (cells : list nat) (board : Board) (bestMove : Pick)
    (minScore beta : Num) : option ((Pick * Num) * Board) :=
  match cells with
  | [] => Some ((bestMove, minScore), board)
  | move :: rest =>
      match child (<[move := Some X]> board) beta with
      | None => None
      | Some ((_, score), board1) =>
          let board2 := <[move := None]> board1 in
          let improved := Num_ltb score minScore in
          let minScore' := if improved then score else minScore in
          let bestMove' := if improved then Cell move else bestMove in
          let beta' := Num_min beta score in
          if Num_leb beta' alpha
          then Some ((bestMove', minScore'), board2)
          else minimizingLoop child alpha rest board2 bestMove' minScore' beta'
      end
  end.

(** [minimaxWithPruning].  [fuel] bounds the depth of the recursion; the
    result is [None] when it runs out. *)
Fixpoint minimaxWithPruning (fuel : nat) (board : Board) (depth : Z)
    (isMaximizing : bool) (alpha beta : Num) : option ((Pick * Num) * Board) :=
  match fuel with
  | 0 => None
  | S fuel' =>
      let w := winner (checkWinner board) in
      if winner_is w O then Some ((MinusOne, Fin (10 - depth)), board)
      else if winner_is w X then Some ((MinusOne, Fin (depth - 10)), board)
      else if winner_is_draw w then Some ((MinusOne, Fin 0), board)
      else
        let emptyCells := getEmptyCells board in
        if isMaximizing then
          maximizingLoop
            (fun board alpha =>
               minimaxWithPruning fuel' board (depth + 1) false alpha beta)
            beta emptyCells board MinusOne NegInf alpha
        else
          minimizingLoop
            (fun board beta =>
               minimaxWithPruning fuel' board (depth + 1) true alpha beta)
            alpha emptyCells board MinusOne PosInf beta
  end.

(** The recursion places one mark per level, so one level per cell of
    the board and one more for the leaf is enough fuel. *)
Definition searchFuel (board : Board) : nat := S (length board).

(** A [Pick] that is not the sentinel: [p !== -1]. *)
Definition notMinusOne (p : Pick) : bool :=
  match p with
  | MinusOne => false
  | _ => true
  end.

(** [getEasyMove] *)
Definition getEasyMove (board : Board) : Rand (AIMove * Board) :=
  let emptyCells := getEmptyCells board in
  if length emptyCells =? 0
  then mret (mkAIMove MinusOne 0 "No moves available", board)
  else
    let '(winMove, board) := findWinningMove board O in
    takeWin ← (if notMinusOne winMove
               then r ← random; mret (Qltb r 0.15)
               else mret false);
    if takeWin : bool then mret (mkAIMove winMove 0.3 "Lucky win!", board)
    else
      let '(blockMove, board) := findWinningMove board X in
      takeBlock ← (if notMinusOne blockMove
                   then r ← random; mret (Qltb r 0.4)
                   else mret false);
      if takeBlock : bool
      then mret (mkAIMove blockMove 0.3 "Defensive block", board)
      else
        randomMove ← randomElement emptyCells;
        mret (mkAIMove randomMove 0.1 "Exploring move", board).

(** [getMediumMove] *)
Definition getMediumMove (board : Board) (moveCount : nat)
  : Rand (AIMove * Board) :=
  let emptyCells := getEmptyCells board in
  if length emptyCells =? 0
  then mret (mkAIMove MinusOne 0 "No moves available", board)
  else
    let '(winMove, board) := findWinningMove board O in
    if notMinusOne winMove
    then mret (mkAIMove winMove 0.9 "Winning move!", board)
    else
      let '(blockMove, board) := findWinningMove board X in
      takeBlock ← (if notMinusOne blockMove
                   then r ← random; mret (Qltb r 0.85)
                   else mret false);
      if takeBlock : bool
      then mret (mkAIMove blockMove 0.8 "Blocking opponent", board)
      else
        r ← random;
        let exploring (board : Board) : Rand (AIMove * Board) :=
          randomMove ← randomElement emptyCells;
          mret (mkAIMove randomMove 0.3 "Exploring options", board) in
        if Qltb r 0.6 then
          '(strategicMove, board) ← getStrategicMove board moveCount;
          if notMinusOne strategicMove
          then mret (mkAIMove strategicMove 0.6 "Strategic positioning", board)
          else exploring board
        else exploring board.

(** [getHardMove] *)
Definition getHardMove (board : Board) (moveCount : nat)
  : Rand (option (AIMove * Board)) :=
  let emptyCells := getEmptyCells board in
  if length emptyCells =? 0
  then mret (Some (mkAIMove MinusOne 0 "No moves available", board))
  else
    let '(winMove, board) := findWinningMove board O in
    if notMinusOne winMove
    then mret (Some (mkAIMove winMove 0.95 "Winning move!", board))
    else
      let '(blockMove, board) := findWinningMove board X in
      takeBlock ← (if notMinusOne blockMove
                   then r ← random; mret (Qltb r 0.95)
                   else mret false);
      if takeBlock : bool
      then mret (Some (mkAIMove blockMove 0.9 "Blocking opponent", board))
      else
        r ← random;
        let strategic (board : Board) : Rand (option (AIMove * Board)) :=
          '(strategicMove, board) ← getStrategicMove board moveCount;
          if notMinusOne strategicMove
          then mret (Some (mkAIMove strategicMove 0.7 "Strategic positioning",
                           board))
          else mret (Some (mkAIMove (pickAt emptyCells 0) 0.5 "Safe move",
                           board)) in
        if Qltb r 0.9 then
          match minimaxWithPruning (searchFuel board) board 9 true
                  NegInf PosInf with
          | None => mret None
          | Some ((bestPosition, _), board) =>
              if notMinusOne bestPosition
              then mret (Some (mkAIMove bestPosition 0.95
                                 "Optimal move calculated", board))
              else strategic board
          end
        else strategic board.

(** [getMove]: the dispatch on the difficulty the service was built
    with. *)
Definition getMove (difficulty : Difficulty) (board : Board) (moveCount : nat)
  : Rand (option (AIMove * Board)) :=
  match difficulty with
  | easy => r ← getEasyMove board; mret (Some r)
  | medium => r ← getMediumMove board moveCount; mret (Some r)
  | hard => getHardMove board moveCount
  end.

End AIService.

(** ** The component [EnhancedGameBoard]

    The first component of [EnhancedGameBoard.tsx]: the human plays [X],
    the [AIService] plays [O]. *)
Module EnhancedGameBoard.

(** [checkWinner] *)
Fixpoint scan (board : Board) (ls : list (list nat)) : option WinnerInfo :=
  match ls with
  | [] => None
  | l :: rest =>
      if lineWins board l
      then Some (mkWinnerInfo (lineMark board l) (Some l))
      else scan board rest
  end.

Definition checkWinner (board : Board) : WinnerInfo :=
  match scan board lines with
  | Some r => r
  | None =>
      if everyNotNull board
      then mkWinnerInfo (Some WDraw) None
      else mkWinnerInfo None None
  end.

End EnhancedGameBoard.

(** ** The component [GameBoard]

    The second component of [EnhancedGameBoard.tsx]: rules, move policy
    and turn controller of the game screen. *)
Module GameBoard.

Import AIPersonalityService.

(** The properties the component is mounted with. *)
Record Props : Set := mkProps {
  gameMode : GameMode;
  difficulty : Difficulty;
  playerGoesFirst : bool
}.

(** [checkWinner] *)
Fixpoint scan (board : Board) (ls : list (list nat)) : option WinnerInfo :=
  match ls with
  | [] => None
  | l :: rest =>
      if lineWins board l
      then Some (mkWinnerInfo (lineMark board l) (Some l))
      else scan board rest
  end.

Definition checkWinner (board : Board) : WinnerInfo :=
  match scan board lines with
  | Some r => r
  | None =>
      if everyNotNull board
      then mkWinnerInfo (Some WDraw) None
      else mkWinnerInfo None None
  end.

(** [getStartingPlayer]: ['X'] in every mode. *)
Definition getStartingPlayer (props : Props) : Mark :=
  match gameMode props with
  | single => X
  | _ => X
  end.

(** [getEmptyCells]: [for (let i = 0; i < 9; i++) if (board[i] === null)] *)
Definition getEmptyCells (board : Board) : list nat :=
  filter (fun i => is_null (board !! i) = true) (seq 0 9).

(** [isWinningMove]: on a copy of the board. *)
Definition isWinningMove (board : Board) (position : nat) (player : Mark)
  : bool :=
  let testBoard := <[position := Some player]> board in
  winner_is (winner (checkWinner testBoard)) player.

(** [findWinningMove]: the first empty cell that wins, or [null]. *)
Fixpoint findWinningMove_loop (board : Board) (player : Mark)
    (cells : list nat) : option nat :=
  match cells with
  | [] => None
  | cell :: rest =>
      if isWinningMove board cell player then Some cell
      else findWinningMove_loop board player rest
  end.

Definition findWinningMove (board : Board) (player : Mark) : option nat :=
  findWinningMove_loop board player (getEmptyCells board).

Section Policy.

(** The constants of the component that the move policy reads:
    [const { humanSymbol, aiSymbol } = getPlayerSymbols()] and the
    property [difficulty]. *)
Variables (humanSymbol aiSymbol : Mark) (difficulty : Difficulty).

(** The two [for] loops of [minimax].  Each child position [newBoard]
    is evaluated by [child] (the recursive call) and the evaluations are
    folded with [Math.max] from [-Infinity], or with [Math.min] from
    [Infinity]. *)
Fixpoint maximizeOver (child : Board -> option Num) (board : Board)
    (cells : list nat) (maxEval : Num) : option Num :=
  match cells with
  | [] => Some maxEval
  | cell :: rest =>
      let newBoard := <[cell := Some aiSymbol]> board in
      match child newBoard with
      | None => None
      | Some evaluation =>
          maximizeOver child board rest (Num_max maxEval evaluation)
      end
  end.

Fixpoint minimizeOver (child : Board -> option Num) (board : Board)
    (cells : list nat) (minEval : Num) : option Num :=
  match cells with
  | [] => Some minEval
  | cell :: rest =>
      let newBoard := <[cell := Some humanSymbol]> board in
      match child newBoard with
      | None => None
      | Some evaluation =>
          minimizeOver child board rest (Num_min minEval evaluation)
      end
  end.

(** [minimax].  [fuel] bounds the depth of the recursion; the result is
    [None] when it runs out. *)
Fixpoint minimax (fuel : nat) (board : Board) (depth : Z) (isMaximizing : bool)
  : option Num :=
  match fuel with
  | 0 => None
  | S fuel' =>
      let w := winner (checkWinner board) in
      if winner_is w aiSymbol then Some (Fin (10 - depth))
      else if winner_is w humanSymbol then Some (Fin (depth - 10))
      else if winner_is_draw w then Some (Fin 0)
      else if isMaximizing then
        maximizeOver (fun newBoard => minimax fuel' newBoard (depth + 1) false)
          board (getEmptyCells board) NegInf
      else
        minimizeOver (fun newBoard => minimax fuel' newBoard (depth + 1) true)
          board (getEmptyCells board) PosInf
  end.

(** [getEmptyCells] lists at most nine cells and every level of the
    recursion fills one, so ten levels are enough. *)
Definition searchFuel : nat := 10.

(** [getBestMove] *)
Fixpoint getBestMove_loop (board : Board) (cells : list nat)
    (bestMove : Pick) (bestValue : Num) : option Pick :=
  match cells with
  | [] => Some bestMove
  | cell :: rest =>
      let newBoard := <[cell := Some aiSymbol]> board in
      match minimax searchFuel newBoard 0 false with
      | None => None
      | Some moveValue =>
          if Num_ltb bestValue moveValue
          then getBestMove_loop board rest (Cell cell) moveValue
          else getBestMove_loop board rest bestMove bestValue
      end
  end.

Definition getBestMove (board : Board) : option Pick :=
  getBestMove_loop board (getEmptyCells board) MinusOne NegInf.

(** [getSuboptimalMove] *)
Definition getSuboptimalMove (board : Board) : Rand Pick :=
  let emptyCells := getEmptyCells board in
  let edges := filter (fun i => is_null (board !! i) = true) [1; 3; 5; 7] in
  preferEdge ← (if 0 <? length edges
                then r ← random; mret (Qltb r 0.7)
                else mret false);
  if preferEdge : bool then randomElement edges
  else randomElement emptyCells.

(** The test [move !== null && Math.random() < p]: the draw is made only
    when a move was found. *)
Definition foundAndDraw (move : option nat) (p : Q) : Rand bool :=
  match move with
  | Some _ => r ← random; mret (Qltb r p)
  | None => mret false
  end.

Definition cellOf (move : option nat) : Pick :=
  match move with
  | Some c => Cell c
  | None => MinusOne
  end.

(** [getAiMove].  [aiShouldTryToWin] is the state variable of that name.
    The result is [None] when the search of [getBestMove] runs out of
    fuel. *)
Definition getAiMove (aiShouldTryToWin : bool) (board : Board)
  : Rand (option Pick) :=
  let emptyCells := getEmptyCells board in
  if length emptyCells =? 0 then mret (Some MinusOne)
  else
    r ← random;
    let shouldBlunder := Qltb r (blunderChance (getAIPersonality difficulty)) in
    if shouldBlunder then p ← randomElement emptyCells; mret (Some p)
    else if negb aiShouldTryToWin then
      let blockingMove := findWinningMove board humanSymbol in
      block ← foundAndDraw blockingMove 0.4;
      if block : bool then mret (Some (cellOf blockingMove))
      else p ← getSuboptimalMove board; mret (Some p)
    else
      match difficulty with
      | easy =>
          match findWinningMove board aiSymbol with
          | Some easyWinningMove => mret (Some (Cell easyWinningMove))
          | None =>
              let easyBlockingMove := findWinningMove board humanSymbol in
              block ← foundAndDraw easyBlockingMove 0.3;
              if block : bool then mret (Some (cellOf easyBlockingMove))
              else
                r ← random;
                if Qltb r 0.75
                then p ← randomElement emptyCells; mret (Some p)
                else p ← getSuboptimalMove board; mret (Some p)
          end
      | medium =>
          match findWinningMove board aiSymbol with
          | Some mediumWinningMove => mret (Some (Cell mediumWinningMove))
          | None =>
              let mediumBlockingMove := findWinningMove board humanSymbol in
              block ← foundAndDraw mediumBlockingMove 0.7;
              if block : bool then mret (Some (cellOf mediumBlockingMove))
              else
                r ← random;
                if Qltb r 0.4
                then p ← getSuboptimalMove board; mret (Some p)
                else if is_null (board !! 4) then mret (Some (Cell 4))
                else
                  let corners :=
                    filter (fun i => is_null (board !! i) = true)
                      [0; 2; 6; 8] in
                  if 0 <? length corners
                  then p ← randomElement corners; mret (Some p)
                  else p ← randomElement emptyCells; mret (Some p)
          end
      | hard =>
          match findWinningMove board aiSymbol with
          | Some hardWinningMove => mret (Some (Cell hardWinningMove))
          | None =>
              let hardBlockingMove := findWinningMove board humanSymbol in
              block ← foundAndDraw hardBlockingMove 0.95;
              if block : bool then mret (Some (cellOf hardBlockingMove))
              else
                r ← random;
                if Qltb r 0.15
                then p ← getSuboptimalMove board; mret (Some p)
                else mret (getBestMove board)
          end
      end.

End Policy.

(** [getPlayerSymbols] *)
Definition humanSymbol (props : Props) : Mark :=
  match gameMode props with
  | single => if playerGoesFirst props then X else O
  | _ => X
  end.

Definition aiSymbol (props : Props) : Mark :=
  match gameMode props with
  | single => if playerGoesFirst props then O else X
  | _ => O
  end.


(** *** The turn controller

    The React state of the component, the interval of the turn timer
    ([timerRef]), the pending callback of the AI's thinking delay with
    the board it was given ([aiTimeout]) and the browser's
    [localStorage].  State that only drives the display (progress bar,
    result dialog) is left out. *)
Record State : Type := mkState {
  board : Board;
  currentPlayer : Mark;
  gameResult : GameResult;
  isAiThinking : bool;
  moveHistory : list Board;
  winningLine : option (list nat);
  aiShouldTryToWin : bool;
  turnTimeLeft : Z;
  isTimerRunning : bool;
  timerRef : bool;
  aiTimeout : option Board;
  localStorage : LocalStorage
}.

(** The state setters: one field changes, the others are kept. *)
Definition set_board (v : Board) (s : State) : State :=
  mkState v (currentPlayer s) (gameResult s) (isAiThinking s)
    (moveHistory s) (winningLine s) (aiShouldTryToWin s) (turnTimeLeft s)
    (isTimerRunning s) (timerRef s) (aiTimeout s) (localStorage s).

Definition set_currentPlayer (v : Mark) (s : State) : State :=
  mkState (board s) v (gameResult s) (isAiThinking s) (moveHistory s)
    (winningLine s) (aiShouldTryToWin s) (turnTimeLeft s) (isTimerRunning s)
    (timerRef s) (aiTimeout s) (localStorage s).

Definition set_gameResult (v : GameResult) (s : State) : State :=
  mkState (board s) (currentPlayer s) v (isAiThinking s) (moveHistory s)
    (winningLine s) (aiShouldTryToWin s) (turnTimeLeft s) (isTimerRunning s)
    (timerRef s) (aiTimeout s) (localStorage s).

Definition set_isAiThinking (v : bool) (s : State) : State :=
  mkState (board s) (currentPlayer s) (gameResult s) v (moveHistory s)
    (winningLine s) (aiShouldTryToWin s) (turnTimeLeft s) (isTimerRunning s)
    (timerRef s) (aiTimeout s) (localStorage s).

Definition set_moveHistory (v : list Board) (s : State) : State :=
  mkState (board s) (currentPlayer s) (gameResult s) (isAiThinking s) v
    (winningLine s) (aiShouldTryToWin s) (turnTimeLeft s) (isTimerRunning s)
    (timerRef s) (aiTimeout s) (localStorage s).

Definition set_winningLine (v : option (list nat)) (s : State) : State :=
  mkState (board s) (currentPlayer s) (gameResult s) (isAiThinking s)
    (moveHistory s) v (aiShouldTryToWin s) (turnTimeLeft s)
    (isTimerRunning s) (timerRef s) (aiTimeout s) (localStorage s).

Definition set_aiShouldTryToWin (v : bool) (s : State) : State :=
  mkState (board s) (currentPlayer s) (gameResult s) (isAiThinking s)
    (moveHistory s) (winningLine s) v (turnTimeLeft s) (isTimerRunning s)
    (timerRef s) (aiTimeout s) (localStorage s).

Definition set_turnTimeLeft (v : Z) (s : State) : State :=
  mkState (board s) (currentPlayer s) (gameResult s) (isAiThinking s)
    (moveHistory s) (winningLine s) (aiShouldTryToWin s) v
    (isTimerRunning s) (timerRef s) (aiTimeout s) (localStorage s).

Definition set_isTimerRunning (v : bool) (s : State) : State :=
  mkState (board s) (currentPlayer s) (gameResult s) (isAiThinking s)
    (moveHistory s) (winningLine s) (aiShouldTryToWin s) (turnTimeLeft s) v
    (timerRef s) (aiTimeout s) (localStorage s).

Definition set_timerRef (v : bool) (s : State) : State :=
  mkState (board s) (currentPlayer s) (gameResult s) (isAiThinking s)
    (moveHistory s) (winningLine s) (aiShouldTryToWin s) (turnTimeLeft s)
    (isTimerRunning s) v (aiTimeout s) (localStorage s).

Definition set_aiTimeout (v : option Board) (s : State) : State :=
  mkState (board s) (currentPlayer s) (gameResult s) (isAiThinking s)
    (moveHistory s) (winningLine s) (aiShouldTryToWin s) (turnTimeLeft s)
    (isTimerRunning s) (timerRef s) v (localStorage s).

Definition set_localStorage (v : LocalStorage) (s : State) : State :=
  mkState (board s) (currentPlayer s) (gameResult s) (isAiThinking s)
    (moveHistory s) (winningLine s) (aiShouldTryToWin s) (turnTimeLeft s)
    (isTimerRunning s) (timerRef s) (aiTimeout s) v.

Definition TURN_TIME_LIMIT : Z := 3.

Definition initialState (props : Props) (ls : LocalStorage) : State :=
  mkState emptyBoard (getStartingPlayer props) None false [emptyBoard] None
    true TURN_TIME_LIMIT false false None ls.



Section Turns.

Variable props : Props.

Definition isSingle : bool := bool_decide (gameMode props = single).

(** [isCurrentPlayerHuman] *)
Definition isCurrentPlayerHuman (s : State) : bool :=
  if isSingle then Mark_eqb (currentPlayer s) (humanSymbol props) else true.

(** [stopTimer] *)
Definition stopTimer (s : State) : State :=
  set_isTimerRunning false (set_timerRef false s).

(** [startTimer] *)
Definition startTimer (s : State) : State :=
  if isOverResult (gameResult s) || isAiThinking s
     || negb (isCurrentPlayerHuman s)
  then s
  else
    set_timerRef true
      (set_isTimerRunning true
         (set_turnTimeLeft TURN_TIME_LIMIT (stopTimer s))).

(** [handleTimeUp] *)
Definition handleTimeUp (s : State) : State :=
  let s := stopTimer s in
  if isOverResult (gameResult s) then s
  else if isSingle && Mark_eqb (currentPlayer s) (humanSymbol props)
  then set_currentPlayer (aiSymbol props) s
  else set_currentPlayer (otherMark (currentPlayer s)) s.

(** One firing of the interval that [startTimer] installs; it fires only
    while the interval is installed. *)
Definition timerTick (s : State) : State :=
  if timerRef s then
    if (turnTimeLeft s <=? 1)%Z
    then set_turnTimeLeft 0 (handleTimeUp s)
    else set_turnTimeLeft (turnTimeLeft s - 1) s
  else s.

(** The end of a game, common to [handleCellClick] and the AI's move:
    the result is stored and, against the AI, recorded by the
    calibrator. *)
Definition finishGame (w : Winner) (l : option (list nat)) (s : State)
  : State :=
  let s := set_winningLine l (set_gameResult (Some w) s) in
  if isSingle
  then
    set_localStorage
      (recordGameResult (difficulty props) w (localStorage s)) s
  else s.

(** [handleCellClick]; [index] is the index of a rendered cell. *)
Definition handleCellClick (index : nat) (s : State) : State :=
  if truthy (board s !! index) || isOverResult (gameResult s)
     || isAiThinking s
  then s
  else
    let s := stopTimer s in
    let newBoard := <[index := Some (currentPlayer s)]> (board s) in
    let s :=
      set_moveHistory (moveHistory s ++ [newBoard]) (set_board newBoard s) in
    let r := checkWinner newBoard in
    match winner r with
    | Some w => finishGame w (line r) s
    | None =>
        if isSingle && Mark_eqb (currentPlayer s) (humanSymbol props)
        then set_currentPlayer (aiSymbol props) s
        else set_currentPlayer (otherMark (currentPlayer s)) s
    end.

(** [triggerAiMove]: the thinking delay starts. *)
Definition triggerAiMove (currentBoard : Board) (s : State) : State :=
  set_aiTimeout (Some currentBoard) (set_isAiThinking true (stopTimer s)).

(** [newBoard[aiMove] = aiSymbol]; a write at [undefined] leaves the
    cells as they are. *)
Definition writePick (p : Pick) (v : Player) (b : Board) : Board :=
  match p with
  | Cell c => <[c := v]> b
  | _ => b
  end.

(** The callback of [triggerAiMove], once [getAiMove] has returned
    [aiMove]. *)
Definition applyAiMove (currentBoard : Board) (aiMove : Pick) (s : State)
  : State :=
  let s :=
    match aiMove with
    | MinusOne => s
    | _ =>
        let newBoard := writePick aiMove (Some (aiSymbol props)) currentBoard in
        let s :=
          set_moveHistory (moveHistory s ++ [newBoard])
            (set_board newBoard s) in
        let r := checkWinner newBoard in
        match winner r with
        | Some w => finishGame w (line r) s
        | None => set_currentPlayer (humanSymbol props) s
        end
    end in
  set_aiTimeout None (set_isAiThinking false s).

(** The effect that runs on the AI's turn. *)
Definition aiTurnEffect (s : State) : State :=
  if isOverResult (gameResult s) || isAiThinking s then s
  else if isSingle && Mark_eqb (currentPlayer s) (aiSymbol props)
  then triggerAiMove (board s) (stopTimer s)
  else s.

(** [array.pop()] *)
Definition pop {A : Type} (l : list A) : list A := removelast l.

(** [undoMove] *)
Definition undoMove (s : State) : State :=
  if (length (moveHistory s) <=? 1) || isOverResult (gameResult s)
     || isAiThinking s
  then s
  else
    let s := stopTimer s in
    let newHistory := pop (moveHistory s) in
    let newHistory :=
      if isSingle && (1 <? length newHistory) then pop newHistory
      else newHistory in
    match last newHistory with
    | Some previousBoard =>
        set_turnTimeLeft TURN_TIME_LIMIT
          (set_isAiThinking false
             (set_currentPlayer (getStartingPlayer props)
                (set_moveHistory newHistory (set_board previousBoard s))))
    | None => s  (* [newHistory] keeps the initial board: not reached *)
    end.

(** [resetGame], with the calibrator's decision for the new game. *)
Definition resetGame (s : State) : Rand State :=
  let s := stopTimer s in
  let newBoard := replicate 9 None in
  let s :=
    set_turnTimeLeft TURN_TIME_LIMIT
      (set_winningLine None
         (set_moveHistory [newBoard]
            (set_isAiThinking false
               (set_gameResult None
                  (set_currentPlayer (getStartingPlayer props)
                     (set_board newBoard s)))))) in
  if isSingle then
    shouldTryWin ← shouldAITryToWin (difficulty props) (localStorage s);
    mret (set_aiShouldTryToWin shouldTryWin s)
  else mret s.

End Turns.

End GameBoard.

(** ** The session synchronizer ([OnlineGameService.tsx]) *)
Module OnlineGameService.

Record GameState : Type := mkGameState {
  board : Board;
  currentPlayer : Mark;
  gameResult : GameResult;
  winningLine : option (list nat);
  moveHistory : list Board
}.

Inductive ConnectionStatus : Set :=
  | disconnected | connecting | connected | error.

Inductive MatchmakingStatus : Set :=
  | idle | searching | found | in_game.

(** A timer handle: [null], a timer still to fire, or the handle of a
    timer that has fired (the service keeps it until it is cleared). *)
Inductive Timeout : Set :=
  | NoTimeout
  | Scheduled
  | Expired.

(** The fields of the service.  [opponent] is the index of the entry of
    [demoOpponents]; a room identifier is the draw it is printed from.
    [connectTimer] and [gameStartTimer] are the two timers whose handles
    the service does not keep.  The listeners are left out. *)
Record Service : Type := mkService {
  connectionStatus : ConnectionStatus;
  matchmakingStatus : MatchmakingStatus;
  gameState : option GameState;
  currentRoomId : option Q;
  playerSymbol : Player;
  opponent : option Pick;
  opponentMoveTimeout : Timeout;
  matchmakingTimeout : Timeout;
  connectTimer : bool;
  gameStartTimer : bool
}.

#[global] Instance ConnectionStatus_eq_dec : EqDecision ConnectionStatus.
Proof. solve_decision. Defined.

#[global] Instance MatchmakingStatus_eq_dec : EqDecision MatchmakingStatus.
Proof. solve_decision. Defined.

Definition initial : Service :=
  mkService disconnected idle None None None None NoTimeout NoTimeout false
    false.

(** [checkWinner] *)
Fixpoint scan (board : Board) (ls : list (list nat)) : option WinnerInfo :=
  match ls with
  | [] => None
  | l :: rest =>
      if lineWins board l
      then Some (mkWinnerInfo (lineMark board l) (Some l))
      else scan board rest
  end.

Definition checkWinner (board : Board) : WinnerInfo :=
  match scan board lines with
  | Some r => r
  | None =>
      if everyNotNull board
      then mkWinnerInfo (Some WDraw) None
      else mkWinnerInfo None None
  end.

Definition set_gameState (v : option GameState) (s : Service) : Service :=
  mkService (connectionStatus s) (matchmakingStatus s) v (currentRoomId s)
    (playerSymbol s) (opponent s) (opponentMoveTimeout s)
    (matchmakingTimeout s) (connectTimer s) (gameStartTimer s).

Definition set_opponentMoveTimeout (v : Timeout) (s : Service) : Service :=
  mkService (connectionStatus s) (matchmakingStatus s) (gameState s)
    (currentRoomId s) (playerSymbol s) (opponent s) v
    (matchmakingTimeout s) (connectTimer s) (gameStartTimer s).

Definition set_matchmakingTimeout (v : Timeout) (s : Service) : Service :=
  mkService (connectionStatus s) (matchmakingStatus s) (gameState s)
    (currentRoomId s) (playerSymbol s) (opponent s) (opponentMoveTimeout s)
    v (connectTimer s) (gameStartTimer s).

Definition setConnectionStatus (v : ConnectionStatus) (s : Service) : Service :=
  mkService v (matchmakingStatus s) (gameState s) (currentRoomId s)
    (playerSymbol s) (opponent s) (opponentMoveTimeout s)
    (matchmakingTimeout s) (connectTimer s) (gameStartTimer s).

Definition setMatchmakingStatus (v : MatchmakingStatus) (s : Service)
  : Service :=
  mkService (connectionStatus s) v (gameState s) (currentRoomId s)
    (playerSymbol s) (opponent s) (opponentMoveTimeout s)
    (matchmakingTimeout s) (connectTimer s) (gameStartTimer s).

Definition set_connectTimer (v : bool) (s : Service) : Service :=
  mkService (connectionStatus s) (matchmakingStatus s) (gameState s)
    (currentRoomId s) (playerSymbol s) (opponent s) (opponentMoveTimeout s)
    (matchmakingTimeout s) v (gameStartTimer s).

Definition set_gameStartTimer (v : bool) (s : Service) : Service :=
  mkService (connectionStatus s) (matchmakingStatus s) (gameState s)
    (currentRoomId s) (playerSymbol s) (opponent s) (opponentMoveTimeout s)
    (matchmakingTimeout s) (connectTimer s) v.

(** The assignments [currentRoomId = ...; opponent = ...;
    playerSymbol = ...] *)
Definition set_match (room : option Q) (opp : option Pick) (symbol : Player)
    (s : Service) : Service :=
  mkService (connectionStatus s) (matchmakingStatus s) (gameState s) room
    symbol opp (opponentMoveTimeout s) (matchmakingTimeout s)
    (connectTimer s) (gameStartTimer s).

(** [clearOpponentMoveTimeout] and [clearMatchmakingTimeout] *)
Definition clearOpponentMoveTimeout (s : Service) : Service :=
  match opponentMoveTimeout s with
  | NoTimeout => s
  | _ => set_opponentMoveTimeout NoTimeout s
  end.

Definition clearMatchmakingTimeout (s : Service) : Service :=
  match matchmakingTimeout s with
  | NoTimeout => s
  | _ => set_matchmakingTimeout NoTimeout s
  end.

(** [connect]: the call, and the timer it starts. *)
Definition connect (s : Service) : Service :=
  set_connectTimer true (setConnectionStatus connecting s).

Definition connectTimerFires (s : Service) : Service :=
  if connectTimer s
  then set_connectTimer false (setConnectionStatus connected s)
  else s.

(** The tail shared by [disconnect], [cancelMatchmaking] and
    [leaveGame]. *)
Definition dropSession (s : Service) : Service :=
  set_gameState None (set_match None None None s).

Definition disconnect (s : Service) : Service :=
  dropSession
    (setMatchmakingStatus idle
       (setConnectionStatus disconnected
          (clearMatchmakingTimeout (clearOpponentMoveTimeout s)))).

Definition cancelMatchmaking (s : Service) : Service :=
  dropSession
    (setMatchmakingStatus idle
       (clearOpponentMoveTimeout (clearMatchmakingTimeout s))).

Definition leaveGame (s : Service) : Service :=
  dropSession
    (setMatchmakingStatus idle
       (clearMatchmakingTimeout (clearOpponentMoveTimeout s))).

Definition newGame : GameState :=
  mkGameState (replicate 9 None) X None None [replicate 9 None].

(** [findMatch]: the call; one draw fixes the search time. *)
Definition findMatch (s : Service) : Rand Service :=
  if bool_decide (matchmakingStatus s <> idle) then mret s
  else if bool_decide (connectionStatus s <> connected) then mret s
  else
    let s := clearMatchmakingTimeout (setMatchmakingStatus searching s) in
    searchTime ← random;
    mret (set_matchmakingTimeout Scheduled s).

(** The callback of the search timer. *)
Definition matchmakingTimerFires (s : Service) : Rand Service :=
  match matchmakingTimeout s with
  | Scheduled =>
      let s := set_matchmakingTimeout Expired s in
      if bool_decide (matchmakingStatus s <> searching) then mret s
      else
        k ← randomIndex 8;
        roomId ← random;
        let symbol := X in
        let s := set_match (Some roomId) (Some (pickAt (seq 0 8) k))
                   (Some symbol) s in
        let s := setMatchmakingStatus found s in
        mret (set_gameStartTimer true (set_gameState (Some newGame) s))
  | _ => mret s
  end.

(** The callback of the second timer: the game starts. *)
Definition gameStartTimerFires (s : Service) : Service :=
  if gameStartTimer s then
    let s := set_gameStartTimer false s in
    if bool_decide (matchmakingStatus s = found)
    then setMatchmakingStatus in_game s
    else s
  else s.

(** [scheduleOpponentMove] *)
Definition scheduleOpponentMove (s : Service) : Service :=
  set_opponentMoveTimeout Scheduled s.

(** [currentPlayer !== this.playerSymbol] *)
Definition notPlayersTurn (g : GameState) (s : Service) : bool :=
  negb (strict_eq (Some (Some (currentPlayer g))) (Some (playerSymbol s))).

(** [makeMove] *)
Definition makeMove (position : nat) (s : Service) : bool * Service :=
  match gameState s with
  | None => (false, s)
  | Some g =>
      if isOverResult (gameResult g) then (false, s)
      else if not_null (board g !! position) then (false, s)
      else if notPlayersTurn g s then (false, s)
      else
        let s := clearOpponentMoveTimeout s in
        let newBoard := <[position := playerSymbol s]> (board g) in
        let g :=
          mkGameState newBoard O (gameResult g) (winningLine g)
            (moveHistory g ++ [newBoard]) in
        let r := checkWinner (board g) in
        match winner r with
        | Some w =>
            let g :=
              mkGameState (board g) (currentPlayer g) (Some w) (line r)
                (moveHistory g) in
            (true, set_gameState (Some g) s)
        | None => (true, scheduleOpponentMove (set_gameState (Some g) s))
        end
  end.

(** The empty cells as [executeOpponentMove] lists them:
    [board.map((cell, index) => cell === null ? index : -1)
          .filter(index => index !== -1)] *)
Definition emptyCellsOf (board : Board) : list nat :=
  omap id
    (imap (fun index cell => if is_null (Some cell) then Some index else None)
       board).

(** [executeOpponentMove] *)
Definition executeOpponentMove (s : Service) : Rand Service :=
  match gameState s with
  | None => mret s
  | Some g =>
      if isOverResult (gameResult g) then mret s
      else if negb (Mark_eqb (currentPlayer g) O) then mret s
      else
        let emptyCells := emptyCellsOf (board g) in
        if length emptyCells =? 0 then mret s
        else
          randomPosition ← randomElement emptyCells;
          let newBoard :=
            match randomPosition with
            | Cell c => <[c := Some O]> (board g)
            | _ => board g
            end in
          let g :=
            mkGameState newBoard X (gameResult g) (winningLine g)
              (moveHistory g ++ [newBoard]) in
          let r := checkWinner (board g) in
          match winner r with
          | Some w =>
              mret (set_gameState
                      (Some (mkGameState (board g) (currentPlayer g) (Some w)
                               (line r) (moveHistory g))) s)
          | None => mret (set_gameState (Some g) s)
          end
  end.

(** The callback of the opponent's timer. *)
Definition opponentTimerFires (s : Service) : Rand Service :=
  match opponentMoveTimeout s with
  | Scheduled => executeOpponentMove (set_opponentMoveTimeout Expired s)
  | _ => mret s
  end.

(** [resetGame] *)
Definition resetGame (s : Service) : Service :=
  set_gameState (Some newGame) (clearOpponentMoveTimeout s).

(** The states of the service: what its methods and timers produce from
    the state it is constructed in, for any draws. *)
Inductive reachable : Service -> Prop :=
  | reach_initial : reachable initial
  | reach_connect s : reachable s -> reachable (connect s)
  | reach_connectTimer s : reachable s -> reachable (connectTimerFires s)
  | reach_disconnect s : reachable s -> reachable (disconnect s)
  | reach_findMatch s g i : reachable s -> reachable (fst (findMatch s g i))
  | reach_matchmakingTimer s g i :
      reachable s -> reachable (fst (matchmakingTimerFires s g i))
  | reach_gameStartTimer s : reachable s -> reachable (gameStartTimerFires s)
  | reach_cancelMatchmaking s : reachable s -> reachable (cancelMatchmaking s)
  | reach_makeMove s position :
      reachable s -> reachable (snd (makeMove position s))
  | reach_opponentTimer s g i :
      reachable s -> reachable (fst (opponentTimerFires s g i))
  | reach_resetGame s : reachable s -> reachable (resetGame s)
  | reach_leaveGame s : reachable s -> reachable (leaveGame s).

(** The move is rejected by one of the four tests of [makeMove]: no game
    state, game over, cell occupied, not the caller's turn. *)
Definition illegalMove (position : nat) (s : Service) : Prop :=
  match gameState s with
  | None => True
  | Some g =>
      gameResult g <> None
      \/ (exists m, board g !! position = Some (Some m))
      \/ Some (currentPlayer g) <> playerSymbol s
  end.

(** What holds of every state of the service: the player's mark is [X]
    when there is one, and a board has nine cells. *)
Definition wellFormed (s : Service) : Prop :=
  playerSymbol s <> Some O
  /\ forall g, gameState s = Some g -> length (board g) = 9.

(** Unfolds the field updates of the service record. *)
Ltac service_fields :=
  unfold scheduleOpponentMove, set_gameState, set_opponentMoveTimeout,
    set_matchmakingTimeout, setConnectionStatus, setMatchmakingStatus,
    set_connectTimer, set_gameStartTimer, set_match in *;
  simpl in *.

End OnlineGameService.

(** ** Vocabulary of the specification *)

(** All cells of the line [l] hold the mark [m]. *)
Definition lineHeldBy (board : Board) (m : Mark) (l : list nat) : Prop :=
  Forall (fun i => board !! i = Some (Some m)) l.

(** [L] is the first line, in the order of [lines], that one mark
    holds, and [m] is that mark. *)
Definition firstLine (board : Board) (m : Mark) (L : list nat) : Prop :=
  exists before after,
    lines = before ++ L :: after
    /\ lineHeldBy board m L
    /\ forall L' m', L' ∈ before -> ~ lineHeldBy board m' L'.

Definition noLine (board : Board) : Prop :=
  forall L m, L ∈ lines -> ~ lineHeldBy board m L.

(** All nine cells hold a mark. *)
Definition fullBoard (board : Board) : Prop :=
  forall i, i < 9 -> exists m, board !! i = Some (Some m).

Definition Win (m : Mark) (L : list nat) : WinnerInfo :=
  mkWinnerInfo (Some (WMark m)) (Some L).

Definition Draw : WinnerInfo := mkWinnerInfo (Some WDraw) None.

Definition InProgress : WinnerInfo := mkWinnerInfo None None.

(** The reading of the rules engine that the specification gives. *)
Definition evaluatesAsSpecified (checkWinner : Board -> WinnerInfo)
    (board : Board) : Prop :=
  (forall m L, checkWinner board = Win m L <-> firstLine board m L)
  /\ (checkWinner board = Draw <-> noLine board /\ fullBoard board)
  /\ (checkWinner board = InProgress <-> noLine board /\ ~ fullBoard board).

(** The realized win-rate of the specification: [aiWins / gamesPlayed]. *)
Definition realizedWinRate (s : AIPersonalityService.AIStats) : Q :=
  inject_Z (AIPersonalityService.aiWins s)
  / inject_Z (AIPersonalityService.totalGames s).

(** The store after [aiWon + playerWon] games at the difficulty [d], of
    which the AI (playing [O]) won the first [aiWon]. *)
Definition storeAfter (d : Difficulty) (aiWon playerWon : nat)
  : AIPersonalityService.LocalStorage :=
  Nat.iter playerWon (AIPersonalityService.recordGameResult d (WMark X))
    (Nat.iter aiWon (AIPersonalityService.recordGameResult d (WMark O)) ∅).

(** One turn of the AI on the game screen: the effect starts the thinking
    delay on the current board, and the callback places the mark on the
    cell [c] that the move policy chose. *)
Definition aiPlays (props : GameBoard.Props) (c : nat) (s : GameBoard.State)
  : GameBoard.State :=
  GameBoard.applyAiMove props (GameBoard.board s) (Cell c)
    (GameBoard.aiTurnEffect props s).

(** A session of the online service at the start of a game: connected,
    matched, board reset. *)
Definition sessionAtGameStart : OnlineGameService.Service :=
  OnlineGameService.resetGame
    (fst (OnlineGameService.matchmakingTimerFires
            (fst (OnlineGameService.findMatch
                    (OnlineGameService.connectTimerFires
                       (OnlineGameService.connect OnlineGameService.initial))
                    (fun _ => 0.5%Q) 0))
            (fun _ => 0.5%Q) 1)).

(** The empty cell [c] immediately completes three in a row for the mark
    [m]: with [m] placed on [c], one of the eight lines is held by [m]. *)
Definition completesLine (board : Board) (m : Mark) (c : nat) : Prop :=
  board !! c = Some None
  /\ exists L, L ∈ lines /\ lineHeldBy (<[c := Some m]> board) m L.

(** A position with [O] to move: [O] completes the top row on cell 2,
    [X] threatens the bottom row on cell 7. *)
Definition boardWithFreeWin : Board :=
  [Some O; Some O; None; Some X; None; None; Some X; None; Some X].

(** A board on which [X] holds the top row: [O] would complete the
    bottom row on cell 8. *)
Definition boardWithLineHeld : Board :=
  [Some X; Some X; Some X; None; None; None; Some O; Some O; None].

(** The position after a human opening on the corner cell 0. *)
Definition boardCornerOpening : Board :=
  [Some X; None; None; None; None; None; None; None; None].

(** The number of [null] cells of a board. *)
Definition numNone (board : Board) : nat :=
  length (filter (fun cell => cell = None) board).

(** What every stored item looks like in a store that the calibrator
    produced. *)
Definition consistentItem (it : AIPersonalityService.Item) : Prop :=
  match it with
  | AIPersonalityService.Json s =>
      (0 < AIPersonalityService.totalGames s)%Z
      /\ AIPersonalityService.winRate s = realizedWinRate s
  | AIPersonalityService.Unparsable => False
  end.

(** ** The two marks exchanged *)

(** The board with every [X] replaced by [O] and every [O] by [X]. *)
Definition swapMarks (board : Board) : Board :=
  map (option_map otherMark) board.

Definition swapWinner (r : GameResult) : GameResult :=
  match r with
  | Some (WMark m) => Some (WMark (otherMark m))
  | Some WDraw => Some WDraw
  | None => None
  end.

Definition swapInfo (r : WinnerInfo) : WinnerInfo :=
  mkWinnerInfo (swapWinner (winner r)) (line r).

(** ** The game screen with its pending callbacks

    The component sets two timeouts on a turn of the AI and cancels
    neither: the effect of the AI's turn defers [triggerAiMove(board)]
    by 500 ms, and [triggerAiMove] defers the move by the thinking time.
    A click, undo and reset are accepted while the first is pending, and
    every callback that was set fires.  A callback keeps what the render
    that created it gave it: the board, and the strategy flag
    [aiShouldTryToWin] that its [getAiMove] reads.  The same holds of
    the [startTimer] that the effect of a human's turn defers by 300 ms
    and of the [handleTimeUp] that the interval of the turn timer calls:
    they read the result, the thinking flag and the player of the render
    that created them. *)
Module GameScreen.

Inductive Callback : Type :=
  | Trigger (currentBoard : Board) (aiShouldTryToWin : bool)
  | Move (currentBoard : Board) (aiShouldTryToWin : bool).

Definition callbackBoard (cb : Callback) : Board :=
  match cb with
  | Trigger currentBoard _ => currentBoard
  | Move currentBoard _ => currentBoard
  end.

(** The state of the component and the callbacks that are pending. *)
Record Screen : Type := mkScreen {
  state : GameBoard.State;
  pending : list Callback
}.

Section Steps.

Variable props : GameBoard.Props.

(** The effect of the AI's turn: on the AI's turn of a running game it
    stops the timer and sets the timeout of [triggerAiMove(board)]. *)
Definition aiTurnEffect (sc : Screen) : Screen :=
  let s := state sc in
  if isOverResult (GameBoard.gameResult s) || GameBoard.isAiThinking s
  then sc
  else if GameBoard.isSingle props
          && Mark_eqb (GameBoard.currentPlayer s) (GameBoard.aiSymbol props)
  then
    mkScreen (GameBoard.stopTimer s)
      (pending sc
       ++ [Trigger (GameBoard.board s) (GameBoard.aiShouldTryToWin s)])
  else sc.

(** [triggerAiMove(currentBoard)], up to the timeout it sets. *)
Definition triggerAiMove (s : GameBoard.State) : GameBoard.State :=
  GameBoard.set_isAiThinking true (GameBoard.stopTimer s).

(** The callback of the thinking delay: [getAiMove] of the render that
    set it, on the board it was given; [None] when the search runs out
    of fuel. *)
Definition aiMoveFires (currentBoard : Board) (aiShouldTryToWin : bool)
    (s : GameBoard.State) : Rand (option GameBoard.State) :=
  m ← GameBoard.getAiMove (GameBoard.humanSymbol props)
        (GameBoard.aiSymbol props) (GameBoard.difficulty props)
        aiShouldTryToWin currentBoard;
  mret (aiMove ← m;
        Some (GameBoard.applyAiMove props currentBoard aiMove s)).

(** [startTimer] as the render with the result [gameResult0], the
    thinking flag [isAiThinking0] and the player [currentPlayer0]
    created it. *)
Definition startTimerOf (gameResult0 : GameResult) (isAiThinking0 : bool)
    (currentPlayer0 : Mark) (s : GameBoard.State) : GameBoard.State :=
  if isOverResult gameResult0 || isAiThinking0
     || negb (if GameBoard.isSingle props
              then Mark_eqb currentPlayer0 (GameBoard.humanSymbol props)
              else true)
  then s
  else
    GameBoard.set_timerRef true
      (GameBoard.set_isTimerRunning true
         (GameBoard.set_turnTimeLeft GameBoard.TURN_TIME_LIMIT
            (GameBoard.stopTimer s))).

(** [handleTimeUp] as the render with the result [gameResult0] and the
    player [currentPlayer0] created it. *)
Definition handleTimeUpOf (gameResult0 : GameResult) (currentPlayer0 : Mark)
    (s : GameBoard.State) : GameBoard.State :=
  let s := GameBoard.stopTimer s in
  if isOverResult gameResult0 then s
  else if GameBoard.isSingle props
          && Mark_eqb currentPlayer0 (GameBoard.humanSymbol props)
  then GameBoard.set_currentPlayer (GameBoard.aiSymbol props) s
  else
    GameBoard.set_currentPlayer (otherMark (GameBoard.currentPlayer s)) s.

(** One firing of the interval of the turn timer. *)
Definition timerTick (gameResult0 : GameResult) (currentPlayer0 : Mark)
    (s : GameBoard.State) : GameBoard.State :=
  if GameBoard.timerRef s then
    if (GameBoard.turnTimeLeft s <=? 1)%Z
    then
      GameBoard.set_turnTimeLeft 0
        (handleTimeUpOf gameResult0 currentPlayer0 s)
    else GameBoard.set_turnTimeLeft (GameBoard.turnTimeLeft s - 1) s
  else s.

End Steps.

(** The states of the game screen: what the handlers, the effects and
    the callbacks produce from the state it is mounted in, in any order
    and for any draws.  The effects may run in every state (the
    component runs them when a dependency has changed), and the
    [startTimer] and the [handleTimeUp] that a timer calls may be those
    of any render. *)
Inductive screenState (props : GameBoard.Props)
    (ls : AIPersonalityService.LocalStorage) : Screen -> Prop :=
  | screen_mounted :
      screenState props ls (mkScreen (GameBoard.initialState props ls) [])
  | screen_strategy s p g i :
      GameBoard.gameMode props = single ->
      screenState props ls (mkScreen s p) ->
      screenState props ls
        (mkScreen
           (GameBoard.set_aiShouldTryToWin
              (fst (AIPersonalityService.shouldAITryToWin
                      (GameBoard.difficulty props) (GameBoard.localStorage s)
                      g i)) s) p)
  | screen_click s p index :
      index < 9 ->
      screenState props ls (mkScreen s p) ->
      screenState props ls
        (mkScreen (GameBoard.handleCellClick props index s) p)
  | screen_startTimer s p gameResult0 isAiThinking0 currentPlayer0 :
      screenState props ls (mkScreen s p) ->
      screenState props ls
        (mkScreen
           (startTimerOf props gameResult0 isAiThinking0 currentPlayer0 s) p)
  | screen_timerTick s p gameResult0 currentPlayer0 :
      screenState props ls (mkScreen s p) ->
      screenState props ls
        (mkScreen (timerTick props gameResult0 currentPlayer0 s) p)
  | screen_aiTurn sc :
      screenState props ls sc ->
      screenState props ls (aiTurnEffect props sc)
  | screen_trigger s before after currentBoard flag :
      screenState props ls
        (mkScreen s (before ++ Trigger currentBoard flag :: after)) ->
      screenState props ls
        (mkScreen (triggerAiMove s)
           (before ++ after ++ [Move currentBoard flag]))
  | screen_aiMove s before after currentBoard flag g i s' :
      screenState props ls
        (mkScreen s (before ++ Move currentBoard flag :: after)) ->
      fst (aiMoveFires props currentBoard flag s g i) = Some s' ->
      screenState props ls (mkScreen s' (before ++ after))
  | screen_undo s p :
      screenState props ls (mkScreen s p) ->
      screenState props ls (mkScreen (GameBoard.undoMove props s) p)
  | screen_reset s p g i :
      screenState props ls (mkScreen s p) ->
      screenState props ls
        (mkScreen (fst (GameBoard.resetGame props s g i)) p).

(** What holds of every state of the game screen. *)
Definition screenInvariant (props : GameBoard.Props)
    (ls : AIPersonalityService.LocalStorage) (sc : Screen) : Prop :=
  let s := state sc in
  length (GameBoard.board s) = 9
  /\ last (GameBoard.moveHistory s) = Some (GameBoard.board s)
  /\ Forall (fun b => length b = 9) (GameBoard.moveHistory s)
  /\ Forall (fun cb => length (callbackBoard cb) = 9) (pending sc)
  /\ (0 <= GameBoard.turnTimeLeft s <= GameBoard.TURN_TIME_LIMIT)%Z
  /\ GameBoard.isTimerRunning s = GameBoard.timerRef s
  /\ (GameBoard.gameMode props <> single ->
      GameBoard.gameResult s
      = winner (GameBoard.checkWinner (GameBoard.board s))
      /\ GameBoard.winningLine s
         = line (GameBoard.checkWinner (GameBoard.board s))
      /\ Forall (fun b => winner (GameBoard.checkWinner b) = None)
           (removelast (GameBoard.moveHistory s))
      /\ GameBoard.isAiThinking s = false
      /\ pending sc = []
      /\ GameBoard.localStorage s = ls).

End GameScreen.

(** ** The stats of the calibrator

    The counters of a stats object add up and its rate is a fraction. *)
Definition soundStats (s : AIPersonalityService.AIStats) : Prop :=
  (0 <= AIPersonalityService.aiWins s)%Z
  /\ (0 <= AIPersonalityService.playerWins s)%Z
  /\ (0 <= AIPersonalityService.draws s)%Z
  /\ AIPersonalityService.totalGames s
     = (AIPersonalityService.aiWins s + AIPersonalityService.playerWins s
        + AIPersonalityService.draws s)%Z
  /\ (0 <= AIPersonalityService.winRate s)%Q
  /\ (AIPersonalityService.winRate s <= 1)%Q.

(** The binary64 numbers of the literal [0.1] and of the three target
    win rates. *)
Definition tenth : spec_float := Eval vm_compute in Binary64.ofQ 0.1.

Definition targetNumber : Difficulty -> spec_float :=
  Eval vm_compute in
    fun d =>
      Binary64.ofQ
        (AIPersonalityService.targetWinRate
           (AIPersonalityService.personalities d)).

(** At the rate [w] of a difficulty with the target [t], the case that
    [shouldAITryToWin] decides by is the one that [getDifficultyInfo]
    reports. *)
Definition casesAgreeAt (w t : spec_float) : bool :=
  let decides :=
    if Binary64.ltb (Binary64.add t tenth) w
    then AIPersonalityService.above
    else if Binary64.ltb w (Binary64.sub t tenth)
    then AIPersonalityService.below
    else AIPersonalityService.on_target in
  let diff := Binary64.sub w t in
  let reports :=
    if Binary64.ltb diff (Binary64.opp tenth) then AIPersonalityService.below
    else if Binary64.ltb tenth diff then AIPersonalityService.above
    else AIPersonalityService.on_target in
  match decides, reports with
  | AIPersonalityService.below, AIPersonalityService.below
  | AIPersonalityService.on_target, AIPersonalityService.on_target
  | AIPersonalityService.above, AIPersonalityService.above => true
  | _, _ => false
  end.

(** The same for [aiWins] wins in [games] games at every difficulty, and
    for all counts of wins in up to [n] games. *)
Definition casesAgree (aiWins games : nat) : bool :=
  let w :=
    Binary64.ofQ (inject_Z (Z.of_nat aiWins) / inject_Z (Z.of_nat games)) in
  forallb (fun d => casesAgreeAt w (targetNumber d)) [easy; medium; hard].

Definition casesAgreeUpTo (n : nat) : bool :=
  forallb (fun games => forallb (fun aiWins => casesAgree aiWins games)
                          (seq 0 (S games)))
    (seq 1 n).

(** ** The sessions of the online service

    What holds of every state of the service besides [wellFormed]: no
    mark is assigned while no match is made; the board of a game is the
    last entry of its history and the stored result and winning line
    are those of the winner evaluation; the opponent's reply is pending
    only in a running game in which [O] is to move. *)
Definition sessionInvariant (s : OnlineGameService.Service) : Prop :=
  (OnlineGameService.matchmakingStatus s = OnlineGameService.idle
   \/ OnlineGameService.matchmakingStatus s = OnlineGameService.searching ->
   OnlineGameService.playerSymbol s = None)
  /\ match OnlineGameService.gameState s with
     | None =>
         OnlineGameService.opponentMoveTimeout s
         <> OnlineGameService.Scheduled
     | Some g =>
         length (OnlineGameService.board g) = 9
         /\ last (OnlineGameService.moveHistory g)
            = Some (OnlineGameService.board g)
         /\ OnlineGameService.gameResult g
            = winner (OnlineGameService.checkWinner
                        (OnlineGameService.board g))
         /\ OnlineGameService.winningLine g
            = line (OnlineGameService.checkWinner
                      (OnlineGameService.board g))
         /\ (OnlineGameService.opponentMoveTimeout s
             = OnlineGameService.Scheduled ->
             OnlineGameService.playerSymbol s <> None
             /\ OnlineGameService.currentPlayer g = O
             /\ OnlineGameService.gameResult g = None)
     end.

(** ** Scores of a search with a window

    The score [r] that a search with the window [(alpha, beta)] returns
    for a position of value [v]: inside the window it is the value; at
    or below [alpha] it is an upper bound of the value, at or above
    [beta] a lower bound. *)
Definition boundsValue (alpha beta v r : Num) : Prop :=
  (Num_leb r alpha = true -> Num_leb v r = true)
  /\ (Num_leb beta r = true -> Num_leb r v = true)
  /\ (Num_ltb alpha r = true -> Num_ltb r beta = true -> v = r).

(** ** The coin ledger ([CoinService.tsx])

    The statistics object of the service and the methods that change it.
    [Date.now()] is the argument [now] of the methods that stamp a
    reward.  The listeners and the copy of the statistics that every
    change writes to [localStorage] are left out. *)
Module CoinService.

(** [type GameResult = 'win' | 'loss' | 'draw'] *)
Inductive GameResult : Set := win | loss | draw.

Record CoinReward : Type := mkCoinReward {
  amount : Z;
  reason : string;
  timestamp : Z
}.

Record CoinStats : Type := mkCoinStats {
  totalCoins : Z;
  totalGames : Z;
  totalWins : Z;
  totalLosses : Z;
  totalDraws : Z;
  singlePlayerWins : Z;
  twoPlayerWins : Z;
  onlineWins : Z;
  easyWins : Z;
  mediumWins : Z;
  hardWins : Z;
  recentRewards : list CoinReward
}.

Definition MAX_RECENT_REWARDS : nat := 10.

(** The statistics of a new service, and of [resetStats]. *)
Definition initial : CoinStats := mkCoinStats 0 0 0 0 0 0 0 0 0 0 0 [].

(** [getRewardAmount]; the difficulty is optional. *)
Definition getRewardAmount (gameMode : GameMode) (difficulty : option Difficulty)
    (isDraw : bool) : Z :=
  if isDraw then 1
  else
    match gameMode with
    | single =>
        match difficulty with
        | Some easy => 2
        | Some medium => 5
        | Some hard => 10
        | None => 3
        end
    | two_player => 3
    | online => 8
    end.

(** [this.stats.totalCoins += amount] *)
Definition addToCoins (amount : Z) (s : CoinStats) : CoinStats :=
  mkCoinStats (totalCoins s + amount) (totalGames s) (totalWins s)
    (totalLosses s) (totalDraws s) (singlePlayerWins s) (twoPlayerWins s)
    (onlineWins s) (easyWins s) (mediumWins s) (hardWins s) (recentRewards s).

(** [recentRewards.unshift(reward)], then the cut to the first
    [MAX_RECENT_REWARDS] entries when there are more. *)
Definition pushReward (reward : CoinReward) (s : CoinStats) : CoinStats :=
  let rewards := reward :: recentRewards s in
  let rewards :=
    if MAX_RECENT_REWARDS <? length rewards
    then take MAX_RECENT_REWARDS rewards
    else rewards in
  mkCoinStats (totalCoins s) (totalGames s) (totalWins s) (totalLosses s)
    (totalDraws s) (singlePlayerWins s) (twoPlayerWins s) (onlineWins s)
    (easyWins s) (mediumWins s) (hardWins s) rewards.

(** [awardCoins] *)
Definition awardCoins (now : Z) (gameMode : GameMode) (difficulty : Difficulty)
    (isWin isDraw : bool) (s : CoinStats) : CoinReward * CoinStats :=
  let amount := getRewardAmount gameMode (Some difficulty) isDraw in
  let reason :=
    if isDraw then "Draw bonus!"
    else if isWin then
      match gameMode with
      | single =>
          "Victory vs " +:+ AIPersonalityService.difficultyName difficulty
          +:+ " AI!"
      | two_player => "Local multiplayer win!"
      | online => "Online victory!"
      end
    else "Participation bonus!" in
  let reward := mkCoinReward amount reason now in
  (reward, pushReward reward (addToCoins amount s)).

(** The counters of [recordGame]: [totalGames++], then the counters of
    the result. *)
Definition countGame (gameMode : GameMode) (result : GameResult)
    (difficulty : Difficulty) (s : CoinStats) : CoinStats :=
  let games := (totalGames s + 1)%Z in
  match result with
  | win =>
      let wins := (totalWins s + 1)%Z in
      match gameMode with
      | single =>
          let singleWins := (singlePlayerWins s + 1)%Z in
          match difficulty with
          | easy =>
              mkCoinStats (totalCoins s) games wins (totalLosses s)
                (totalDraws s) singleWins (twoPlayerWins s) (onlineWins s)
                (easyWins s + 1) (mediumWins s) (hardWins s) (recentRewards s)
          | medium =>
              mkCoinStats (totalCoins s) games wins (totalLosses s)
                (totalDraws s) singleWins (twoPlayerWins s) (onlineWins s)
                (easyWins s) (mediumWins s + 1) (hardWins s) (recentRewards s)
          | hard =>
              mkCoinStats (totalCoins s) games wins (totalLosses s)
                (totalDraws s) singleWins (twoPlayerWins s) (onlineWins s)
                (easyWins s) (mediumWins s) (hardWins s + 1) (recentRewards s)
          end
      | two_player =>
          mkCoinStats (totalCoins s) games wins (totalLosses s) (totalDraws s)
            (singlePlayerWins s) (twoPlayerWins s + 1) (onlineWins s)
            (easyWins s) (mediumWins s) (hardWins s) (recentRewards s)
      | online =>
          mkCoinStats (totalCoins s) games wins (totalLosses s) (totalDraws s)
            (singlePlayerWins s) (twoPlayerWins s) (onlineWins s + 1)
            (easyWins s) (mediumWins s) (hardWins s) (recentRewards s)
      end
  | loss =>
      mkCoinStats (totalCoins s) games (totalWins s) (totalLosses s + 1)
        (totalDraws s) (singlePlayerWins s) (twoPlayerWins s) (onlineWins s)
        (easyWins s) (mediumWins s) (hardWins s) (recentRewards s)
  | draw =>
      mkCoinStats (totalCoins s) games (totalWins s) (totalLosses s)
        (totalDraws s + 1) (singlePlayerWins s) (twoPlayerWins s)
        (onlineWins s) (easyWins s) (mediumWins s) (hardWins s)
        (recentRewards s)
  end.

(** [recordGame]: the reward, or [null] for a loss. *)
Definition recordGame (now : Z) (gameMode : GameMode) (result : GameResult)
    (difficulty : Difficulty) (s : CoinStats) : option CoinReward * CoinStats :=
  let s := countGame gameMode result difficulty s in
  match result with
  | win =>
      let '(reward, s) := awardCoins now gameMode difficulty true false s in
      (Some reward, s)
  | draw =>
      let '(reward, s) := awardCoins now gameMode difficulty false true s in
      (Some reward, s)
  | loss => (None, s)
  end.

(** [addCoins] *)
Definition addCoins (now : Z) (amount : Z) (reason : string) (s : CoinStats)
  : CoinReward * CoinStats :=
  let reward := mkCoinReward amount reason now in
  (reward, pushReward reward (addToCoins amount s)).

(** [spendCoins] *)
Definition spendCoins (now : Z) (amount : Z) (reason : string) (s : CoinStats)
  : bool * CoinStats :=
  if (amount <=? totalCoins s)%Z then
    let s := addToCoins (- amount) s in
    let expense := mkCoinReward (- amount) ("Spent: " +:+ reason) now in
    (true, pushReward expense s)
  else (false, s).

(** [getCoins] *)
Definition getCoins (s : CoinStats) : Z := totalCoins s.

(** [resetStats] *)
Definition resetStats (s : CoinStats) : CoinStats := initial.

(** The statistics that the public methods produce from those of a new
    service. *)
Inductive reachable : CoinStats -> Prop :=
  | reach_initial : reachable initial
  | reach_recordGame now gameMode result difficulty s :
      reachable s ->
      reachable (snd (recordGame now gameMode result difficulty s))
  | reach_awardCoins now gameMode difficulty isWin isDraw s :
      reachable s ->
      reachable (snd (awardCoins now gameMode difficulty isWin isDraw s))
  | reach_addCoins now amount reason s :
      reachable s -> reachable (snd (addCoins now amount reason s))
  | reach_spendCoins now amount reason s :
      reachable s -> reachable (snd (spendCoins now amount reason s))
  | reach_resetStats s : reachable s -> reachable (resetStats s).

End CoinService.

(** ** The achievements ([AchievementService.tsx])

    The service class of the file.  An achievement keeps the fields the
    service computes with; its texts and the date it was unlocked are
    left out, and so are the listeners and the copies that the service
    writes to [localStorage].  The [achievementUnlocked] events that the
    service dispatches on [window] are collected in [dispatched], each
    with the id of the achievement and the coins of its [detail]; the
    handlers of the event are not part of the service and are not run
    here. *)
Module AchievementService.

Record Achievement : Type := mkAchievement {
  id : string;
  coinReward : Z;
  progress : Z;
  maxProgress : Z;
  unlocked : bool
}.

Record AchievementStats : Type := mkAchievementStats {
  totalWins : Z;
  totalGames : Z;
  winStreak : Z;
  bestWinStreak : Z;
  easyWins : Z;
  mediumWins : Z;
  hardWins : Z;
  coinsEarned : Z;
  avatarsUsed : list string;
  perfectGames : Z;
  themesSwitched : Z
}.

(** The fields of the service: the [Map] of the achievements in the
    order of insertion, the stats, and the events dispatched so far. *)
Record Service : Type := mkService {
  achievements : list Achievement;
  stats : AchievementStats;
  dispatched : list (string * Z)
}.

(** [achievementList]: id, [coinReward] and [maxProgress] of each entry. *)
Definition achievementList : list (string * Z * Z) :=
  [ ("first_win", 10, 1); ("win_streak", 25, 3); ("beat_easy", 20, 5);
    ("beat_medium", 30, 3); ("beat_hard", 50, 1); ("perfect_game", 35, 1);
    ("coin_collector", 25, 100); ("veteran_player", 40, 25);
    ("avatar_explorer", 30, 4); ("champion", 60, 20) ]%Z.

Definition defaultStats : AchievementStats :=
  mkAchievementStats 0 0 0 0 0 0 0 0 [] 0 0.

(** [this.achievements.get(id)] *)
Definition get (key : string) (l : list Achievement) : option Achievement :=
  List.find (fun a => String.eqb (id a) key) l.

(** The entry of the key of [a'] becomes [a']: the assignments to the
    fields of the object that [get] returned. *)
Fixpoint put (a' : Achievement) (l : list Achievement) : list Achievement :=
  match l with
  | [] => []
  | a :: rest =>
      if String.eqb (id a) (id a') then a' :: rest else a :: put a' rest
  end.

(** [updateAchievement] *)
Definition updateAchievement (key : string) (newProgress : Z) (sv : Service)
  : Service :=
  match get key (achievements sv) with
  | None => sv
  | Some achievement =>
      let progress' := Z.min newProgress (maxProgress achievement) in
      let unlocks :=
        negb (unlocked achievement)
        && (maxProgress achievement <=? progress')%Z in
      let achievement' :=
        mkAchievement (id achievement) (coinReward achievement) progress'
          (maxProgress achievement) (unlocked achievement || unlocks) in
      let dispatched' :=
        if unlocks && (0 <? coinReward achievement)%Z
        then dispatched sv ++ [(id achievement, coinReward achievement)]
        else dispatched sv in
      mkService (put achievement' (achievements sv)) (stats sv) dispatched'
  end.

(** The progress that [updateAchievementProgress] reads off the stats
    for each achievement, in the order of its calls. *)
Definition progressOf (st : AchievementStats) : list (string * Z) :=
  [ ("first_win", Z.min (totalWins st) 1);
    ("win_streak", Z.min (bestWinStreak st) 3);
    ("beat_easy", easyWins st);
    ("beat_medium", mediumWins st);
    ("beat_hard", hardWins st);
    ("perfect_game", perfectGames st);
    ("coin_collector", coinsEarned st);
    ("veteran_player", totalGames st);
    ("avatar_explorer", Z.of_nat (length (avatarsUsed st)));
    ("champion", totalWins st) ].

(** [updateAchievementProgress] *)
Definition updateAchievementProgress (sv : Service) : Service :=
  foldl (fun sv '(key, newProgress) => updateAchievement key newProgress sv)
    sv (progressOf (stats sv)).

Definition set_stats (st : AchievementStats) (sv : Service) : Service :=
  mkService (achievements sv) st (dispatched sv).

(** The service as its constructor leaves it when nothing is saved. *)
Definition initial : Service :=
  updateAchievementProgress
    (mkService
       (map (fun '(key, reward, goal) => mkAchievement key reward 0 goal false)
          achievementList)
       defaultStats []).

(** [recordGameStart] *)
Definition recordGameStart (gameMode : GameMode) (firstMove avatar : string)
    (sv : Service) : Service :=
  let st := stats sv in
  let avatars :=
    if existsb (String.eqb avatar) (avatarsUsed st)
    then avatarsUsed st
    else avatarsUsed st ++ [avatar] in
  let st :=
    mkAchievementStats (totalWins st) (totalGames st + 1) (winStreak st)
      (bestWinStreak st) (easyWins st) (mediumWins st) (hardWins st)
      (coinsEarned st) avatars (perfectGames st) (themesSwitched st) in
  updateAchievementProgress (set_stats st sv).

(** [recordGameEnd]; [difficulty] and [moveCount] are optional. *)
Definition recordGameEnd (result : CoinService.GameResult)
    (gameMode : GameMode) (difficulty : option Difficulty)
    (moveCount : option Z) (sv : Service) : Service :=
  let st := stats sv in
  let st :=
    match result with
    | CoinService.win =>
        let streak := (winStreak st + 1)%Z in
        let against (d : Difficulty) : bool :=
          bool_decide (gameMode = single) && bool_decide (difficulty = Some d) in
        let perfect :=
          match moveCount with
          | Some n => negb (n =? 0)%Z && (n <=? 5)%Z
          | None => false
          end in
        mkAchievementStats (totalWins st + 1) (totalGames st) streak
          (Z.max (bestWinStreak st) streak)
          (if against easy then easyWins st + 1 else easyWins st)
          (if against medium then mediumWins st + 1 else mediumWins st)
          (if against hard then hardWins st + 1 else hardWins st)
          (coinsEarned st) (avatarsUsed st)
          (if perfect then perfectGames st + 1 else perfectGames st)
          (themesSwitched st)
    | _ =>
        mkAchievementStats (totalWins st) (totalGames st) 0
          (bestWinStreak st) (easyWins st) (mediumWins st) (hardWins st)
          (coinsEarned st) (avatarsUsed st) (perfectGames st)
          (themesSwitched st)
    end in
  updateAchievementProgress (set_stats st sv).

(** [recordCoinEarned] *)
Definition recordCoinEarned (totalCoins : Z) (sv : Service) : Service :=
  let st := stats sv in
  let st :=
    mkAchievementStats (totalWins st) (totalGames st) (winStreak st)
      (bestWinStreak st) (easyWins st) (mediumWins st) (hardWins st)
      totalCoins (avatarsUsed st) (perfectGames st) (themesSwitched st) in
  updateAchievementProgress (set_stats st sv).

(** [recordThemeSwitch] *)
Definition recordThemeSwitch (sv : Service) : Service :=
  let st := stats sv in
  let st :=
    mkAchievementStats (totalWins st) (totalGames st) (winStreak st)
      (bestWinStreak st) (easyWins st) (mediumWins st) (hardWins st)
      (coinsEarned st) (avatarsUsed st) (perfectGames st)
      (themesSwitched st + 1) in
  updateAchievementProgress (set_stats st sv).

(** [resetAllAchievements] *)
Definition resetAllAchievements (sv : Service) : Service :=
  mkService
    (map (fun a => mkAchievement (id a) (coinReward a) 0 (maxProgress a) false)
       (achievements sv))
    (stats sv) (dispatched sv).

(** [resetStats] *)
Definition resetStats (sv : Service) : Service :=
  updateAchievementProgress (set_stats defaultStats sv).

(** [getAllAchievements]: the stable sort that puts the unlocked
    achievements first. *)
Definition getAllAchievements (sv : Service) : list Achievement :=
  filter (fun a => unlocked a = true) (achievements sv)
  ++ filter (fun a => unlocked a <> true) (achievements sv).

(** [Math.round] of a rational: the nearest integer, halves upwards. *)
Definition round (x : Q) : Z := Qfloor (x + (1 # 2)).

Record Progress : Type := mkProgress {
  total : nat;
  unlockedCount : nat;
  percentage : Z
}.

(** [getProgress] *)
Definition getProgress (sv : Service) : Progress :=
  let all := getAllAchievements sv in
  let total := length all in
  let unlockedCount := length (filter (fun a => unlocked a = true) all) in
  mkProgress total unlockedCount
    (if 0 <? total
     then round (inject_Z (Z.of_nat unlockedCount)
                 / inject_Z (Z.of_nat total) * 100)
     else 0%Z).

(** The calls that record what the player did. *)
Inductive records : Service -> Service -> Prop :=
  | records_gameStart gameMode firstMove avatar sv :
      records sv (recordGameStart gameMode firstMove avatar sv)
  | records_gameEnd result gameMode difficulty moveCount sv :
      records sv (recordGameEnd result gameMode difficulty moveCount sv)
  | records_coinEarned totalCoins sv :
      records sv (recordCoinEarned totalCoins sv)
  | records_themeSwitch sv : records sv (recordThemeSwitch sv)
  | records_resetStats sv : records sv (resetStats sv).

(** The states of the service: what the public methods produce from the
    state the constructor leaves. *)
Inductive reachable : Service -> Prop :=
  | reach_initial : reachable initial
  | reach_records sv sv' : reachable sv -> records sv sv' -> reachable sv'
  | reach_resetAllAchievements sv :
      reachable sv -> reachable (resetAllAchievements sv).

End AchievementService.

(** ** The end of a game on the game screen

    What [handleCellClick] and the callback of [triggerAiMove] tell the
    coin service when the winner evaluation reports [winner]. *)
Module GameEnd.

Section Report.

Variable props : GameBoard.Props.

(** [(gameMode === 'single' && winner === humanSymbol) ||
     (gameMode !== 'single' && winner === 'X')] *)
Definition playerWon (winner : Winner) : bool :=
  (GameBoard.isSingle props
   && winner_is (Some winner) (GameBoard.humanSymbol props))
  || (negb (GameBoard.isSingle props) && winner_is (Some winner) X).

(** [winner === 'draw' ? 'draw' : (playerWon ? 'win' : 'loss')] *)
Definition result (winner : Winner) : CoinService.GameResult :=
  if winner_is_draw (Some winner) then CoinService.draw
  else if playerWon winner then CoinService.win
  else CoinService.loss.

(** [coinService.recordGame(gameMode, result, difficulty)] *)
Definition recordCoins (now : Z) (winner : Winner) (s : CoinService.CoinStats)
  : option CoinService.CoinReward * CoinService.CoinStats :=
  CoinService.recordGame now (GameBoard.gameMode props) (result winner)
    (GameBoard.difficulty props) s.

End Report.

End GameEnd.

(** * Properties *)

(** ** The rules engine *)

Section Rules.

Implicit Types (board : Board) (l L : list nat) (m : Mark).

Lemma Mark_eqb_eq a b : Mark_eqb a b = true <-> a = b.
Proof. destruct a, b; simpl; split; congruence. Qed.

Lemma Mark_eqb_refl a : Mark_eqb a a = true.
Proof. by destruct a. Qed.

Lemma Mark_eqb_neq a b : Mark_eqb a b = false <-> a <> b.
Proof. destruct a, b; simpl; split; congruence. Qed.

Lemma lineWins_held board a b c :
  lineWins board [a; b; c] = true <-> exists m, lineHeldBy board m [a; b; c].
Proof.
  unfold lineWins, lineHeldBy. split.
  - intros H. apply andb_prop in H as [H Hc]. apply andb_prop in H as [Ha Hb].
    destruct (board !! a) as [[ma|]|] eqn:Ea; try discriminate.
    exists ma.
    destruct (board !! b) as [[mb|]|] eqn:Eb; try discriminate.
    destruct (board !! c) as [[mc|]|] eqn:Ec; try discriminate.
    simpl in Hb, Hc. apply Mark_eqb_eq in Hb, Hc. subst.
    by repeat constructor.
  - intros (m & H).
    apply Forall_cons in H as [-> H].
    apply Forall_cons in H as [-> H].
    apply Forall_cons in H as [-> _].
    simpl. by rewrite Mark_eqb_refl.
Qed.

Lemma lineMark_held board m a b c :
  lineHeldBy board m [a; b; c] -> lineMark board [a; b; c] = Some (WMark m).
Proof.
  intros H. apply Forall_cons in H as [Ha _]. simpl. by rewrite Ha.
Qed.

Lemma lineHeldBy_functional board m m' l :
  l <> [] -> lineHeldBy board m l -> lineHeldBy board m' l -> m = m'.
Proof.
  destruct l as [|a l]; [done|]. intros _ H H'.
  apply Forall_cons in H as [H _]. apply Forall_cons in H' as [H' _].
  congruence.
Qed.

(** Every entry of [lines] is a triple. *)
Lemma lines_triples L :
  L ∈ lines -> exists a b c, L = [a; b; c].
Proof.
  unfold lines. intros H.
  repeat (apply elem_of_cons in H as [->|H]; [by eauto|]).
  by apply elem_of_nil in H.
Qed.

Lemma lineWins_lines board L :
  L ∈ lines -> lineWins board L = true <-> exists m, lineHeldBy board m L.
Proof.
  intros (a & b & c & ->)%lines_triples. apply lineWins_held.
Qed.

Lemma lineWins_false_lines board L :
  L ∈ lines -> lineWins board L = false <-> forall m, ~ lineHeldBy board m L.
Proof.
  intros HL. split.
  - intros Hf m Hm.
    assert (lineWins board L = true) by (apply lineWins_lines; eauto).
    congruence.
  - intros Hn. destruct (lineWins board L) eqn:E; [|done].
    apply lineWins_lines in E as [m Hm]; [|done]. by destruct (Hn m).
Qed.

(** The scan returns the first entry that passes the test. *)
Lemma scan_Some board ls r :
  GameBoard.scan board ls = Some r <->
  exists before L after,
    ls = before ++ L :: after
    /\ Forall (fun l => lineWins board l = false) before
    /\ lineWins board L = true
    /\ r = mkWinnerInfo (lineMark board L) (Some L).
Proof.
  revert r. induction ls as [|l ls IH]; intros r; simpl.
  - split; [done|]. intros (before & L & after & H & _).
    by destruct before.
  - destruct (lineWins board l) eqn:El.
    + split.
      * intros [= <-]. exists [], l, ls. by repeat split.
      * intros (before & L & after & H & Hb & HL & ->).
        destruct before as [|l' before]; simpl in H.
        -- by injection H as -> ->.
        -- injection H as -> ->. apply Forall_cons in Hb as [Hb _]. congruence.
    + rewrite IH. split.
      * intros (before & L & after & -> & Hb & HL & ->).
        exists (l :: before), L, after. repeat split; try done.
        by constructor.
      * intros (before & L & after & H & Hb & HL & ->).
        destruct before as [|l' before]; simpl in H.
        -- injection H as -> ->. congruence.
        -- injection H as -> ->. apply Forall_cons in Hb as [_ Hb].
           by exists before, L, after.
Qed.

Lemma scan_None board ls :
  GameBoard.scan board ls = None <->
  Forall (fun l => lineWins board l = false) ls.
Proof.
  induction ls as [|l ls IH]; simpl.
  - split; [constructor|done].
  - destruct (lineWins board l) eqn:El.
    + split; [done|]. intros [H _]%Forall_cons. congruence.
    + rewrite IH. split; [by constructor|]. by intros [_ H]%Forall_cons.
Qed.

Lemma everyNotNull_full board :
  length board = 9 -> everyNotNull board = true <-> fullBoard board.
Proof.
  intros Hlen. unfold everyNotNull, fullBoard. rewrite forallb_forall. split.
  - intros H i Hi.
    destruct (board !! i) as [c|] eqn:E.
    + destruct c as [m|]; [by eauto|].
      apply list_elem_of_lookup_2, list_elem_of_In, H in E. discriminate.
    + apply lookup_ge_None in E. lia.
  - intros H c Hc. apply list_elem_of_In, list_elem_of_lookup in Hc as [i Hi].
    assert (i < 9) as Hlt by (apply lookup_lt_Some in Hi; lia).
    destruct (H i Hlt) as [m Hm]. rewrite Hi in Hm. by injection Hm as ->.
Qed.

Lemma scan_None_noLine board :
  GameBoard.scan board lines = None <-> noLine board.
Proof.
  rewrite scan_None, Forall_forall. unfold noLine. split.
  - intros H L m HL. by apply lineWins_false_lines; auto.
  - intros H L HL. apply lineWins_false_lines; [done|]. intros m. by apply H.
Qed.

Lemma scan_Some_firstLine board r :
  GameBoard.scan board lines = Some r <->
  exists m L, firstLine board m L /\ r = Win m L.
Proof.
  rewrite scan_Some. split.
  - intros (before & L & after & Hl & Hb & HL & ->).
    assert (L ∈ lines) as Hin
      by (rewrite Hl; apply elem_of_app; right; apply elem_of_cons; by left).
    apply lineWins_lines in HL as [m Hm]; [|done].
    exists m, L. split.
    + exists before, after. repeat split; try done.
      intros L' m' HL'. rewrite Forall_forall in Hb.
      assert (L' ∈ lines) as Hin' by (rewrite Hl; apply elem_of_app; by left).
      by apply lineWins_false_lines; auto.
    + destruct (lines_triples _ Hin) as (a & b & c & ->).
      unfold Win. by rewrite (lineMark_held _ m).
  - intros (m & L & (before & after & Hl & Hm & Hb) & ->).
    assert (L ∈ lines) as Hin
      by (rewrite Hl; apply elem_of_app; right; apply elem_of_cons; by left).
    exists before, L, after. repeat split; try done.
    + apply Forall_forall. intros L' HL'.
      assert (L' ∈ lines) as Hin' by (rewrite Hl; apply elem_of_app; by left).
      apply lineWins_false_lines; [done|]. intros m'. by apply Hb.
    + apply lineWins_lines; eauto.
    + destruct (lines_triples _ Hin) as (a & b & c & ->).
      by rewrite (lineMark_held _ m).
Qed.

(** The characterisation of [GameBoard.checkWinner]. *)
Lemma GameBoard_checkWinner_char board :
  length board = 9 -> evaluatesAsSpecified GameBoard.checkWinner board.
Proof.
  intros Hlen. unfold evaluatesAsSpecified, GameBoard.checkWinner.
  destruct (GameBoard.scan board lines) as [r|] eqn:Es.
  - pose proof Es as (m & L & HmL & ->)%scan_Some_firstLine.
    assert (~ noLine board) as Hno.
    { intros Hn%scan_None_noLine. congruence. }
    repeat split; try done; try (intros [? _]; done).
    + intros [= -> ->]. done.
    + intros H'. assert (Some (Win m L) = Some (Win m0 L0)) as [= -> ->]; [|done].
      rewrite <- Es. apply scan_Some_firstLine. eauto.
  - pose proof Es as Hno%scan_None_noLine.
    assert (forall m L, ~ firstLine board m L) as Hnf.
    { intros m L Hf.
      assert (GameBoard.scan board lines = Some (Win m L)).
      { apply scan_Some_firstLine. eauto. }
      congruence. }
    destruct (everyNotNull board) eqn:Ee.
    + pose proof Ee as Hfull%everyNotNull_full; [|done].
      repeat split; try done.
      * intros H; by apply Hnf in H.
      * by intros [_ ?].
    + assert (~ fullBoard board) as Hnfull.
      { intros H%everyNotNull_full; [congruence|done]. }
      repeat split; try done.
      * intros H; by apply Hnf in H.
      * by intros [_ ?].
Qed.

(** The four functions are the same function. *)
Lemma AIService_checkWinner_eq board :
  AIService.checkWinner board = GameBoard.checkWinner board.
Proof. reflexivity. Qed.

Lemma EnhancedGameBoard_checkWinner_eq board :
  EnhancedGameBoard.checkWinner board = GameBoard.checkWinner board.
Proof. reflexivity. Qed.

Lemma OnlineGameService_checkWinner_eq board :
  OnlineGameService.checkWinner board = GameBoard.checkWinner board.
Proof. reflexivity. Qed.

End Rules.

(** C1.  On every board of nine cells, the winner evaluation (of the game
    screen and of the online service) returns [Win m L] exactly when [L]
    is the first of the eight lines, in the order rows, columns,
    diagonals, whose three cells all hold the mark [m]; [Draw] exactly
    when no line is held and all nine cells are marked; [InProgress]
    exactly when no line is held and some cell is empty.  The board
    [X,X,X,_,_,_,_,_,_] evaluates to [Win X [0;1;2]] and the full board
    [X,O,X,O,X,O,O,X,O] to [Draw]. *)
Theorem checkWinner_evaluates (board : Board) :
  length board = 9 ->
  evaluatesAsSpecified GameBoard.checkWinner board
  /\ evaluatesAsSpecified OnlineGameService.checkWinner board
  /\ lines = [ [0; 1; 2]; [3; 4; 5]; [6; 7; 8];
               [0; 3; 6]; [1; 4; 7]; [2; 5; 8];
               [0; 4; 8]; [2; 4; 6] ]
  /\ OnlineGameService.checkWinner
       [Some X; Some X; Some X; None; None; None; None; None; None]
     = Win X [0; 1; 2]
  /\ OnlineGameService.checkWinner
       [Some X; Some O; Some X; Some O; Some X; Some O; Some O; Some X; Some O]
     = Draw.
Proof.
  intros Hlen.
  split; [by apply GameBoard_checkWinner_char|].
  split; [exact (GameBoard_checkWinner_char board Hlen)|].
  by repeat split.
Qed.

Lemma checkWinner_evaluates_witness :
  length [Some O; Some O; Some O; Some X; Some X; Some X; None; None; None] = 9
  /\ GameBoard.checkWinner
       [Some O; Some O; Some O; Some X; Some X; Some X; None; None; None]
     = Win O [0; 1; 2].
Proof.
  split; [reflexivity|].
  apply (checkWinner_evaluates
           [Some O; Some O; Some O; Some X; Some X; Some X; None; None; None]
           eq_refl).
  exists [], [[3; 4; 5]; [6; 7; 8]; [0; 3; 6]; [1; 4; 7]; [2; 5; 8];
              [0; 4; 8]; [2; 4; 6]].
  split; [reflexivity|]. split.
  - repeat constructor.
  - intros L' m' H. by apply elem_of_nil in H.
Defined.

(** C10.  The four copies of the winner evaluation, in [AIService], in
    the components [EnhancedGameBoard] and [GameBoard] and in
    [OnlineGameService], return the same winner and the same line on
    every board. *)
Theorem checkWinner_copies_agree (board : Board) :
  AIService.checkWinner board = EnhancedGameBoard.checkWinner board
  /\ EnhancedGameBoard.checkWinner board = GameBoard.checkWinner board
  /\ GameBoard.checkWinner board = OnlineGameService.checkWinner board
  /\ winner (AIService.checkWinner board)
     = winner (OnlineGameService.checkWinner board)
  /\ line (AIService.checkWinner board)
     = line (OnlineGameService.checkWinner board).
Proof.
  pose proof (AIService_checkWinner_eq board) as Ha.
  pose proof (EnhancedGameBoard_checkWinner_eq board) as He.
  pose proof (OnlineGameService_checkWinner_eq board) as Ho.
  repeat split; congruence.
Qed.

(** ** The difficulty calibrator *)

Section Calibrator.

Import AIPersonalityService.

Lemma Qltb_lt x y : Qltb x y = true <-> (x < y)%Q.
Proof.
  unfold Qltb. rewrite negb_true_iff. split.
  - intros H. apply Qnot_le_lt. intros Hle%Qle_bool_iff. congruence.
  - intros H. destruct (Qle_bool y x) eqn:E; [|done].
    apply Qle_bool_iff in E. by apply Qlt_not_le in H.
Qed.

Lemma Qltb_nlt x y : Qltb x y = false <-> ~ (x < y)%Q.
Proof.
  rewrite <- Qltb_lt. destruct (Qltb x y); split; congruence.
Qed.

Lemma recorded_consistent ls :
  recorded ls -> forall k it, ls !! k = Some it -> consistentItem it.
Proof.
  induction 1 as [|d w ls Hrec IH|d ls Hrec IH]; intros k it Hk.
  - by rewrite lookup_empty in Hk.
  - unfold recordGameResult in Hk.
    destruct (decide (key d = k)) as [<-|Hne].
    + assert (0 <= totalGames (getStats d ls))%Z as Hnonneg.
      { unfold getStats. destruct (ls !! key d) as [[s|]|] eqn:E; simpl; try lia.
        apply IH in E. simpl in E. lia. }
      destruct w as [m|]; [destruct (Mark_eqb m O)|];
        rewrite lookup_insert_eq in Hk; injection Hk as <-; simpl;
        (split; [lia|]);
        unfold realizedWinRate; simpl;
        (destruct (0 <? totalGames (getStats d ls) + 1)%Z eqn:Ez;
         [reflexivity|apply Z.ltb_ge in Ez; lia]).
    + destruct w as [m|]; [destruct (Mark_eqb m O)|];
        rewrite lookup_insert_ne in Hk by done; eauto.
  - destruct d as [d|]; simpl in Hk.
    + apply lookup_delete_Some in Hk as [_ Hk]. eauto.
    + apply lookup_delete_Some in Hk as [_ Hk].
      apply lookup_delete_Some in Hk as [_ Hk].
      apply lookup_delete_Some in Hk as [_ Hk]. eauto.
Qed.

(** In such a store the stored rate of a tier with games on record is
    [aiWins / totalGames]. *)
Lemma recorded_winRate ls d :
  recorded ls ->
  (0 < totalGames (getStats d ls))%Z ->
  winRate (getStats d ls) = realizedWinRate (getStats d ls).
Proof.
  intros Hrec Hpos. unfold getStats in *.
  destruct (ls !! key d) as [[s|]|] eqn:E; simpl in *; try lia.
  by apply (recorded_consistent _ Hrec) in E as [_ ?].
Qed.

(** What [recordGameResult] stores, field by field. *)
Lemma recordGameResult_stats d w ls :
  let old := getStats d ls in
  let new := getStats d (recordGameResult d w ls) in
  totalGames new = (totalGames old + 1)%Z
  /\ aiWins new =
       (if bool_decide (w = WMark O) then aiWins old + 1 else aiWins old)%Z
  /\ playerWins new =
       (if bool_decide (w = WMark X) then playerWins old + 1
        else playerWins old)%Z
  /\ draws new =
       (if bool_decide (w = WDraw) then draws old + 1 else draws old)%Z
  /\ ((0 <= totalGames old)%Z -> winRate new = realizedWinRate new)
  /\ recordGameResult d w ls !! key d = Some (Json new).
Proof.
  intros old new. subst new. unfold getStats at 1 2 3 4 5 6 7.
  unfold recordGameResult. fold old.
  destruct w as [[|]|]; simpl; rewrite !lookup_insert_eq; simpl;
    repeat split; try done;
    intros Hnn; unfold realizedWinRate; simpl;
    (destruct (0 <? totalGames old + 1)%Z eqn:Ez;
     [reflexivity|apply Z.ltb_ge in Ez; lia]).
Qed.

End Calibrator.

(** C8.  The calibrator at a realized win-rate that is exactly 0.1 below
    the target.  After ten games at the hard difficulty of which the AI
    won seven, the realized win-rate 7/10 is 0.8 - 0.1: it is not below
    the target by more than 0.1 (nor above it), and the decision should
    be [r < 0.8].  The code compares binary64 numbers: its [0.8 - 0.1]
    is the number after the one of [7 / 10], the test
    [currentWinRate < targetWinRate - 0.1] succeeds and the decision is
    [r < 0.9] for every draw [r]; with the draw 0.85 the AI tries to win
    where [r < 0.8] says it does not.  The same happens at the easy
    difficulty with three wins in ten games (0.4 - 0.1), and not at the
    medium difficulty with five wins in ten, where [0.6 - 0.1] is the
    number of [5 / 10]. *)
Theorem shouldAITryToWin_margin_rounded :
  let ls := storeAfter hard 7 3 in
  let stats := AIPersonalityService.getStats hard ls in
  AIPersonalityService.totalGames stats = 10%Z
  /\ AIPersonalityService.aiWins stats = 7%Z
  /\ AIPersonalityService.winRate stats = realizedWinRate stats
  /\ (realizedWinRate stats == 0.8 - 0.1)%Q
  /\ ~ (realizedWinRate stats < 0.8 - 0.1)%Q
  /\ ~ (0.8 + 0.1 < realizedWinRate stats)%Q
  /\ Binary64.ofQ (AIPersonalityService.winRate stats)
     = S754_finite false 6305039478318694 (-53)
  /\ Binary64.sub (Binary64.ofQ 0.8) (Binary64.ofQ 0.1)
     = S754_finite false 6305039478318695 (-53)
  /\ (forall g i,
        AIPersonalityService.shouldAITryToWin hard ls g i
        = (Qltb (g i) 0.9, S i))
  /\ fst (AIPersonalityService.shouldAITryToWin hard ls (fun _ => 0.85%Q) 0)
     = true
  /\ Qltb 0.85 0.8 = false
  /\ (forall g i,
        AIPersonalityService.shouldAITryToWin easy (storeAfter easy 3 7) g i
        = (Qltb (g i) 0.9, S i))
  /\ (forall g i,
        AIPersonalityService.shouldAITryToWin medium (storeAfter medium 5 5)
          g i
        = (Qltb (g i) 0.60, S i)).
Proof.
  cbv zeta.
  assert (AIPersonalityService.getStats hard (storeAfter hard 7 3)
          = AIPersonalityService.mkAIStats 10 7 3 0
              (inject_Z 7 / inject_Z 10)) as Hhard
    by (vm_compute; reflexivity).
  assert (AIPersonalityService.getStats easy (storeAfter easy 3 7)
          = AIPersonalityService.mkAIStats 10 3 7 0
              (inject_Z 3 / inject_Z 10)) as Heasy
    by (vm_compute; reflexivity).
  assert (AIPersonalityService.getStats medium (storeAfter medium 5 5)
          = AIPersonalityService.mkAIStats 10 5 5 0
              (inject_Z 5 / inject_Z 10)) as Hmedium
    by (vm_compute; reflexivity).
  unfold AIPersonalityService.shouldAITryToWin.
  rewrite Hhard, Heasy, Hmedium.
  split_and!; try (vm_compute; reflexivity).
  - intros H. by vm_compute in H.
  - intros H. by vm_compute in H.
Qed.

(** ** The turn controller *)

Section TurnFacts.

Import GameBoard.

Variable props : Props.

(** In a game against the AI the two players hold different marks. *)
Lemma aiSymbol_other : aiSymbol props = otherMark (humanSymbol props).
Proof.
  unfold aiSymbol, humanSymbol.
  by destruct (gameMode props), (playerGoesFirst props).
Qed.

Lemma isCurrentPlayerHuman_single s :
  isSingle props = true ->
  isCurrentPlayerHuman props s = true ->
  currentPlayer s = humanSymbol props.
Proof.
  unfold isCurrentPlayerHuman. intros ->. apply Mark_eqb_eq.
Qed.

(** [stopTimer] and [handleTimeUp] touch neither the board nor the
    history. *)
Lemma handleTimeUp_frame s :
  board (handleTimeUp props s) = board s
  /\ moveHistory (handleTimeUp props s) = moveHistory s
  /\ gameResult (handleTimeUp props s) = gameResult s
  /\ winningLine (handleTimeUp props s) = winningLine s
  /\ localStorage (handleTimeUp props s) = localStorage s
  /\ timerRef (handleTimeUp props s) = false
  /\ isTimerRunning (handleTimeUp props s) = false.
Proof.
  unfold handleTimeUp, stopTimer. simpl.
  destruct (isOverResult (gameResult s)); [done|].
  by destruct (isSingle props && Mark_eqb (currentPlayer s) (humanSymbol props)).
Qed.

(** The expiry of the timer on a human's turn of a running game hands
    the turn to the opponent. *)
Lemma handleTimeUp_switches s :
  gameResult s = None ->
  isCurrentPlayerHuman props s = true ->
  currentPlayer (handleTimeUp props s) = otherMark (currentPlayer s).
Proof.
  intros Hres Hhuman. unfold handleTimeUp, stopTimer. simpl. rewrite Hres. simpl.
  destruct (isSingle props) eqn:Es; simpl; [|done].
  apply isCurrentPlayerHuman_single in Hhuman; [|done].
  rewrite Hhuman, Mark_eqb_refl. simpl. apply aiSymbol_other.
Qed.

(** Once the interval is cleared its callback does not run. *)
Lemma timerTick_stopped s n :
  timerRef s = false -> Nat.iter n (timerTick props) s = s.
Proof.
  intros H. induction n as [|n IH]; simpl; [done|].
  rewrite IH. unfold timerTick. by rewrite H.
Qed.

Lemma pop_snoc {A : Type} (l : list A) (x : A) : pop (l ++ [x]) = l.
Proof. apply removelast_last. Qed.

(** Undo against the AI in a running game: the last two boards go, the
    board is the last one kept, and the player to move is [X] - the
    human exactly when the human moves first. *)
Lemma undoMove_single s h b1 b2 :
  gameMode props = single ->
  gameResult s = None ->
  isAiThinking s = false ->
  h <> [] ->
  moveHistory s = h ++ [b1; b2] ->
  moveHistory (undoMove props s) = h
  /\ last h = Some (board (undoMove props s))
  /\ currentPlayer (undoMove props s) = X
  /\ (currentPlayer (undoMove props s) = humanSymbol props
      <-> playerGoesFirst props = true).
Proof.
  intros Hmode Hres Hthink Hne Hh.
  assert (isSingle props = true) as Hs.
  { unfold isSingle. by rewrite Hmode. }
  assert (moveHistory (stopTimer s) = (h ++ [b1]) ++ [b2]) as Hh'.
  { simpl. by rewrite Hh, <- app_assoc. }
  unfold undoMove. rewrite Hres, Hthink, Hs, Hh.
  assert ((length (h ++ [b1; b2]) <=? 1) = false) as ->.
  { apply Nat.leb_gt. rewrite length_app. simpl. lia. }
  cbn [orb andb isOverResult]. rewrite Hh', pop_snoc.
  assert ((1 <? length (h ++ [b1])) = true) as ->.
  { apply Nat.ltb_lt. rewrite length_app. simpl.
    destruct h; [done|simpl; lia]. }
  rewrite pop_snoc.
  destruct (last h) as [b|] eqn:El.
  - simpl. unfold getStartingPlayer, humanSymbol. rewrite Hmode.
    repeat split; try done; by destruct (playerGoesFirst props).
  - apply last_None in El. done.
Qed.

End TurnFacts.

(** C6.  In every running game, when the timer of a human's turn is
    started and runs out with no move made, the turn passes to the
    opponent at the third firing of the interval and not before, the
    board, the history and the result are as they were, no mark is
    placed, and the cleared timer switches nothing again. *)
Theorem turn_timer_forfeits (props : GameBoard.Props) (s : GameBoard.State) :
  GameBoard.gameResult s = None ->
  GameBoard.isAiThinking s = false ->
  GameBoard.isCurrentPlayerHuman props s = true ->
  let tick := GameBoard.timerTick props in
  let started := GameBoard.startTimer props s in
  let expired := tick (tick (tick started)) in
  GameBoard.timerRef started = true
  /\ GameBoard.turnTimeLeft started = GameBoard.TURN_TIME_LIMIT
  /\ GameBoard.currentPlayer (tick started) = GameBoard.currentPlayer s
  /\ GameBoard.currentPlayer (tick (tick started)) = GameBoard.currentPlayer s
  /\ GameBoard.currentPlayer expired = otherMark (GameBoard.currentPlayer s)
  /\ (GameBoard.gameMode props = single ->
      GameBoard.currentPlayer expired = GameBoard.aiSymbol props)
  /\ GameBoard.board expired = GameBoard.board s
  /\ GameBoard.moveHistory expired = GameBoard.moveHistory s
  /\ GameBoard.gameResult expired = None
  /\ GameBoard.timerRef expired = false
  /\ forall n, Nat.iter n tick expired = expired.
Proof.
  intros Hres Hthink Hhuman tick started expired.
  assert (started =
          GameBoard.set_timerRef true
            (GameBoard.set_isTimerRunning true
               (GameBoard.set_turnTimeLeft GameBoard.TURN_TIME_LIMIT
                  (GameBoard.stopTimer s)))) as Hstarted.
  { unfold started, GameBoard.startTimer. by rewrite Hres, Hthink, Hhuman. }
  assert (expired =
          GameBoard.set_turnTimeLeft 0
            (GameBoard.handleTimeUp props
               (GameBoard.set_turnTimeLeft 1 started))) as Hexpired.
  { unfold expired, tick. rewrite Hstarted. reflexivity. }
  assert (GameBoard.currentPlayer expired
          = otherMark (GameBoard.currentPlayer s)) as Hswitch.
  { rewrite Hexpired. simpl.
    rewrite handleTimeUp_switches; [by rewrite Hstarted| |].
    - by rewrite Hstarted.
    - rewrite Hstarted. exact Hhuman. }
  assert (GameBoard.timerRef expired = false) as Hoff.
  { rewrite Hexpired. simpl. apply handleTimeUp_frame. }
  split; [by rewrite Hstarted|].
  split; [by rewrite Hstarted|].
  split; [by rewrite Hstarted|].
  split; [by rewrite Hstarted|].
  split; [done|].
  split.
  { intros Hmode. rewrite Hswitch, aiSymbol_other. f_equal.
    apply isCurrentPlayerHuman_single; [|done].
    unfold GameBoard.isSingle. by rewrite Hmode. }
  destruct (handleTimeUp_frame props (GameBoard.set_turnTimeLeft 1 started))
    as (Hb & Hh & Hr & _).
  split; [by rewrite Hexpired; simpl; rewrite Hb, Hstarted|].
  split; [by rewrite Hexpired; simpl; rewrite Hh, Hstarted|].
  split; [by rewrite Hexpired; simpl; rewrite Hr, Hstarted|].
  split; [done|].
  intros n. by apply timerTick_stopped.
Qed.

Lemma turn_timer_forfeits_witness :
  GameBoard.currentPlayer
    (GameBoard.timerTick (GameBoard.mkProps two_player easy true)
       (GameBoard.timerTick (GameBoard.mkProps two_player easy true)
          (GameBoard.timerTick (GameBoard.mkProps two_player easy true)
             (GameBoard.startTimer (GameBoard.mkProps two_player easy true)
                (GameBoard.initialState
                   (GameBoard.mkProps two_player easy true) ∅)))))
  = O.
Proof.
  destruct (turn_timer_forfeits (GameBoard.mkProps two_player easy true)
              (GameBoard.initialState (GameBoard.mkProps two_player easy true) ∅)
              eq_refl eq_refl eq_refl) as (_ & _ & _ & _ & Hswitch & _).
  exact Hswitch.
Defined.

(** C5.  Undo with the AI moving first.  The AI ([X]) opens in the
    centre, the human ([O]) takes cell 0, the AI replies on cell 8.
    Undo then removes these two plies, and sets the player to move to
    [X]: the turn is with the AI, not with the human, and the AI places
    a second mark in a row. *)
Theorem undo_with_ai_first_returns_turn_to_ai :
  let props := GameBoard.mkProps single hard false in
  let s1 := aiPlays props 4 (GameBoard.initialState props ∅) in
  let s2 := GameBoard.handleCellClick props 0 s1 in
  let s3 := aiPlays props 8 s2 in
  let undone := GameBoard.undoMove props s3 in
  GameBoard.humanSymbol props = O
  /\ GameBoard.aiSymbol props = X
  /\ GameBoard.gameResult s3 = None
  /\ GameBoard.isAiThinking s3 = false
  /\ GameBoard.currentPlayer s3 = O
  /\ GameBoard.moveHistory s3
     = [GameBoard.board (GameBoard.initialState props ∅);
        GameBoard.board s1; GameBoard.board s2; GameBoard.board s3]
  /\ GameBoard.moveHistory undone
     = [GameBoard.board (GameBoard.initialState props ∅); GameBoard.board s1]
  /\ GameBoard.board undone
     = [None; None; None; None; Some X; None; None; None; None]
  /\ GameBoard.currentPlayer undone = X
  /\ GameBoard.isCurrentPlayerHuman props undone = false
  /\ GameBoard.board (aiPlays props 0 undone)
     = [Some X; None; None; None; Some X; None; None; None; None].
Proof. vm_compute. by repeat split. Qed.

(** C9.  A game that the AI wins as [X].  With the AI moving first it
    plays [X]; it completes the top row, and [recordGameResult] is given
    the winner [X]: the game is counted for the human, the AI's wins
    stay at 0 and the stored win-rate is 0. *)
Theorem ai_win_as_X_recorded_as_human_win :
  let props := GameBoard.mkProps single easy false in
  let s1 := aiPlays props 0 (GameBoard.initialState props ∅) in
  let s2 := GameBoard.handleCellClick props 3 s1 in
  let s3 := aiPlays props 1 s2 in
  let s4 := GameBoard.handleCellClick props 4 s3 in
  let s5 := aiPlays props 2 s4 in
  let stats := AIPersonalityService.getStats easy (GameBoard.localStorage s5) in
  GameBoard.aiSymbol props = X
  /\ GameBoard.board s5
     = [Some X; Some X; Some X; Some O; Some O; None; None; None; None]
  /\ GameBoard.gameResult s5 = Some (WMark X)
  /\ GameBoard.localStorage s5
     = AIPersonalityService.recordGameResult easy (WMark X) ∅
  /\ AIPersonalityService.totalGames stats = 1%Z
  /\ AIPersonalityService.aiWins stats = 0%Z
  /\ AIPersonalityService.playerWins stats = 1%Z
  /\ AIPersonalityService.draws stats = 0%Z
  /\ (AIPersonalityService.winRate stats == 0)%Q.
Proof.
  cbv zeta. repeat split; try reflexivity.
Qed.

(** ** The session synchronizer *)

Section Online.

Import OnlineGameService.

Lemma clearOpponentMoveTimeout_frame s :
  gameState (clearOpponentMoveTimeout s) = gameState s
  /\ playerSymbol (clearOpponentMoveTimeout s) = playerSymbol s.
Proof. unfold clearOpponentMoveTimeout. by destruct (opponentMoveTimeout s). Qed.

Lemma clearMatchmakingTimeout_frame s :
  gameState (clearMatchmakingTimeout s) = gameState s
  /\ playerSymbol (clearMatchmakingTimeout s) = playerSymbol s.
Proof. unfold clearMatchmakingTimeout. by destruct (matchmakingTimeout s). Qed.

Lemma wellFormed_same s s' :
  gameState s' = gameState s -> playerSymbol s' = playerSymbol s ->
  wellFormed s -> wellFormed s'.
Proof. unfold wellFormed. by intros -> ->. Qed.

Lemma wellFormed_dropped s :
  gameState s = None -> playerSymbol s = None -> wellFormed s.
Proof. unfold wellFormed. intros -> ->. by split. Qed.

Lemma wellFormed_newGame s :
  gameState s = Some newGame -> playerSymbol s <> Some O -> wellFormed s.
Proof. unfold wellFormed. intros -> Hp. split; [done|]. by intros g [= <-]. Qed.

Lemma makeMove_wellFormed position s :
  wellFormed s -> wellFormed (snd (makeMove position s)).
Proof.
  intros Hwf. pose proof Hwf as [Hp Hb]. unfold makeMove.
  destruct (gameState s) as [g|] eqn:Eg; [|done].
  specialize (Hb g eq_refl).
  destruct (isOverResult (gameResult g)); [done|].
  destruct (not_null (board g !! position)); [done|].
  destruct (notPlayersTurn g s); [done|].
  destruct (clearOpponentMoveTimeout_frame s) as [_ Hps].
  simpl. destruct (winner _); service_fields; (split; [by rewrite Hps|]);
    intros g' [= <-]; simpl; by rewrite length_insert.
Qed.

Lemma executeOpponentMove_wellFormed s g i :
  wellFormed s -> wellFormed (fst (executeOpponentMove s g i)).
Proof.
  intros Hwf. pose proof Hwf as [Hp Hb]. unfold executeOpponentMove.
  destruct (gameState s) as [gs|] eqn:Eg; [|done].
  specialize (Hb gs eq_refl).
  destruct (isOverResult (gameResult gs)); [done|].
  destruct (negb (Mark_eqb (currentPlayer gs) O)); [done|].
  destruct (length (emptyCellsOf (board gs)) =? 0); [done|].
  unfold randomElement, randomIndex, random, mbind, mret, Rand_bind, Rand_ret.
  simpl.
  destruct (winner _); service_fields; (split; [done|]);
    intros g' [= <-]; simpl;
    destruct (pickAt _ _); simpl; by rewrite ?length_insert.
Qed.

(** Every state of the service is well formed. *)
Lemma reachable_wellFormed s : reachable s -> wellFormed s.
Proof.
  induction 1 as [|s _ IH|s _ IH|s _ IH|s g i _ IH|s g i _ IH|s _ IH|s _ IH
                  |s position _ IH|s g i _ IH|s _ IH|s _ IH].
  - by apply wellFormed_dropped.
  - by apply (wellFormed_same s).
  - unfold connectTimerFires. destruct (connectTimer s); [|done].
    by apply (wellFormed_same s).
  - by apply wellFormed_dropped.
  - unfold findMatch. repeat case_bool_decide; try done.
    unfold mbind, mret, Rand_bind, Rand_ret, random. simpl.
    eapply (wellFormed_same (clearMatchmakingTimeout
                               (setMatchmakingStatus searching s))); try done.
    destruct (clearMatchmakingTimeout_frame
                (setMatchmakingStatus searching s)) as [Hg Hp].
    eapply wellFormed_same; [exact Hg|exact Hp|]. by apply (wellFormed_same s).
  - unfold matchmakingTimerFires.
    destruct (matchmakingTimeout s); try done.
    case_bool_decide; [by apply (wellFormed_same s)|].
    unfold randomIndex, random, mbind, mret, Rand_bind, Rand_ret. simpl.
    by apply wellFormed_newGame.
  - unfold gameStartTimerFires. destruct (gameStartTimer s); [|done].
    case_bool_decide; by apply (wellFormed_same s).
  - by apply wellFormed_dropped.
  - by apply makeMove_wellFormed.
  - unfold opponentTimerFires. destruct (opponentMoveTimeout s); try done.
    apply executeOpponentMove_wellFormed. by apply (wellFormed_same s).
  - destruct IH as [Hp _]. apply wellFormed_newGame; [done|].
    unfold resetGame. service_fields.
    by destruct (clearOpponentMoveTimeout_frame s) as [_ ->].
  - by apply wellFormed_dropped.
Qed.

(** The four tests of [makeMove], read on a well-formed state and a
    cell of the board. *)
Lemma makeMove_rejects_iff position s :
  wellFormed s -> position < 9 ->
  illegalMove position s <-> fst (makeMove position s) = false.
Proof.
  intros [Hp Hb] Hpos. unfold illegalMove, makeMove.
  destruct (gameState s) as [g|] eqn:Eg; [|done].
  specialize (Hb g eq_refl).
  destruct (gameResult g) as [w|] eqn:Er; simpl.
  { split; [done|]. intros _. by left. }
  destruct (board g !! position) as [[m|]|] eqn:Ec; simpl.
  - split; [done|]. intros _. right. left. by exists m.
  - unfold notPlayersTurn.
    destruct (playerSymbol s) as [p|] eqn:Ep; simpl.
    + destruct (Mark_eqb (currentPlayer g) p) eqn:Em; simpl.
      * apply Mark_eqb_eq in Em. subst p.
        destruct (winner _); simpl; split; try done;
          intros [?|[[m ?]|?]]; done.
      * apply Mark_eqb_neq in Em. split; [done|]. intros _. right. right.
        congruence.
    + split; [done|]. intros _. by right; right.
  - apply lookup_ge_None in Ec. lia.
Qed.

Lemma makeMove_rejected_unchanged position s :
  fst (makeMove position s) = false -> snd (makeMove position s) = s.
Proof.
  unfold makeMove.
  destruct (gameState s) as [g|]; [|done].
  destruct (isOverResult (gameResult g)); [done|].
  destruct (not_null (board g !! position)); [done|].
  destruct (notPlayersTurn g s); [done|].
  simpl. by destruct (winner _).
Qed.

(** What an accepted move does. *)
Lemma makeMove_accepts position s :
  wellFormed s -> position < 9 ->
  fst (makeMove position s) = true ->
  exists g g' p,
    gameState s = Some g
    /\ gameState (snd (makeMove position s)) = Some g'
    /\ playerSymbol s = Some p
    /\ currentPlayer g = p
    /\ board g !! position = Some None
    /\ board g' !! position = Some (Some p)
    /\ (forall j, j <> position -> board g' !! j = board g !! j)
    /\ moveHistory g' = moveHistory g ++ [board g']
    /\ currentPlayer g' = otherMark p.
Proof.
  intros [Hp Hb] Hpos. unfold makeMove.
  destruct (gameState s) as [g|] eqn:Eg; [|done].
  specialize (Hb g eq_refl).
  destruct (isOverResult (gameResult g)); [done|].
  destruct (board g !! position) as [[m|]|] eqn:Ec; simpl; try done.
  unfold notPlayersTurn.
  destruct (clearOpponentMoveTimeout_frame s) as [_ Hps]. rewrite Hps.
  destruct (playerSymbol s) as [p|] eqn:Ep; simpl; [|done].
  destruct (Mark_eqb (currentPlayer g) p) eqn:Em; simpl; [|done].
  apply Mark_eqb_eq in Em.
  assert (p = X) as -> by (by destruct p).
  assert (position < length (board g)) as Hlt by lia.
  intros _.
  destruct (winner _); service_fields;
    eexists g, _, X;
    (split; [done|]); (split; [reflexivity|]); (split; [done|]);
    (split; [done|]); (split; [done|]); simpl;
    (split; [by apply list_lookup_insert_eq|]);
    (split; [intros j Hj; by apply list_lookup_insert_ne|]); done.
Qed.

End Online.

(** C7.  In every state of the online service and for every cell,
    [makeMove] returns [false] exactly when the move is illegal - there
    is no game state, or the game is over, or the cell is occupied, or
    it is not the caller's turn - and then the whole state of the service
    is as before; for a legal move it returns [true], the caller's mark
    is on the cell, the other cells are as before, the board is appended
    to the history, and the opponent is the player to move. *)
Theorem makeMove_validates (s : OnlineGameService.Service) (position : nat) :
  OnlineGameService.reachable s ->
  position < 9 ->
  let result := fst (OnlineGameService.makeMove position s) in
  let s' := snd (OnlineGameService.makeMove position s) in
  (OnlineGameService.illegalMove position s <-> result = false)
  /\ (OnlineGameService.illegalMove position s -> s' = s)
  /\ (~ OnlineGameService.illegalMove position s ->
      result = true
      /\ exists g g' p,
          OnlineGameService.gameState s = Some g
          /\ OnlineGameService.gameState s' = Some g'
          /\ OnlineGameService.playerSymbol s = Some p
          /\ OnlineGameService.currentPlayer g = p
          /\ OnlineGameService.board g !! position = Some None
          /\ OnlineGameService.board g' !! position = Some (Some p)
          /\ (forall j, j <> position ->
              OnlineGameService.board g' !! j = OnlineGameService.board g !! j)
          /\ OnlineGameService.moveHistory g'
             = OnlineGameService.moveHistory g ++ [OnlineGameService.board g']
          /\ OnlineGameService.currentPlayer g' = otherMark p).
Proof.
  intros Hreach Hpos result s'.
  pose proof (reachable_wellFormed s Hreach) as Hwf.
  pose proof (makeMove_rejects_iff position s Hwf Hpos) as Hiff.
  split; [exact Hiff|].
  split.
  { intros Hill. apply makeMove_rejected_unchanged. by apply Hiff. }
  intros Hlegal.
  assert (result = true) as Hres.
  { destruct result eqn:E; [done|]. destruct Hlegal. by apply Hiff. }
  split; [exact Hres|].
  by apply makeMove_accepts.
Qed.

Lemma makeMove_validates_witness :
  OnlineGameService.reachable sessionAtGameStart
  /\ fst (OnlineGameService.makeMove 4 sessionAtGameStart) = true.
Proof.
  assert (OnlineGameService.reachable sessionAtGameStart) as Hreach.
  { apply OnlineGameService.reach_resetGame,
      (OnlineGameService.reach_matchmakingTimer _ (fun _ => 0.5%Q) 1),
      (OnlineGameService.reach_findMatch _ (fun _ => 0.5%Q) 0),
      OnlineGameService.reach_connectTimer,
      OnlineGameService.reach_connect,
      OnlineGameService.reach_initial. }
  split; [exact Hreach|].
  destruct (makeMove_validates sessionAtGameStart 4 Hreach ltac:(lia))
    as (_ & _ & Hlegal).
  apply Hlegal. cbv.
  intros [H|[[m H]|H]]; congruence.
Defined.

(** ** The move policy: the opening move of the Hard tier *)

Section Opening.

Import GameBoard.

(** The deep search of the game screen on the empty board: all nine
    openings have the same value and the first one is kept. *)
Lemma getBestMove_emptyBoard human ai :
  human <> ai -> getBestMove human ai emptyBoard = Some (Cell 0).
Proof.
  intros Hne.
  destruct human, ai;
    [by destruct Hne|vm_compute; reflexivity..|by destruct Hne].
Qed.

Lemma symbols_differ props : humanSymbol props <> aiSymbol props.
Proof.
  unfold humanSymbol, aiSymbol.
  by destruct (gameMode props), (playerGoesFirst props).
Qed.

Lemma findWinningMove_emptyBoard player :
  findWinningMove emptyBoard player = None.
Proof. by destruct player. Qed.

Lemma AIService_findWinningMove_emptyBoard player :
  AIService.findWinningMove emptyBoard player = (MinusOne, emptyBoard).
Proof. by destruct player. Qed.

(** The deep search of [AIService] on the empty board. *)
Lemma minimaxWithPruning_emptyBoard :
  AIService.minimaxWithPruning (AIService.searchFuel emptyBoard) emptyBoard 9
    true NegInf PosInf
  = Some ((Cell 4, Fin 0), emptyBoard).
Proof. vm_compute. reflexivity. Qed.

End Opening.

(** C4, as the claim states it, fails on the game screen: with draws of
    0.5, which pass the blunder test and the test for a suboptimal move,
    the Hard tier opens on cell 0, not on the centre. *)
Lemma hard_opening_not_center :
  fst (GameBoard.getAiMove O X hard true emptyBoard (fun _ => 0.5%Q) 0)
  <> Some (Cell 4).
Proof. vm_compute. discriminate. Qed.

(** C4, amended.  On the empty board, when the draws select the deep
    search, the Hard tier of the game screen ([getAiMove]) returns cell
    0, the first of the equally valued openings, and the Hard tier of
    [AIService] ([getHardMove]) returns the centre, cell 4. *)
Theorem hard_opening_move (props : GameBoard.Props) (moveCount : nat)
    (g : Rng) (i : nat) :
  (~ (g i < 0.03)%Q -> ~ (g (S i) < 0.15)%Q ->
   GameBoard.getAiMove (GameBoard.humanSymbol props) (GameBoard.aiSymbol props)
     hard true emptyBoard g i
   = (Some (Cell 0), S (S i)))
  /\ ((g i < 0.9)%Q ->
      AIService.getHardMove emptyBoard moveCount g i
      = (Some (AIService.mkAIMove (Cell 4) 0.95 "Optimal move calculated",
               emptyBoard), S i)).
Proof.
  split.
  - intros Hblunder%Qltb_nlt Hsub%Qltb_nlt.
    unfold GameBoard.getAiMove.
    rewrite !findWinningMove_emptyBoard,
      (getBestMove_emptyBoard _ _ (symbols_differ props)).
    unfold mbind, mret, Rand_bind, Rand_ret, random,
      GameBoard.foundAndDraw, AIPersonalityService.getAIPersonality.
    simpl. rewrite Hblunder. simpl. by rewrite Hsub.
  - intros Hdeep%Qltb_lt.
    unfold AIService.getHardMove.
    rewrite !AIService_findWinningMove_emptyBoard.
    cbn [AIService.notMinusOne].
    rewrite minimaxWithPruning_emptyBoard.
    unfold mbind, mret, Rand_bind, Rand_ret, random. simpl.
    by rewrite Hdeep.
Qed.

Lemma hard_opening_move_witness :
  GameBoard.getAiMove O X hard true emptyBoard (fun _ => 0.5%Q) 0
  = (Some (Cell 0), 2)
  /\ AIService.getHardMove emptyBoard 0 (fun _ => 0.5%Q) 0
     = (Some (AIService.mkAIMove (Cell 4) 0.95 "Optimal move calculated",
              emptyBoard), 1).
Proof.
  destruct (hard_opening_move (GameBoard.mkProps single hard false) 0
              (fun _ => 0.5%Q) 0) as [Hscreen Hservice].
  split.
  - apply Hscreen; intros H; discriminate H.
  - apply Hservice. reflexivity.
Defined.

(** ** The move policy: taking a win *)

Section WinNow.

Implicit Types (board : Board) (m player : Mark) (c : nat).

Lemma lines_cells L i : L ∈ lines -> i ∈ L -> i < 9.
Proof.
  unfold lines. intros HL Hi.
  repeat (apply elem_of_cons in HL as [->|HL];
          [repeat (apply elem_of_cons in Hi as [->|Hi]; [lia|]);
           by apply elem_of_nil in Hi|]).
  by apply elem_of_nil in HL.
Qed.

Lemma lineHeldBy_insert_other board m m' c L :
  c ∉ L -> lineHeldBy (<[c := Some m]> board) m' L -> lineHeldBy board m' L.
Proof.
  unfold lineHeldBy. rewrite !Forall_forall. intros Hc H i Hi.
  rewrite <- (H i Hi). symmetry. apply list_lookup_insert_ne.
  by intros ->.
Qed.

Lemma lineHeldBy_insert_mark board m m' c L :
  board !! c = Some None -> c ∈ L ->
  lineHeldBy (<[c := Some m]> board) m' L -> m' = m.
Proof.
  unfold lineHeldBy. rewrite Forall_forall. intros Hc Hin H.
  specialize (H c Hin).
  rewrite list_lookup_insert_eq in H by (by eapply lookup_lt_Some).
  congruence.
Qed.

(** On a board without a line, the winner test after placing [m] on an
    empty cell succeeds exactly when the placement completes a line. *)
Lemma placing_wins board m c :
  noLine board -> board !! c = Some None ->
  GameBoard.isWinningMove board c m = true
  <-> exists L, L ∈ lines /\ lineHeldBy (<[c := Some m]> board) m L.
Proof.
  intros Hno Hc. unfold GameBoard.isWinningMove, GameBoard.checkWinner.
  destruct (GameBoard.scan (<[c := Some m]> board) lines) as [r|] eqn:Es.
  - apply scan_Some_firstLine in Es as (m' & L' & Hfirst & ->).
    destruct Hfirst as (before & after & Hl & Hheld & _).
    assert (L' ∈ lines) as HL'
      by (rewrite Hl; apply elem_of_app; right; apply elem_of_cons; by left).
    assert (m' = m) as ->.
    { destruct (decide (c ∈ L')) as [Hin|Hnin].
      - by eapply lineHeldBy_insert_mark.
      - destruct (Hno L' m' HL'). by eapply lineHeldBy_insert_other. }
    simpl. rewrite Mark_eqb_refl. split; [|done]. intros _. by exists L'.
  - apply scan_None_noLine in Es.
    assert (winner_is
              (winner
                 (if everyNotNull (<[c := Some m]> board)
                  then mkWinnerInfo (Some WDraw) None
                  else mkWinnerInfo None None)) m = false) as ->.
    { by destruct (everyNotNull _). }
    split; [done|]. intros (L & HL & Hheld). by destruct (Es L m HL).
Qed.

Lemma completesLine_cell board m c :
  noLine board -> completesLine board m c -> c < 9.
Proof.
  intros Hno (Hc & L & HL & Hheld).
  destruct (decide (c ∈ L)) as [Hin|Hnin].
  - by eapply lines_cells.
  - destruct (Hno L m HL). by eapply lineHeldBy_insert_other.
Qed.

Lemma is_null_Some_None (v : option (option Mark)) :
  is_null v = true <-> v = Some None.
Proof. by destruct v as [[?|]|]. Qed.

Lemma GameBoard_getEmptyCells_elem board c :
  c ∈ GameBoard.getEmptyCells board <-> c < 9 /\ board !! c = Some None.
Proof.
  unfold GameBoard.getEmptyCells.
  rewrite list_elem_of_filter, elem_of_seq, is_null_Some_None. split.
  - intros [? ?]. split; [lia|done].
  - intros [? ?]. split; [done|lia].
Qed.

Lemma AIService_getEmptyCells_elem board c :
  c ∈ AIService.getEmptyCells board <-> board !! c = Some None.
Proof.
  unfold AIService.getEmptyCells. rewrite list_elem_of_omap. split.
  - intros (x & Hx & Hid). simpl in Hid. subst x.
    apply elem_of_lookup_imap in Hx as (i & cell & Heq & Hi).
    destruct cell as [k|]; simpl in Heq; [done|].
    by injection Heq as ->.
  - intros Hc. exists (Some c). split; [|done].
    apply elem_of_lookup_imap. by exists c, None.
Qed.

(** The loop of the game screen's [findWinningMove] finds a winning
    cell when the list holds one. *)
Lemma GameBoard_findWinningMove_loop_finds board player cells c0 :
  c0 ∈ cells -> GameBoard.isWinningMove board c0 player = true ->
  exists c,
    GameBoard.findWinningMove_loop board player cells = Some c
    /\ c ∈ cells /\ GameBoard.isWinningMove board c player = true.
Proof.
  induction cells as [|cell rest IH]; intros Hin Hwin.
  - by apply elem_of_nil in Hin.
  - simpl. destruct (GameBoard.isWinningMove board cell player) eqn:E.
    + exists cell. repeat split; [|done]. apply elem_of_cons. by left.
    + apply elem_of_cons in Hin as [->|Hin]; [congruence|].
      destruct (IH Hin Hwin) as (c & Hc & Hcin & Hcw).
      exists c. repeat split; [done| |done]. apply elem_of_cons. by right.
Qed.

Lemma restore_cell board c (v : option Mark) :
  board !! c = Some None -> <[c := None]> (<[c := v]> board) = board.
Proof.
  intros Hc. rewrite list_insert_insert_eq. by apply list_insert_id.
Qed.

(** The loop of [AIService.findWinningMove] leaves the board as it found
    it and returns what the loop of the game screen returns. *)
Lemma AIService_findWinningMove_loop_pure player cells board :
  (forall c, c ∈ cells -> board !! c = Some None) ->
  AIService.findWinningMove_loop player cells board
  = (GameBoard.cellOf (GameBoard.findWinningMove_loop board player cells),
     board).
Proof.
  induction cells as [|cell rest IH]; intros Hcells; [done|].
  simpl. rewrite restore_cell by (apply Hcells, elem_of_cons; by left).
  change (winner_is
            (winner (AIService.checkWinner (<[cell := Some player]> board)))
            player)
    with (GameBoard.isWinningMove board cell player).
  destruct (GameBoard.isWinningMove board cell player); [done|].
  apply IH. intros c Hc. apply Hcells, elem_of_cons. by right.
Qed.

Lemma GameBoard_findWinningMove_complete board m c0 :
  noLine board -> completesLine board m c0 ->
  exists c, GameBoard.findWinningMove board m = Some c
            /\ completesLine board m c.
Proof.
  intros Hno Hc0. pose proof Hc0 as [Hempty Hline].
  destruct (GameBoard_findWinningMove_loop_finds board m
              (GameBoard.getEmptyCells board) c0) as (c & Hc & Hin & Hwin).
  - apply GameBoard_getEmptyCells_elem. split; [|done].
    by eapply completesLine_cell.
  - by apply placing_wins.
  - exists c. split; [done|].
    apply GameBoard_getEmptyCells_elem in Hin as [_ Hcempty].
    split; [done|]. by apply placing_wins.
Qed.

Lemma AIService_findWinningMove_complete board m c0 :
  noLine board -> completesLine board m c0 ->
  exists c, AIService.findWinningMove board m = (Cell c, board)
            /\ completesLine board m c.
Proof.
  intros Hno Hc0. pose proof Hc0 as [Hempty Hline].
  unfold AIService.findWinningMove.
  rewrite AIService_findWinningMove_loop_pure
    by (intros c; apply AIService_getEmptyCells_elem).
  destruct (GameBoard_findWinningMove_loop_finds board m
              (AIService.getEmptyCells board) c0) as (c & Hc & Hin & Hwin).
  - by apply AIService_getEmptyCells_elem.
  - by apply placing_wins.
  - exists c. rewrite Hc. split; [done|].
    apply AIService_getEmptyCells_elem in Hin.
    split; [done|]. by apply placing_wins.
Qed.

Lemma length_pos_elem {A : Type} (l : list A) (x : A) :
  x ∈ l -> (length l =? 0) = false.
Proof. destruct l; [by intros ?%elem_of_nil|done]. Qed.

End WinNow.



(** ** The move policy: the deep search of [AIService] *)

(** The score of a finished position is a function of the depth
    argument: [10 - depth] when [O] has won, [depth - 10] when [X] has
    won, [0] for a draw. *)
Lemma minimaxWithPruning_terminal (fuel : nat) (board : Board) (depth : Z)
    (isMaximizing : bool) (alpha beta : Num) (w : Winner) :
  winner (AIService.checkWinner board) = Some w ->
  AIService.minimaxWithPruning (S fuel) board depth isMaximizing alpha beta
  = Some ((MinusOne,
           match w with
           | WMark O => Fin (10 - depth)
           | WMark X => Fin (depth - 10)
           | WDraw => Fin 0
           end), board).
Proof.
  intros Hw. simpl. rewrite Hw. by destruct w as [[|]|].
Qed.

(** C3.  The deep search as [getHardMove] starts it, with the depth
    argument 9.  After a human opening on the corner (cell 0) it returns
    cell 1 with the score 3, the score of a win of the opponent four
    plies ahead, and [getHardMove] plays it as the optimal move.  With
    the depth counted from 9, a win of the AI three plies from the start
    scores -2, a draw 0 and a loss two plies from the start 1.  The
    search of the game screen, which counts the depth from 0, values
    cell 1 at -5 (a loss) and picks the centre. *)
Theorem hard_search_depth_starts_at_nine :
  AIService.getHardMove boardCornerOpening 1 (fun _ => 0.5%Q) 0
  = (Some (AIService.mkAIMove (Cell 1) 0.95 "Optimal move calculated",
           boardCornerOpening), 1)
  /\ AIService.minimaxWithPruning (AIService.searchFuel boardCornerOpening)
       boardCornerOpening 9 true NegInf PosInf
     = Some ((Cell 1, Fin 3), boardCornerOpening)
  /\ option_map fst
       (AIService.minimaxWithPruning 1
          [Some X; Some X; None; Some O; Some O; Some O; Some X; None; None]
          (9 + 3) false NegInf PosInf)
     = Some (MinusOne, Fin (-2))
  /\ option_map fst
       (AIService.minimaxWithPruning 1
          [Some X; Some O; Some X; Some O; Some X; Some O; Some O; Some X;
           Some O]
          (9 + 8) false NegInf PosInf)
     = Some (MinusOne, Fin 0)
  /\ option_map fst
       (AIService.minimaxWithPruning 1
          [Some X; Some X; Some X; Some O; Some O; None; None; None; None]
          (9 + 2) true NegInf PosInf)
     = Some (MinusOne, Fin 1)
  /\ GameBoard.minimax X O GameBoard.searchFuel
       (<[1 := Some O]> boardCornerOpening) 0 false
     = Some (Fin (-5))
  /\ GameBoard.getBestMove X O boardCornerOpening = Some (Cell 4).
Proof.
  repeat split; vm_compute; reflexivity.
Qed.

(** ** The deep searches return *)

Section SearchReturns.

Implicit Types (board : Board) (c move : nat) (symbol : Mark).

Lemma numNone_insert board c symbol :
  board !! c = Some None ->
  numNone (<[c := Some symbol]> board) < numNone board.
Proof.
  unfold numNone. revert c.
  induction board as [|cell board IH]; intros [|c] Hc; simpl in *;
    try discriminate.
  - injection Hc as ->.
    rewrite filter_cons_False by done. rewrite filter_cons_True by done.
    simpl. lia.
  - specialize (IH c Hc). rewrite !filter_cons.
    destruct (decide (cell = None)); simpl; lia.
Qed.

Lemma numNone_le_length board : numNone board <= length board.
Proof. apply length_filter. Qed.

(** *** [AIService.minimaxWithPruning] *)

Lemma maximizingLoop_returns child beta cells board :
  (forall move, move ∈ cells -> board !! move = Some None) ->
  (forall move alpha, move ∈ cells ->
     exists r, child (<[move := Some O]> board) alpha
               = Some (r, <[move := Some O]> board)) ->
  forall bestMove maxScore alpha,
  exists r,
    AIService.maximizingLoop child beta cells board bestMove maxScore alpha
    = Some (r, board).
Proof.
  induction cells as [|move rest IH]; intros Hempty Hchild bestMove maxScore alpha.
  - by eexists.
  - simpl.
    destruct (Hchild move alpha) as [[p score] ->];
      [apply elem_of_cons; by left|].
    rewrite restore_cell by (apply Hempty, elem_of_cons; by left).
    destruct (Num_leb beta (Num_max alpha score)); [by eexists|].
    apply IH.
    + intros m Hm. apply Hempty, elem_of_cons. by right.
    + intros m a Hm. apply Hchild, elem_of_cons. by right.
Qed.

Lemma minimizingLoop_returns child alpha cells board :
  (forall move, move ∈ cells -> board !! move = Some None) ->
  (forall move beta, move ∈ cells ->
     exists r, child (<[move := Some X]> board) beta
               = Some (r, <[move := Some X]> board)) ->
  forall bestMove minScore beta,
  exists r,
    AIService.minimizingLoop child alpha cells board bestMove minScore beta
    = Some (r, board).
Proof.
  induction cells as [|move rest IH]; intros Hempty Hchild bestMove minScore beta.
  - by eexists.
  - simpl.
    destruct (Hchild move beta) as [[p score] ->];
      [apply elem_of_cons; by left|].
    rewrite restore_cell by (apply Hempty, elem_of_cons; by left).
    destruct (Num_leb (Num_min beta score) alpha); [by eexists|].
    apply IH.
    + intros m Hm. apply Hempty, elem_of_cons. by right.
    + intros m b Hm. apply Hchild, elem_of_cons. by right.
Qed.

(** With more fuel than empty cells the search returns, and the board is
    as it was given. *)
Lemma minimaxWithPruning_returns fuel board depth isMaximizing alpha beta :
  numNone board < fuel ->
  exists r,
    AIService.minimaxWithPruning fuel board depth isMaximizing alpha beta
    = Some (r, board).
Proof.
  revert board depth isMaximizing alpha beta.
  induction fuel as [|fuel IH]; intros board depth isMaximizing alpha beta Hfuel;
    [lia|].
  simpl.
  destruct (winner_is _ O); [by eexists|].
  destruct (winner_is _ X); [by eexists|].
  destruct (winner_is_draw _); [by eexists|].
  assert (forall move symbol, move ∈ AIService.getEmptyCells board ->
            numNone (<[move := Some symbol]> board) < fuel) as Hless.
  { intros move symbol Hm%AIService_getEmptyCells_elem.
    pose proof (numNone_insert board move symbol Hm). lia. }
  destruct isMaximizing.
  - apply maximizingLoop_returns.
    + intros move. apply AIService_getEmptyCells_elem.
    + intros move a Hm. apply IH, Hless, Hm.
  - apply minimizingLoop_returns.
    + intros move. apply AIService_getEmptyCells_elem.
    + intros move b Hm. apply IH, Hless, Hm.
Qed.

(** The search of [getHardMove] returns on every board. *)
Lemma hard_search_returns board :
  exists r,
    AIService.minimaxWithPruning (AIService.searchFuel board) board 9 true
      NegInf PosInf
    = Some (r, board).
Proof.
  apply minimaxWithPruning_returns. unfold AIService.searchFuel.
  pose proof (numNone_le_length board). lia.
Qed.

(** *** [GameBoard.minimax] *)

Variables humanSymbol aiSymbol : Mark.

Lemma GameBoard_getEmptyCells_insert board c symbol :
  GameBoard.getEmptyCells (<[c := Some symbol]> board)
  = filter (fun i => i <> c) (GameBoard.getEmptyCells board).
Proof.
  unfold GameBoard.getEmptyCells. rewrite list_filter_filter.
  apply list_filter_iff. intros i.
  rewrite !is_null_Some_None. split.
  - intros Hi. destruct (decide (i = c)) as [->|Hne].
    + destruct (decide (c < length board)) as [Hlt|Hge].
      * rewrite list_lookup_insert_eq in Hi by done. discriminate.
      * rewrite list_insert_ge in Hi by lia.
        apply lookup_lt_Some in Hi. lia.
    + split; [done|]. by rewrite list_lookup_insert_ne in Hi.
  - intros [Hne Hi]. by rewrite list_lookup_insert_ne.
Qed.

Lemma GameBoard_getEmptyCells_less board c symbol :
  c ∈ GameBoard.getEmptyCells board ->
  length (GameBoard.getEmptyCells (<[c := Some symbol]> board))
  < length (GameBoard.getEmptyCells board).
Proof.
  intros Hc. rewrite GameBoard_getEmptyCells_insert.
  apply (length_filter_lt _ _ c); [done|]. by intros H.
Qed.

Lemma GameBoard_getEmptyCells_bound board :
  length (GameBoard.getEmptyCells board) <= 9.
Proof.
  unfold GameBoard.getEmptyCells.
  etrans; [apply length_filter|]. by rewrite length_seq.
Qed.

Lemma maximizeOver_returns child board cells :
  (forall cell, cell ∈ cells ->
     is_Some (child (<[cell := Some aiSymbol]> board))) ->
  forall maxEval,
    is_Some (GameBoard.maximizeOver aiSymbol child board cells maxEval).
Proof.
  induction cells as [|cell rest IH]; intros Hchild maxEval; [by eexists|].
  simpl. destruct (Hchild cell) as [evaluation ->];
    [apply elem_of_cons; by left|].
  apply IH. intros c Hc. apply Hchild, elem_of_cons. by right.
Qed.

Lemma minimizeOver_returns child board cells :
  (forall cell, cell ∈ cells ->
     is_Some (child (<[cell := Some humanSymbol]> board))) ->
  forall minEval,
    is_Some (GameBoard.minimizeOver humanSymbol child board cells minEval).
Proof.
  induction cells as [|cell rest IH]; intros Hchild minEval; [by eexists|].
  simpl. destruct (Hchild cell) as [evaluation ->];
    [apply elem_of_cons; by left|].
  apply IH. intros c Hc. apply Hchild, elem_of_cons. by right.
Qed.

Lemma minimax_returns fuel board depth isMaximizing :
  length (GameBoard.getEmptyCells board) < fuel ->
  is_Some (GameBoard.minimax humanSymbol aiSymbol fuel board depth isMaximizing).
Proof.
  revert board depth isMaximizing.
  induction fuel as [|fuel IH]; intros board depth isMaximizing Hfuel; [lia|].
  simpl.
  destruct (winner_is _ aiSymbol); [by eexists|].
  destruct (winner_is _ humanSymbol); [by eexists|].
  destruct (winner_is_draw _); [by eexists|].
  destruct isMaximizing.
  - apply maximizeOver_returns. intros cell Hcell. apply IH.
    pose proof (GameBoard_getEmptyCells_less board cell aiSymbol Hcell). lia.
  - apply minimizeOver_returns. intros cell Hcell. apply IH.
    pose proof (GameBoard_getEmptyCells_less board cell humanSymbol Hcell). lia.
Qed.

(** [getBestMove] returns on every board. *)
Lemma getBestMove_returns board :
  is_Some (GameBoard.getBestMove humanSymbol aiSymbol board).
Proof.
  unfold GameBoard.getBestMove.
  generalize MinusOne NegInf.
  induction (GameBoard.getEmptyCells board) as [|cell rest IH];
    intros bestMove bestValue; [by eexists|].
  cbn [GameBoard.getBestMove_loop].
  destruct (minimax_returns GameBoard.searchFuel
              (<[cell := Some aiSymbol]> board) 0 false) as [moveValue ->].
  { pose proof (GameBoard_getEmptyCells_bound
                  (<[cell := Some aiSymbol]> board)).
    unfold GameBoard.searchFuel. lia. }
  destruct (Num_ltb bestValue moveValue); apply IH.
Qed.

(** [getAiMove] returns a move on every board, for all draws. *)
Lemma getAiMove_returns difficulty aiShouldTryToWin board g i :
  is_Some
    (fst (GameBoard.getAiMove humanSymbol aiSymbol difficulty aiShouldTryToWin
            board g i)).
Proof.
  unfold GameBoard.getAiMove, GameBoard.getSuboptimalMove,
    GameBoard.foundAndDraw, randomElement, randomIndex,
    mbind, mret, Rand_bind, Rand_ret, random.
  pose proof (getBestMove_returns board) as Hbest.
  repeat (case_match; simpl; try done; try by eexists).
Qed.

End SearchReturns.

(** ** [AIService] hands the board back as it received it *)

Section AIServiceFrame.

Implicit Types (board : Board) (player : Mark).

Lemma AIService_findWinningMove_board board player :
  snd (AIService.findWinningMove board player) = board.
Proof.
  unfold AIService.findWinningMove.
  by rewrite AIService_findWinningMove_loop_pure
    by (intros c; apply AIService_getEmptyCells_elem).
Qed.

Lemma countWinningMoves_board player cells board n :
  (forall c, c ∈ cells -> board !! c = Some None) ->
  snd (AIService.countWinningMoves player cells board n) = board.
Proof.
  revert n. induction cells as [|testMove rest IH]; intros n Hcells; [done|].
  simpl. rewrite restore_cell by (apply Hcells, elem_of_cons; by left).
  apply IH. intros c Hc. apply Hcells, elem_of_cons. by right.
Qed.

Lemma findForkMove_loop_board player cells board :
  (forall c, c ∈ cells -> board !! c = Some None) ->
  snd (AIService.findForkMove_loop player cells board) = board.
Proof.
  induction cells as [|move rest IH]; intros Hcells; [done|].
  simpl.
  pose proof (countWinningMoves_board player
                (AIService.getEmptyCells (<[move := Some player]> board))
                (<[move := Some player]> board) 0
                (fun c => proj1 (AIService_getEmptyCells_elem _ c))) as Hcount.
  destruct (AIService.countWinningMoves _ _ _ _) as [winningMoves board2].
  simpl in Hcount. subst board2.
  rewrite restore_cell by (apply Hcells, elem_of_cons; by left).
  assert (forall c, c ∈ rest -> board !! c = Some None) as Hrest.
  { intros c Hc. apply Hcells, elem_of_cons. by right. }
  destruct winningMoves as [|[|n]]; simpl; auto.
Qed.

Lemma findForkMove_board board player :
  snd (AIService.findForkMove board player) = board.
Proof.
  apply findForkMove_loop_board. intros c.
  apply AIService_getEmptyCells_elem.
Qed.

Lemma strategicAfterOpening_board board emptyCells g i :
  snd (fst (AIService.strategicAfterOpening board emptyCells g i)) = board.
Proof.
  unfold AIService.strategicAfterOpening.
  pose proof (findForkMove_board board O) as HO.
  destruct (AIService.findForkMove board O) as [forkMove board1].
  simpl in HO. subst board1.
  pose proof (findForkMove_board board X) as HX.
  destruct (AIService.findForkMove board X) as [blockForkMove board1].
  simpl in HX. subst board1.
  unfold randomElement, randomIndex, mbind, mret, Rand_bind, Rand_ret, random.
  repeat (case_match; simpl; try done).
Qed.

Lemma getStrategicMove_board board moveCount g i :
  snd (fst (AIService.getStrategicMove board moveCount g i)) = board.
Proof.
  unfold AIService.getStrategicMove.
  pose proof (strategicAfterOpening_board board
                (AIService.getEmptyCells board) g i) as Hafter.
  unfold randomElement, randomIndex, mbind, mret, Rand_bind, Rand_ret, random.
  repeat (case_match; simpl; try done).
Qed.

(** Destructs the calls in the goal together with what is known of the
    board they return. *)
Ltac thread_board :=
  repeat match goal with
    | |- context [AIService.findWinningMove ?b ?p] =>
        let H := fresh "Hb" in
        pose proof (AIService_findWinningMove_board b p) as H;
        destruct (AIService.findWinningMove b p) as [? ?];
        simpl in H; subst
    | |- context [AIService.getStrategicMove ?b ?n ?g ?j] =>
        let H := fresh "Hb" in
        pose proof (getStrategicMove_board b n g j) as H;
        destruct (AIService.getStrategicMove b n g j) as [[? ?] ?];
        simpl in H; subst
    | _ => progress simpl
    | _ => case_match
    end.

Lemma getEasyMove_board board g i :
  snd (fst (AIService.getEasyMove board g i)) = board.
Proof.
  unfold AIService.getEasyMove, randomElement, randomIndex,
    mbind, mret, Rand_bind, Rand_ret, random.
  by thread_board.
Qed.

Lemma getMediumMove_board board moveCount g i :
  snd (fst (AIService.getMediumMove board moveCount g i)) = board.
Proof.
  unfold AIService.getMediumMove, randomElement, randomIndex,
    mbind, mret, Rand_bind, Rand_ret, random.
  by thread_board.
Qed.

Lemma getHardMove_returns board moveCount g i :
  exists aiMove,
    fst (AIService.getHardMove board moveCount g i) = Some (aiMove, board).
Proof.
  destruct (hard_search_returns board) as [[bestPosition bestScore] Hsearch].
  unfold AIService.getHardMove, mbind, mret, Rand_bind, Rand_ret, random.
  pose proof (AIService_findWinningMove_board board O) as HO.
  destruct (AIService.findWinningMove board O) as [winMove board1].
  simpl in HO. subst board1.
  pose proof (AIService_findWinningMove_board board X) as HX.
  destruct (AIService.findWinningMove board X) as [blockMove board1].
  simpl in HX. subst board1.
  rewrite Hsearch.
  thread_board; by eexists.
Qed.

(** [getMove] returns a move at every tier, on every board and for all
    draws, and the board is as it was given. *)
Lemma getMove_returns difficulty board moveCount g i :
  exists aiMove,
    fst (AIService.getMove difficulty board moveCount g i)
    = Some (aiMove, board).
Proof.
  unfold AIService.getMove, mbind, mret, Rand_bind, Rand_ret.
  destruct difficulty.
  - pose proof (getEasyMove_board board g i) as Hb.
    destruct (AIService.getEasyMove board g i) as [[aiMove b] j].
    simpl in *. subst b. by eexists.
  - pose proof (getMediumMove_board board moveCount g i) as Hb.
    destruct (AIService.getMediumMove board moveCount g i) as [[aiMove b] j].
    simpl in *. subst b. by eexists.
  - apply getHardMove_returns.
Qed.

End AIServiceFrame.

(** ** Random picks *)

Section RandomPicks.

(** For draws in [[0, 1)] the index [Math.floor(Math.random() * n)] is
    within [0 .. n-1]. *)
Lemma randomIndex_range (n : nat) (g : Rng) (i : nat) :
  validRng g -> 0 < n ->
  (0 <= fst (randomIndex n g i) < Z.of_nat n)%Z.
Proof.
  intros Hg Hn. destruct (Hg i) as [Hlo Hhi].
  change (fst (randomIndex n g i))
    with (Qfloor (g i * inject_Z (Z.of_nat n))).
  assert (0 < inject_Z (Z.of_nat n))%Q as Hpos.
  { change 0%Q with (inject_Z 0). rewrite <- Zlt_Qlt. lia. }
  split.
  - change 0%Z with (Qfloor 0). apply Qfloor_resp_le.
    apply Qmult_le_0_compat; [done|]. by apply Qlt_le_weak.
  - rewrite Zlt_Qlt.
    eapply Qle_lt_trans; [apply Qfloor_le|].
    rewrite <- (Qmult_1_l (inject_Z (Z.of_nat n))) at 2.
    by apply Qmult_lt_compat_r.
Qed.

(** A random pick from a non-empty array is one of its elements. *)
Lemma randomElement_in (arr : list nat) (g : Rng) (i : nat) :
  validRng g -> arr <> [] ->
  exists c, fst (randomElement arr g i) = Cell c /\ c ∈ arr.
Proof.
  intros Hg Hne.
  assert (0 < length arr) as Hlen by (destruct arr; [done|simpl; lia]).
  pose proof (randomIndex_range (length arr) g i Hg Hlen) as [Hlo Hhi].
  unfold randomElement, mbind, mret, Rand_bind, Rand_ret.
  destruct (randomIndex (length arr) g i) as [k j]. simpl in *.
  unfold pickAt.
  destruct (k <? 0)%Z eqn:Ek; [apply Z.ltb_lt in Ek; lia|].
  destruct (arr !! Z.to_nat k) as [c|] eqn:Ec.
  - exists c. split; [done|]. by eapply list_elem_of_lookup_2.
  - apply lookup_ge_None in Ec. lia.
Qed.

End RandomPicks.

(** ** The rules treat the two marks alike *)

Section Symmetry.

Implicit Types (board : Board) (l : list nat) (m : Mark).

Lemma swapMarks_lookup board i :
  swapMarks board !! i = option_map (option_map otherMark) (board !! i).
Proof. unfold swapMarks. rewrite list_lookup_fmap. by destruct (board !! i). Qed.

Lemma lineWins_swapMarks board l :
  lineWins (swapMarks board) l = lineWins board l.
Proof.
  destruct l as [|a [|b [|c l]]]; try done.
  unfold lineWins. rewrite !swapMarks_lookup.
  destruct (board !! a) as [[[]|]|], (board !! b) as [[[]|]|],
    (board !! c) as [[[]|]|]; done.
Qed.

Lemma lineMark_swapMarks board l :
  lineMark (swapMarks board) l = swapWinner (lineMark board l).
Proof.
  destruct l as [|a l]; first done.
  unfold lineMark. rewrite swapMarks_lookup.
  by destruct (board !! a) as [[[]|]|].
Qed.

Lemma everyNotNull_swapMarks board :
  everyNotNull (swapMarks board) = everyNotNull board.
Proof.
  unfold everyNotNull, swapMarks.
  induction board as [|[m|] board IH]; simpl; by rewrite ?IH.
Qed.

Lemma scan_swapMarks board ls :
  GameBoard.scan (swapMarks board) ls
  = option_map swapInfo (GameBoard.scan board ls).
Proof.
  induction ls as [|l ls IH]; first done.
  simpl. rewrite lineWins_swapMarks, lineMark_swapMarks, IH.
  by destruct (lineWins board l).
Qed.

End Symmetry.

(** X1.  Exchanging the two marks on a board exchanges the winner and
    nothing else: when every [X] of a board is replaced by [O] and every
    [O] by [X], the winner evaluation reports the other mark on the same
    line where it reported a mark, and a draw or a game in progress
    where it reported that. *)
Theorem checkWinner_swapMarks (board : Board) :
  GameBoard.checkWinner (swapMarks board)
  = swapInfo (GameBoard.checkWinner board).
Proof.
  unfold GameBoard.checkWinner.
  rewrite scan_swapMarks, everyNotNull_swapMarks.
  destruct (GameBoard.scan board lines); simpl; first done.
  by destruct (everyNotNull board).
Qed.

(** ** [findWinningMove] finds the first cell that wins *)

Section WinningCell.

Implicit Types (board : Board) (m player : Mark) (c : nat).

Lemma findWinningMove_loop_Some board player cells c :
  GameBoard.findWinningMove_loop board player cells = Some c ->
  exists before after,
    cells = before ++ c :: after
    /\ GameBoard.isWinningMove board c player = true
    /\ Forall (fun x => GameBoard.isWinningMove board x player = false) before.
Proof.
  induction cells as [|cell rest IH]; [done|]. simpl.
  destruct (GameBoard.isWinningMove board cell player) eqn:E.
  - intros [= ->]. by exists [], rest.
  - intros (before & after & -> & Hw & Hb)%IH.
    exists (cell :: before), after. split; [done|]. split; [done|].
    by constructor.
Qed.

Lemma findWinningMove_loop_None board player cells :
  GameBoard.findWinningMove_loop board player cells = None ->
  Forall (fun x => GameBoard.isWinningMove board x player = false) cells.
Proof.
  induction cells as [|cell rest IH]; [done|]. simpl.
  destruct (GameBoard.isWinningMove board cell player) eqn:E; [done|].
  intros H. constructor; [done|]. by apply IH.
Qed.

(** The cells listed before a cell of [getEmptyCells] have lower
    indices. *)
Lemma filter_seq_before (P : nat -> Prop) `{forall x, Decision (P x)}
    (a n : nat) (before after : list nat) (c : nat) :
  filter P (seq a n) = before ++ c :: after -> Forall (fun x => x < c) before.
Proof.
  revert a before. induction n as [|n IH]; intros a before; simpl.
  - by destruct before.
  - rewrite filter_cons. destruct (decide (P a)) as [Ha|Ha]; [|by apply IH].
    destruct before as [|x before]; [done|]. simpl. intros [= <- Heq].
    constructor; [|by eapply IH].
    assert (c ∈ filter P (seq (S a) n)) as Hc.
    { rewrite Heq. apply elem_of_app. right. apply elem_of_cons. by left. }
    apply list_elem_of_filter in Hc as [_ Hc%elem_of_seq]. lia.
Qed.

(** On a board of nine cells the two services list the same empty
    cells, in the same order. *)
Lemma getEmptyCells_agree board :
  length board = 9 ->
  AIService.getEmptyCells board = GameBoard.getEmptyCells board.
Proof.
  intros Hlen.
  do 9 (destruct board as [|cell board]; [done|]; destruct cell as [?|]);
    (destruct board; [reflexivity|done]).
Qed.

End WinningCell.

(** X2.  On a board on which no line is held, [findWinningMove] of the
    game screen returns the empty cell of lowest index that completes
    three in a row for the given mark, and it returns [null] exactly when
    no empty cell does. *)
Theorem findWinningMove_first_completing (board : Board) (m : Mark) :
  noLine board ->
  (forall c,
      GameBoard.findWinningMove board m = Some c <->
      completesLine board m c
      /\ forall c', c' < c -> ~ completesLine board m c')
  /\ (GameBoard.findWinningMove board m = None <->
      forall c, ~ completesLine board m c).
Proof.
  intros Hno.
  assert (forall c, GameBoard.findWinningMove board m = Some c ->
            completesLine board m c
            /\ forall c', c' < c -> ~ completesLine board m c') as Hsound.
  { intros c (before & after & Hcells & Hwin & Hbefore)%findWinningMove_loop_Some.
    assert (c ∈ GameBoard.getEmptyCells board) as Hc.
    { rewrite Hcells. apply elem_of_app. right. apply elem_of_cons. by left. }
    apply GameBoard_getEmptyCells_elem in Hc as [Hc9 Hempty].
    split.
    - split; [done|]. by apply placing_wins.
    - intros c' Hlt Hc'. pose proof Hc' as [Hempty' Hline'].
      assert (c' ∈ GameBoard.getEmptyCells board) as Hin.
      { apply GameBoard_getEmptyCells_elem. split; [lia|done]. }
      pose proof (filter_seq_before _ _ _ _ _ _ Hcells) as Hlow.
      assert (Forall (fun x => c < x) after) as Hhigh.
      { apply Forall_forall. intros x Hx.
        apply list_elem_of_split in Hx as (l1 & l2 & ->).
        assert (GameBoard.getEmptyCells board
                = (before ++ c :: l1) ++ x :: l2) as Hsplit
          by (by rewrite Hcells, <- app_assoc).
        apply filter_seq_before in Hsplit.
        apply Forall_app in Hsplit as [_ Hcx].
        by apply Forall_cons in Hcx as [Hcx _]. }
      rewrite Hcells in Hin.
      apply elem_of_app in Hin as [Hin|Hin].
      + rewrite Forall_forall in Hbefore.
        pose proof (Hbefore c' Hin) as Hfalse.
        apply (placing_wins board m c' Hno Hempty') in Hline'. congruence.
      + apply elem_of_cons in Hin as [->|Hin]; [lia|].
        rewrite Forall_forall in Hhigh. specialize (Hhigh c' Hin). lia. }
  assert (GameBoard.findWinningMove board m = None ->
          forall c, ~ completesLine board m c) as Hnone.
  { intros Hn c Hc.
    destruct (GameBoard_findWinningMove_complete board m c Hno Hc)
      as (c1 & Hc1 & _). congruence. }
  split.
  - intros c. split; [apply Hsound|]. intros [Hc Hlowest].
    destruct (GameBoard_findWinningMove_complete board m c Hno Hc)
      as (c1 & Hc1 & Hcomp1).
    destruct (Hsound c1 Hc1) as [_ Hlow1].
    destruct (Nat.lt_trichotomy c1 c) as [Hlt|[->|Hgt]]; [|done|].
    + by destruct (Hlowest c1 Hlt).
    + by destruct (Hlow1 c Hgt).
  - split; [apply Hnone|]. intros Hall.
    destruct (GameBoard.findWinningMove board m) as [c|] eqn:E; [|done].
    destruct (Hsound c eq_refl) as [Hc _]. by destruct (Hall c).
Qed.

Lemma findWinningMove_first_completing_witness :
  completesLine boardWithFreeWin O 2.
Proof.
  assert (noLine boardWithFreeWin) as Hno
    by (apply scan_None_noLine; reflexivity).
  destruct (findWinningMove_first_completing boardWithFreeWin O Hno)
    as [Hsome _].
  apply Hsome. reflexivity.
Defined.

(** X3.  On every board of nine cells the [findWinningMove] of the
    [AIService] returns what the [findWinningMove] of the game screen
    returns, with [-1] in the place of [null], and the board it was
    given holds the same cells afterwards as before. *)
Theorem AIService_findWinningMove_agrees (board : Board) (m : Mark) :
  length board = 9 ->
  AIService.findWinningMove board m
  = (GameBoard.cellOf (GameBoard.findWinningMove board m), board).
Proof.
  intros Hlen. unfold AIService.findWinningMove, GameBoard.findWinningMove.
  rewrite AIService_findWinningMove_loop_pure
    by (intros c; apply AIService_getEmptyCells_elem).
  by rewrite getEmptyCells_agree.
Qed.

Lemma AIService_findWinningMove_agrees_witness :
  AIService.findWinningMove boardWithFreeWin X
  = (GameBoard.cellOf (GameBoard.findWinningMove boardWithFreeWin X),
     boardWithFreeWin).
Proof. exact (AIService_findWinningMove_agrees boardWithFreeWin X eq_refl). Defined.

(** ** The move policies choose empty cells *)

Section LegalMoves.

Implicit Types (board : Board) (c cell : nat) (p : Pick) (g : Rng).

Lemma randomElement_elem (arr : list nat) g i p j :
  validRng g -> arr <> [] -> randomElement arr g i = (p, j) ->
  exists c, p = Cell c /\ c ∈ arr.
Proof.
  intros Hg Hne Heq.
  destruct (randomElement_in arr g i Hg Hne) as (c & Hc & Hin).
  rewrite Heq in Hc. by exists c.
Qed.

Lemma length_pos_nonempty {A : Type} (l : list A) :
  (0 <? length l) = true -> l <> [].
Proof. by destruct l. Qed.

Lemma length_zero_nonempty {A : Type} (l : list A) :
  (length l =? 0) = false -> l <> [].
Proof. by destruct l. Qed.

Lemma everyNotNull_false board :
  everyNotNull board = false -> exists i, board !! i = Some None.
Proof.
  unfold everyNotNull.
  induction board as [|[m|] board IH]; simpl; [done| |].
  - intros [i Hi]%IH. by exists (S i).
  - intros _. by exists 0.
Qed.

(** A position in progress on a board of nine cells has an empty cell. *)
Lemma inProgress_getEmptyCells board :
  length board = 9 ->
  winner (GameBoard.checkWinner board) = None ->
  GameBoard.getEmptyCells board <> [].
Proof.
  intros Hlen. unfold GameBoard.checkWinner.
  destruct (GameBoard.scan board lines) as [r|] eqn:Escan.
  - apply scan_Some in Escan as (before & L & after & HL & _ & Hwins & ->).
    assert (L ∈ lines) as HLin.
    { rewrite HL. apply elem_of_app. right. apply elem_of_cons. by left. }
    destruct (lines_triples L HLin) as (a & b & c & ->).
    simpl. unfold lineWins in Hwins.
    by destruct (board !! a) as [[?|]|].
  - destruct (everyNotNull board) eqn:Eall; [done|]. intros _.
    destruct (everyNotNull_false board Eall) as [i Hi].
    assert (i ∈ GameBoard.getEmptyCells board) as Hin.
    { apply GameBoard_getEmptyCells_elem. split; [|done].
      apply lookup_lt_Some in Hi. lia. }
    intros Hnil. rewrite Hnil in Hin. by apply elem_of_nil in Hin.
Qed.

Variables humanSymbol aiSymbol : Mark.

Hypothesis symbols : humanSymbol <> aiSymbol.

Lemma maximizeOver_Fin child board cells acc v :
  (forall cell e, cell ∈ cells ->
     child (<[cell := Some aiSymbol]> board) = Some e -> exists z, e = Fin z) ->
  acc <> PosInf -> (acc = NegInf -> cells <> []) ->
  GameBoard.maximizeOver aiSymbol child board cells acc = Some v ->
  exists z, v = Fin z.
Proof.
  revert acc. induction cells as [|cell rest IH]; intros acc Hchild Hpos Hneg.
  - simpl. intros [= <-]. destruct acc as [|z|]; [by destruct Hneg|by exists z|done].
  - simpl. destruct (child _) as [e|] eqn:Ee; [|done].
    destruct (Hchild cell e ltac:(apply elem_of_cons; by left) Ee) as [z ->].
    apply IH.
    + intros c e Hc. apply Hchild, elem_of_cons. by right.
    + unfold Num_max. by destruct (Num_ltb acc (Fin z)).
    + unfold Num_max. destruct acc as [|y|]; simpl; [done| |done].
      by destruct (y <? z)%Z.
Qed.

Lemma minimizeOver_Fin child board cells acc v :
  (forall cell e, cell ∈ cells ->
     child (<[cell := Some humanSymbol]> board) = Some e ->
     exists z, e = Fin z) ->
  acc <> NegInf -> (acc = PosInf -> cells <> []) ->
  GameBoard.minimizeOver humanSymbol child board cells acc = Some v ->
  exists z, v = Fin z.
Proof.
  revert acc. induction cells as [|cell rest IH]; intros acc Hchild Hneg Hpos.
  - simpl. intros [= <-]. destruct acc as [|z|]; [done|by exists z|by destruct Hpos].
  - simpl. destruct (child _) as [e|] eqn:Ee; [|done].
    destruct (Hchild cell e ltac:(apply elem_of_cons; by left) Ee) as [z ->].
    apply IH.
    + intros c e Hc. apply Hchild, elem_of_cons. by right.
    + unfold Num_min. by destruct (Num_ltb (Fin z) acc).
    + unfold Num_min. destruct acc as [|y|]; simpl; [done| |done].
      by destruct (z <? y)%Z.
Qed.

Lemma no_winner_None (w : GameResult) :
  winner_is w aiSymbol = false -> winner_is w humanSymbol = false ->
  winner_is_draw w = false -> w = None.
Proof using symbols.
  destruct w as [[m|]|]; simpl; [|done..].
  destruct m, aiSymbol, humanSymbol; done.
Qed.

(** On a board of nine cells the value of a position is a number, not
    one of the infinities the folds start from. *)
Lemma minimax_Fin fuel board depth isMaximizing v :
  length board = 9 ->
  GameBoard.minimax humanSymbol aiSymbol fuel board depth isMaximizing = Some v ->
  exists z, v = Fin z.
Proof using symbols.
  revert board depth isMaximizing v.
  induction fuel as [|fuel IH]; intros board depth isMaximizing v Hlen; [done|].
  simpl.
  destruct (winner_is _ aiSymbol) eqn:Eai; [intros [= <-]; by eexists|].
  destruct (winner_is _ humanSymbol) eqn:Ehu; [intros [= <-]; by eexists|].
  destruct (winner_is_draw _) eqn:Edr; [intros [= <-]; by eexists|].
  pose proof (no_winner_None _ Eai Ehu Edr) as Hw.
  pose proof (inProgress_getEmptyCells board Hlen Hw) as Hcells.
  destruct isMaximizing.
  - apply maximizeOver_Fin; [|done..].
    intros cell e _. apply IH. by rewrite length_insert.
  - apply minimizeOver_Fin; [|done..].
    intros cell e _. apply IH. by rewrite length_insert.
Qed.

Lemma getBestMove_loop_cell board cells :
  length board = 9 ->
  forall bestMove bestValue,
  exists p,
    GameBoard.getBestMove_loop humanSymbol aiSymbol board cells bestMove
      bestValue = Some p
    /\ (p = bestMove \/ exists c, p = Cell c /\ c ∈ cells)
    /\ (bestValue = NegInf -> cells <> [] -> exists c, p = Cell c /\ c ∈ cells).
Proof using symbols.
  intros Hlen. induction cells as [|cell rest IH]; intros bestMove bestValue.
  - exists bestMove. split; [done|]. split; [by left|done].
  - cbn [GameBoard.getBestMove_loop].
    destruct (minimax_returns humanSymbol aiSymbol GameBoard.searchFuel
                (<[cell := Some aiSymbol]> board) 0 false) as [moveValue Hv].
    { pose proof (GameBoard_getEmptyCells_bound
                    (<[cell := Some aiSymbol]> board)).
      unfold GameBoard.searchFuel. lia. }
    rewrite Hv.
    destruct (minimax_Fin _ _ _ _ _ ltac:(by rewrite length_insert) Hv)
      as [z ->].
    destruct (Num_ltb bestValue (Fin z)) eqn:Elt.
    + destruct (IH (Cell cell) (Fin z)) as (p & Hp & Hcase & _).
      exists p. split; [done|].
      assert (exists c, p = Cell c /\ c ∈ cell :: rest) as Hin.
      { destruct Hcase as [->|(c & -> & Hc)].
        - exists cell. split; [done|]. apply elem_of_cons. by left.
        - exists c. split; [done|]. apply elem_of_cons. by right. }
      split; [by right|done].
    + destruct (IH bestMove bestValue) as (p & Hp & Hcase & _).
      exists p. split; [done|]. split.
      * destruct Hcase as [->|(c & -> & Hc)]; [by left|].
        right. exists c. split; [done|]. apply elem_of_cons. by right.
      * intros ->. done.
Qed.

(** The deep search of the game screen returns an empty cell when there
    is one. *)
Lemma getBestMove_cell board :
  length board = 9 -> GameBoard.getEmptyCells board <> [] ->
  exists c,
    GameBoard.getBestMove humanSymbol aiSymbol board = Some (Cell c)
    /\ c ∈ GameBoard.getEmptyCells board.
Proof using symbols.
  intros Hlen Hne. unfold GameBoard.getBestMove.
  destruct (getBestMove_loop_cell board (GameBoard.getEmptyCells board) Hlen
              MinusOne NegInf) as (p & Hp & _ & Hcell).
  destruct (Hcell eq_refl Hne) as (c & -> & Hc). by exists c.
Qed.

Lemma findWinningMove_elem board m c :
  GameBoard.findWinningMove board m = Some c ->
  c ∈ GameBoard.getEmptyCells board.
Proof.
  intros (before & after & Hcells & _)%findWinningMove_loop_Some.
  rewrite Hcells. apply elem_of_app. right. apply elem_of_cons. by left.
Qed.

Lemma nullAmong_elem board (among : list nat) c :
  Forall (fun x => x < 9) among ->
  c ∈ filter (fun i => is_null (board !! i) = true) among ->
  c ∈ GameBoard.getEmptyCells board.
Proof.
  intros Hamong [Hnull Hin]%list_elem_of_filter.
  apply GameBoard_getEmptyCells_elem. split.
  - rewrite Forall_forall in Hamong. by apply Hamong.
  - by apply is_null_Some_None.
Qed.

Lemma getSuboptimalMove_elem board g i p j :
  validRng g -> GameBoard.getEmptyCells board <> [] ->
  GameBoard.getSuboptimalMove board g i = (p, j) ->
  exists c, p = Cell c /\ c ∈ GameBoard.getEmptyCells board.
Proof.
  intros Hg Hne. unfold GameBoard.getSuboptimalMove.
  unfold mbind, mret, Rand_bind, Rand_ret, random.
  set (edges := filter _ [1; 3; 5; 7]).
  assert (forall c, c ∈ edges -> c ∈ GameBoard.getEmptyCells board) as Hedges.
  { intros c. apply nullAmong_elem. repeat constructor. }
  destruct (0 <? length edges) eqn:Elen.
  - destruct (Qltb (g i) 0.7).
    + intros Heq.
      destruct (randomElement_elem edges g (S i) p j Hg
                  (length_pos_nonempty _ Elen) Heq) as (c & -> & Hc).
      exists c. split; [done|]. by apply Hedges.
    + intros Heq. by eapply randomElement_elem.
  - intros Heq. by eapply randomElement_elem.
Qed.

End LegalMoves.

(** [getAiMove] on a board with an empty cell. *)
Lemma getAiMove_pick (props : GameBoard.Props) (aiShouldTryToWin : bool)
    (board : Board) (g : Rng) (i : nat) :
  validRng g -> length board = 9 -> GameBoard.getEmptyCells board <> [] ->
  exists c,
    fst (GameBoard.getAiMove (GameBoard.humanSymbol props)
           (GameBoard.aiSymbol props) (GameBoard.difficulty props)
           aiShouldTryToWin board g i) = Some (Cell c)
    /\ c ∈ GameBoard.getEmptyCells board.
Proof.
  intros Hg Hlen Hne.
    pose proof (getBestMove_cell _ _ (symbols_differ props) board Hlen Hne)
      as (cb & Hbest & Hcb).
    pose proof (fun j => randomElement_in
                  (GameBoard.getEmptyCells board) g j Hg Hne) as Hrand.
    pose proof (fun j p k => getSuboptimalMove_elem board g j p k Hg Hne)
      as Hsub.
    pose proof (findWinningMove_elem board) as Hfind.
    assert (forall j,
              (0 <? length (filter (fun i => is_null (board !! i) = true)
                              [0; 2; 6; 8])) = true ->
              exists c,
                fst (randomElement (filter (fun i => is_null (board !! i) = true)
                                      [0; 2; 6; 8]) g j) = Cell c
                /\ c ∈ GameBoard.getEmptyCells board)
      as Hcorner.
    { intros j Hpos.
      destruct (randomElement_in _ g j Hg (length_pos_nonempty _ Hpos))
        as (c & Hc & Hcin).
      exists c. split; [done|]. eapply nullAmong_elem; [|done].
      repeat constructor. }
    assert (board !! 4 = Some None -> 4 ∈ GameBoard.getEmptyCells board)
      as Hcentre.
    { intros H4. apply GameBoard_getEmptyCells_elem. split; [lia|done]. }
    unfold GameBoard.getAiMove, GameBoard.foundAndDraw, GameBoard.cellOf,
      mbind, mret, Rand_bind, Rand_ret, random.
    rewrite Hbest.
    destruct (length (GameBoard.getEmptyCells board) =? 0) eqn:Elen.
    { destruct (GameBoard.getEmptyCells board); done. }
    repeat (case_match; simpl in *; simplify_eq);
      try (by eauto);
      try match goal with
        | H : GameBoard.getSuboptimalMove board g _ = (_, _) |- _ =>
            apply Hsub in H as (c & -> & Hc); by eauto
        | H : is_null (board !! 4) = true |- _ =>
            apply is_null_Some_None in H; by eauto
        end;
      match goal with
      | |- exists c, Some (pickAt ?arr (_ (_ (_ (g ?j)) _) _)) = _ /\ _ =>
          first
            [ destruct (Hrand j) as (c & Hc & Hcin);
              exists c; split; [exact (f_equal Some Hc)|done]
            | destruct (Hcorner j) as (c & Hc & Hcin); [done|];
              exists c; split; [exact (f_equal Some Hc)|done] ]
      end.
Qed.

(** X4.  The move policy of the game screen only ever chooses an empty
    cell: at every difficulty, whether or not the AI tries to win, on
    every board of nine cells with an empty cell and for all draws in
    [[0, 1)], [getAiMove] returns the index of a cell that is empty; and
    it returns [-1] when it finds no empty cell, whatever the draws. *)
Theorem getAiMove_chooses_empty_cell (props : GameBoard.Props)
    (aiShouldTryToWin : bool) (board : Board) (g : Rng) (i : nat) :
  let move :=
    fst (GameBoard.getAiMove (GameBoard.humanSymbol props)
           (GameBoard.aiSymbol props) (GameBoard.difficulty props)
           aiShouldTryToWin board g i) in
  (GameBoard.getEmptyCells board = [] -> move = Some MinusOne)
  /\ (validRng g -> length board = 9 ->
      forall c0, board !! c0 = Some None ->
      exists c, move = Some (Cell c) /\ c < 9 /\ board !! c = Some None).
Proof.
  intros move. split.
  - intros Hnil. unfold move, GameBoard.getAiMove. by rewrite Hnil.
  - intros Hg Hlen c0 Hc0.
    assert (c0 ∈ GameBoard.getEmptyCells board) as Hin.
    { apply GameBoard_getEmptyCells_elem. split; [|done].
      apply lookup_lt_Some in Hc0. lia. }
    assert (GameBoard.getEmptyCells board <> []) as Hne.
    { intros Hnil. rewrite Hnil in Hin. by apply elem_of_nil in Hin. }
    destruct (getAiMove_pick props aiShouldTryToWin board g i Hg Hlen Hne)
      as (c & Hc & Hcin).
    exists c. split; [done|]. by apply GameBoard_getEmptyCells_elem.
Qed.

Lemma getAiMove_chooses_empty_cell_witness :
  exists c,
    fst (GameBoard.getAiMove X O medium true boardCornerOpening
           (fun _ => 0.5%Q) 0) = Some (Cell c)
    /\ c < 9 /\ boardCornerOpening !! c = Some None.
Proof.
  destruct (getAiMove_chooses_empty_cell
              (GameBoard.mkProps single medium true) true boardCornerOpening
              (fun _ => 0.5%Q) 0) as [_ Hcell].
  apply (Hcell (fun _ => conj (Qle_bool_imp_le 0 0.5 eq_refl) eq_refl) eq_refl 1
           eq_refl).
Defined.

(** *** The [AIService] *)

Section ServiceMoves.

Implicit Types (board : Board) (c move : nat) (p : Pick) (g : Rng)
  (player : Mark).

(** A pick that is the sentinel [-1] or an empty cell of the board. *)
Local Abbreviation emptyOrNone board p :=
  (p = MinusOne \/ exists c, p = Cell c /\ board !! c = Some None).

Lemma AIService_findWinningMove_pick board player p b :
  AIService.findWinningMove board player = (p, b) ->
  b = board /\ emptyOrNone board p.
Proof.
  unfold AIService.findWinningMove.
  rewrite AIService_findWinningMove_loop_pure
    by (intros c; apply AIService_getEmptyCells_elem).
  intros [= <- <-]. split; [done|].
  destruct (GameBoard.findWinningMove_loop _ _ _) as [c|] eqn:E; [|by left].
  right. exists c. split; [done|].
  apply findWinningMove_loop_Some in E as (before & after & Hcells & _).
  apply AIService_getEmptyCells_elem. rewrite Hcells.
  apply elem_of_app. right. apply elem_of_cons. by left.
Qed.

Lemma findForkMove_loop_pick player cells board :
  fst (AIService.findForkMove_loop player cells board) = MinusOne
  \/ exists c, fst (AIService.findForkMove_loop player cells board) = Cell c
               /\ c ∈ cells.
Proof.
  revert board. induction cells as [|move rest IH]; intros board; [by left|].
  simpl. destruct (AIService.countWinningMoves _ _ _ _) as [n board2].
  assert (fst (AIService.findForkMove_loop player rest
                 (<[move := None]> board2)) = MinusOne
          \/ exists c,
               fst (AIService.findForkMove_loop player rest
                      (<[move := None]> board2)) = Cell c
               /\ c ∈ move :: rest) as Hrest.
  { destruct (IH (<[move := None]> board2)) as [Hm|(c & Hc & Hin)];
      [by left|].
    right. exists c. split; [done|]. apply elem_of_cons. by right. }
  destruct n as [|[|n]]; simpl; [done..|].
  right. exists move. split; [done|]. apply elem_of_cons. by left.
Qed.

Lemma findForkMove_pick board player p b :
  AIService.findForkMove board player = (p, b) ->
  b = board /\ emptyOrNone board p.
Proof.
  intros Heq. pose proof (findForkMove_board board player) as Hb.
  rewrite Heq in Hb. split; [done|].
  unfold AIService.findForkMove in Heq.
  destruct (findForkMove_loop_pick player (AIService.getEmptyCells board)
              board) as [Hm|(c & Hc & Hin)]; rewrite Heq in *; simpl in *.
  - by left.
  - right. exists c. split; [done|]. by apply AIService_getEmptyCells_elem.
Qed.

Lemma nullCellsAmong_elem board among c :
  c ∈ AIService.nullCellsAmong board among -> board !! c = Some None.
Proof.
  intros [Hnull _]%list_elem_of_filter. by apply is_null_Some_None.
Qed.

Lemma pickAt_head board :
  AIService.getEmptyCells board <> [] ->
  exists c, pickAt (AIService.getEmptyCells board) 0 = Cell c
            /\ board !! c = Some None.
Proof.
  intros Hne. destruct (AIService.getEmptyCells board) as [|c rest] eqn:E;
    [done|].
  exists c. split; [done|]. apply AIService_getEmptyCells_elem.
  rewrite E. apply elem_of_cons. by left.
Qed.

Section Draws.

Variable g : Rng.

Hypothesis draws : validRng g.

Lemma randomElement_null board among i :
  (0 <? length (AIService.nullCellsAmong board among)) = true ->
  exists c,
    fst (randomElement (AIService.nullCellsAmong board among) g i) = Cell c
    /\ board !! c = Some None.
Proof using draws.
  intros Hpos.
  destruct (randomElement_in _ g i draws (length_pos_nonempty _ Hpos))
    as (c & Hc & Hin).
  exists c. split; [done|]. by eapply nullCellsAmong_elem.
Qed.

Lemma randomElement_empty board i :
  AIService.getEmptyCells board <> [] ->
  exists c,
    fst (randomElement (AIService.getEmptyCells board) g i) = Cell c
    /\ board !! c = Some None.
Proof using draws.
  intros Hne.
  destruct (randomElement_in _ g i draws Hne) as (c & Hc & Hin).
  exists c. split; [done|]. by apply AIService_getEmptyCells_elem.
Qed.

(** The strategic move is an empty cell whenever there is one. *)
Lemma strategicAfterOpening_pick board i :
  AIService.getEmptyCells board <> [] ->
  exists c,
    fst (fst (AIService.strategicAfterOpening board
                (AIService.getEmptyCells board) g i)) = Cell c
    /\ board !! c = Some None.
Proof using draws.
  intros Hne. unfold AIService.strategicAfterOpening.
  destruct (AIService.findForkMove board O) as [forkMove b] eqn:EO.
  apply findForkMove_pick in EO as [-> HO].
  destruct forkMove as [c| |].
  { destruct HO as [|(c' & [= <-] & Hc)]; [done|]. by exists c. }
  all: destruct (AIService.findForkMove board X) as [blockForkMove b] eqn:EX;
    apply findForkMove_pick in EX as [-> HX];
    (destruct blockForkMove as [c| |];
     [destruct HX as [|(c' & [= <-] & Hc)]; [done|]; by exists c|..]).
  all: destruct (is_null (board !! 4)) eqn:E4;
    [exists 4; split; [done|]; by apply is_null_Some_None|].
  all: unfold mbind, mret, Rand_bind, Rand_ret.
  all: destruct (0 <? length (AIService.nullCellsAmong board [0; 2; 6; 8]))
         eqn:Ecorners;
    [destruct (randomElement_null board [0; 2; 6; 8] i Ecorners)
       as (c & Hc & Hnull);
     exists c; split; [|done];
     by destruct (randomElement _ g i)|].
  all: destruct (0 <? length (AIService.nullCellsAmong board [1; 3; 5; 7]))
         eqn:Eedges;
    [destruct (randomElement_null board [1; 3; 5; 7] i Eedges)
       as (c & Hc & Hnull);
     exists c; split; [|done];
     by destruct (randomElement _ g i)|].
  all: by apply pickAt_head.
Qed.

Lemma getStrategicMove_pick board moveCount i :
  AIService.getEmptyCells board <> [] ->
  exists c,
    fst (fst (AIService.getStrategicMove board moveCount g i)) = Cell c
    /\ board !! c = Some None.
Proof using draws.
  intros Hne. unfold AIService.getStrategicMove.
  destruct (moveCount <=? 1); [|by apply strategicAfterOpening_pick].
  destruct (is_null (board !! 4)) eqn:E4;
    [exists 4; split; [done|]; by apply is_null_Some_None|].
  destruct (0 <? length (AIService.nullCellsAmong board [0; 2; 6; 8]))
    eqn:Ecorners; [|by apply strategicAfterOpening_pick].
  unfold mbind, mret, Rand_bind, Rand_ret.
  destruct (randomElement_null board [0; 2; 6; 8] i Ecorners)
    as (c & Hc & Hnull).
  exists c. split; [|done]. by destruct (randomElement _ g i).
Qed.

End Draws.

Lemma maximizingLoop_pick child beta cells board bestMove maxScore alpha
    p score b :
  AIService.maximizingLoop child beta cells board bestMove maxScore alpha
  = Some ((p, score), b) ->
  p = bestMove \/ exists c, p = Cell c /\ c ∈ cells.
Proof.
  revert board bestMove maxScore alpha.
  induction cells as [|move rest IH]; intros board bestMove maxScore alpha.
  - simpl. intros [= <- _ _]. by left.
  - simpl. destruct (child _ alpha) as [[[q s] board1]|]; [|done].
    assert ((if Num_ltb maxScore s then Cell move else bestMove) = bestMove
            \/ exists c, (if Num_ltb maxScore s then Cell move else bestMove)
                         = Cell c /\ c ∈ move :: rest) as Hhere.
    { destruct (Num_ltb maxScore s); [|by left].
      right. exists move. split; [done|]. apply elem_of_cons. by left. }
    destruct (Num_leb beta (Num_max alpha s)).
    + by intros [= <- _ _].
    + intros [->|(c & -> & Hc)]%IH; [done|].
      right. exists c. split; [done|]. apply elem_of_cons. by right.
Qed.

Lemma minimizingLoop_pick child alpha cells board bestMove minScore beta
    p score b :
  AIService.minimizingLoop child alpha cells board bestMove minScore beta
  = Some ((p, score), b) ->
  p = bestMove \/ exists c, p = Cell c /\ c ∈ cells.
Proof.
  revert board bestMove minScore beta.
  induction cells as [|move rest IH]; intros board bestMove minScore beta.
  - simpl. intros [= <- _ _]. by left.
  - simpl. destruct (child _ beta) as [[[q s] board1]|]; [|done].
    assert ((if Num_ltb s minScore then Cell move else bestMove) = bestMove
            \/ exists c, (if Num_ltb s minScore then Cell move else bestMove)
                         = Cell c /\ c ∈ move :: rest) as Hhere.
    { destruct (Num_ltb s minScore); [|by left].
      right. exists move. split; [done|]. apply elem_of_cons. by left. }
    destruct (Num_leb (Num_min beta s) alpha).
    + by intros [= <- _ _].
    + intros [->|(c & -> & Hc)]%IH; [done|].
      right. exists c. split; [done|]. apply elem_of_cons. by right.
Qed.

(** The move that the pruned search returns is [-1] or an empty cell. *)
Lemma minimaxWithPruning_pick fuel board depth isMaximizing alpha beta
    p score b :
  AIService.minimaxWithPruning fuel board depth isMaximizing alpha beta
  = Some ((p, score), b) ->
  emptyOrNone board p.
Proof.
  destruct fuel as [|fuel]; [done|]. simpl.
  destruct (winner_is _ O); [intros [= <- _ _]; by left|].
  destruct (winner_is _ X); [intros [= <- _ _]; by left|].
  destruct (winner_is_draw _); [intros [= <- _ _]; by left|].
  destruct isMaximizing.
  - intros [->|(c & -> & Hc)]%maximizingLoop_pick; [by left|].
    right. exists c. split; [done|]. by apply AIService_getEmptyCells_elem.
  - intros [->|(c & -> & Hc)]%minimizingLoop_pick; [by left|].
    right. exists c. split; [done|]. by apply AIService_getEmptyCells_elem.
Qed.


Section Tiers.

Variables (board : Board) (g : Rng).

Hypothesis draws : validRng g.

Hypothesis someEmpty : AIService.getEmptyCells board <> [].

Local Abbreviation emptyCell p :=
  (exists c, p = Cell c /\ board !! c = Some None).

(** Closes a branch of a tier: the move is a cell found by one of the
    searches, or a random pick among the empty cells. *)
Local Ltac close_branch :=
  cbn [fst snd AIService.position];
  first
    [ done
    | match goal with
      | H : _ = MinusOne \/ (exists c, _ = Cell c /\ _) |- exists c, ?p = Cell c /\ _ =>
          destruct H as [->|(c & -> & Hc)]; [done|by exists c]
      end
    | match goal with
      | |- context [randomElement (AIService.getEmptyCells board) g ?j] =>
          destruct (randomElement_empty g draws board j someEmpty)
            as (c & Hc & Hnull);
          destruct (randomElement (AIService.getEmptyCells board) g j);
          by exists c
      end
    | match goal with
      | |- context [AIService.getStrategicMove board ?n g ?j] =>
          destruct (getStrategicMove_pick g draws board n j someEmpty)
            as (c & Hc & Hnull);
          pose proof (getStrategicMove_board board n g j);
          destruct (AIService.getStrategicMove board n g j) as [[? ?] ?];
          simpl in *; subst; cbn [AIService.notMinusOne fst snd AIService.position];
          by exists c
      end
    | by apply pickAt_head ].

Lemma getEasyMove_pick i :
  emptyCell (AIService.position (fst (fst (AIService.getEasyMove board g i)))).
Proof using draws someEmpty.
  unfold AIService.getEasyMove.
  destruct (length (AIService.getEmptyCells board) =? 0) eqn:Elen.
  { by destruct (AIService.getEmptyCells board). }
  destruct (AIService.findWinningMove board O) as [winMove b] eqn:EO.
  apply AIService_findWinningMove_pick in EO as [-> HO].
  destruct (AIService.findWinningMove board X) as [blockMove b] eqn:EX.
  apply AIService_findWinningMove_pick in EX as [-> HX].
  unfold mbind, mret, Rand_bind, Rand_ret, random.
  destruct (AIService.notMinusOne winMove) eqn:Ewin;
    [destruct (Qltb (g i) 0.15)|];
    try close_branch;
    (destruct (AIService.notMinusOne blockMove) eqn:Eblock;
       [destruct (Qltb (g _) 0.4)|]);
    close_branch.
Qed.

Lemma getMediumMove_pick moveCount i :
  emptyCell
    (AIService.position
       (fst (fst (AIService.getMediumMove board moveCount g i)))).
Proof using draws someEmpty.
  unfold AIService.getMediumMove.
  destruct (length (AIService.getEmptyCells board) =? 0) eqn:Elen.
  { by destruct (AIService.getEmptyCells board). }
  destruct (AIService.findWinningMove board O) as [winMove b] eqn:EO.
  apply AIService_findWinningMove_pick in EO as [-> HO].
  destruct (AIService.findWinningMove board X) as [blockMove b] eqn:EX.
  apply AIService_findWinningMove_pick in EX as [-> HX].
  unfold mbind, mret, Rand_bind, Rand_ret, random.
  destruct (AIService.notMinusOne winMove) eqn:Ewin; [close_branch|].
  destruct (AIService.notMinusOne blockMove) eqn:Eblock;
    [destruct (Qltb (g _) 0.85); [close_branch|]|];
    (destruct (Qltb (g _) 0.6); [|close_branch]).
  all: match goal with
       | |- context [AIService.getStrategicMove board ?n g ?j] =>
           destruct (getStrategicMove_pick g draws board n j someEmpty)
             as (c & Hc & Hnull);
           pose proof (getStrategicMove_board board n g j) as Hboard;
           destruct (AIService.getStrategicMove board n g j)
             as [[strategicMove b] k]
       end; simpl in Hc, Hboard; subst; by exists c.
Qed.

Lemma getHardMove_pick moveCount i :
  exists aiMove,
    fst (AIService.getHardMove board moveCount g i) = Some (aiMove, board)
    /\ emptyCell (AIService.position aiMove).
Proof using draws someEmpty.
  destruct (getHardMove_returns board moveCount g i) as [aiMove Hmove].
  exists aiMove. split; [done|]. revert Hmove.
  destruct (hard_search_returns board) as [[bestPosition bestScore] Hsearch].
  pose proof (minimaxWithPruning_pick _ _ _ _ _ _ _ _ _ Hsearch) as Hbest.
  unfold AIService.getHardMove.
  destruct (length (AIService.getEmptyCells board) =? 0) eqn:Elen.
  { by destruct (AIService.getEmptyCells board). }
  destruct (AIService.findWinningMove board O) as [winMove b] eqn:EO.
  apply AIService_findWinningMove_pick in EO as [-> HO].
  destruct (AIService.findWinningMove board X) as [blockMove b] eqn:EX.
  apply AIService_findWinningMove_pick in EX as [-> HX].
  rewrite Hsearch.
  unfold mbind, mret, Rand_bind, Rand_ret, random.
  destruct (AIService.notMinusOne winMove) eqn:Ewin;
    [intros [= <-]; close_branch|].
  destruct (AIService.notMinusOne blockMove) eqn:Eblock;
    [destruct (Qltb (g _) 0.95); [intros [= <-]; close_branch|]|];
    (destruct (Qltb (g _) 0.9);
       [destruct (AIService.notMinusOne bestPosition) eqn:Ebest;
          [intros [= <-]; close_branch|]|]).
  all: match goal with
       | |- context [AIService.getStrategicMove board ?n g ?j] =>
           destruct (getStrategicMove_pick g draws board n j someEmpty)
             as (c & Hc & Hnull);
           pose proof (getStrategicMove_board board n g j) as Hboard;
           destruct (AIService.getStrategicMove board n g j)
             as [[strategicMove b] k]
       end; simpl in Hc, Hboard; subst; simpl; intros [= <-]; by exists c.
Qed.

End Tiers.

End ServiceMoves.

(** X5.  [AIService.getMove] returns a move at every difficulty, on
    every board and for all draws, and the board it wrote its candidate
    moves into holds the same cells afterwards as before.  The move is
    [-1] when the board has no empty cell, and for draws in [[0, 1)] it
    is the index of an empty cell whenever the board has one. *)
Theorem getMove_chooses_empty_cell (difficulty : Difficulty) (board : Board)
    (moveCount : nat) (g : Rng) (i : nat) :
  exists aiMove,
    fst (AIService.getMove difficulty board moveCount g i)
    = Some (aiMove, board)
    /\ ((forall c, board !! c <> Some None) ->
        AIService.position aiMove = MinusOne)
    /\ (validRng g ->
        forall c0, board !! c0 = Some None ->
        exists c, AIService.position aiMove = Cell c
                  /\ board !! c = Some None).
Proof.
  destruct (getMove_returns difficulty board moveCount g i) as [aiMove Hmove].
  exists aiMove. split; [done|]. split.
  - intros Hfull.
    assert (AIService.getEmptyCells board = []) as Hnil.
    { destruct (AIService.getEmptyCells board) as [|c rest] eqn:E; [done|].
      destruct (Hfull c). apply AIService_getEmptyCells_elem.
      rewrite E. apply elem_of_cons. by left. }
    revert Hmove.
    unfold AIService.getMove, AIService.getEasyMove, AIService.getMediumMove,
      AIService.getHardMove, mbind, mret, Rand_bind, Rand_ret.
    rewrite Hnil. destruct difficulty; simpl; by intros [= <-].
  - intros Hg c0 Hc0.
    assert (AIService.getEmptyCells board <> []) as Hne.
    { intros Hnil. apply AIService_getEmptyCells_elem in Hc0.
      rewrite Hnil in Hc0. by apply elem_of_nil in Hc0. }
    revert Hmove. unfold AIService.getMove, mbind, mret, Rand_bind, Rand_ret.
    destruct difficulty.
    + pose proof (getEasyMove_pick board g Hg Hne i) as Hpick.
      destruct (AIService.getEasyMove board g i) as [[r b] j].
      simpl in *. by intros [= <-].
    + pose proof (getMediumMove_pick board g Hg Hne moveCount i) as Hpick.
      destruct (AIService.getMediumMove board moveCount g i) as [[r b] j].
      simpl in *. by intros [= <-].
    + destruct (getHardMove_pick board g Hg Hne moveCount i)
        as (r & Hr & Hpick).
      rewrite Hr. by intros [= <-].
Qed.

Lemma getMove_chooses_empty_cell_witness :
  exists aiMove,
    fst (AIService.getMove easy boardWithFreeWin 5 (fun _ => 0.5%Q) 0)
    = Some (aiMove, boardWithFreeWin)
    /\ exists c, AIService.position aiMove = Cell c
                 /\ boardWithFreeWin !! c = Some None.
Proof.
  destruct (getMove_chooses_empty_cell easy boardWithFreeWin 5
              (fun _ => 0.5%Q) 0) as (aiMove & Hmove & _ & Hcell).
  exists aiMove. split; [exact Hmove|].
  exact (Hcell (fun _ => conj (Qle_bool_imp_le 0 0.5 eq_refl) eq_refl) 2
           eq_refl).
Defined.

(** ** The calibrator's records *)

Section CalibratorRecords.

Import AIPersonalityService.

Lemma soundStats_defaultStats : soundStats defaultStats.
Proof. repeat split; done. Qed.

Lemma rate_fraction (wins total : Z) :
  (0 <= wins <= total)%Z -> (0 < total)%Z ->
  (0 <= inject_Z wins / inject_Z total)%Q
  /\ (inject_Z wins / inject_Z total <= 1)%Q.
Proof.
  intros [Hlo Hhi] Hpos.
  assert (0 < inject_Z total)%Q as Hq.
  { change 0%Q with (inject_Z 0). by rewrite <- Zlt_Qlt. }
  split.
  - apply Qle_shift_div_l; [done|]. rewrite Qmult_0_l.
    change 0%Q with (inject_Z 0). by rewrite <- Zle_Qle.
  - apply Qle_shift_div_r; [done|]. rewrite Qmult_1_l.
    by rewrite <- Zle_Qle.
Qed.

Lemma recordGameResult_sound d w ls :
  soundStats (getStats d ls) ->
  soundStats (getStats d (recordGameResult d w ls)).
Proof.
  intros (Ha & Hp & Hd & Ht & _).
  unfold getStats at 1, recordGameResult.
  assert ((0 <? totalGames (getStats d ls) + 1)%Z = true) as Epos
    by (apply Z.ltb_lt; lia).
  destruct w as [[]|]; simpl; rewrite lookup_insert_eq, Epos;
    (split; [simpl; lia|]); (split; [simpl; lia|]); (split; [simpl; lia|]);
    (split; [simpl; lia|]); apply rate_fraction; lia.
Qed.

Lemma recorded_sound ls :
  recorded ls -> forall d, soundStats (getStats d ls).
Proof.
  induction 1 as [|d w ls Hrec IH|d ls Hrec IH]; intros d'.
  - unfold getStats. rewrite lookup_empty. apply soundStats_defaultStats.
  - destruct (decide (d' = d)) as [->|Hne].
    + by apply recordGameResult_sound.
    + assert (key d <> key d') as Hkey by (by destruct d, d').
      unfold getStats at 1, recordGameResult.
      destruct w as [[]|]; simpl;
        rewrite lookup_insert_ne by done; apply (IH d').
  - unfold getStats at 1. destruct d as [d|]; simpl.
    + destruct (decide (d' = d)) as [->|Hne].
      * rewrite lookup_delete_eq. apply soundStats_defaultStats.
      * assert (key d <> key d') as Hkey by (by destruct d, d').
        rewrite lookup_delete_ne by done. apply (IH d').
    + destruct d'; simpl;
        repeat first [ rewrite lookup_delete_eq
                     | rewrite lookup_delete_ne by done ];
        apply soundStats_defaultStats.
Qed.

Lemma key_inj d d' : key d = key d' -> d = d'.
Proof. by destruct d, d'. Qed.

End CalibratorRecords.

(** X6.  In every store that the calibrator produced, the stats of every
    difficulty add up: no counter is negative, the games played are the
    AI's wins plus the player's wins plus the draws, and the win rate is
    between 0 and 1. *)
Theorem recorded_stats_add_up (ls : AIPersonalityService.LocalStorage)
    (d : Difficulty) :
  AIPersonalityService.recorded ls ->
  let s := AIPersonalityService.getStats d ls in
  (0 <= AIPersonalityService.aiWins s)%Z
  /\ (0 <= AIPersonalityService.playerWins s)%Z
  /\ (0 <= AIPersonalityService.draws s)%Z
  /\ AIPersonalityService.totalGames s
     = (AIPersonalityService.aiWins s + AIPersonalityService.playerWins s
        + AIPersonalityService.draws s)%Z
  /\ (0 <= AIPersonalityService.winRate s)%Q
  /\ (AIPersonalityService.winRate s <= 1)%Q.
Proof. intros Hrec. by apply recorded_sound. Qed.

Lemma recorded_stats_add_up_witness :
  AIPersonalityService.totalGames
    (AIPersonalityService.getStats hard
       (AIPersonalityService.recordGameResult hard WDraw
          (AIPersonalityService.recordGameResult hard (WMark O) ∅)))
  = (AIPersonalityService.aiWins
       (AIPersonalityService.getStats hard
          (AIPersonalityService.recordGameResult hard WDraw
             (AIPersonalityService.recordGameResult hard (WMark O) ∅)))
     + AIPersonalityService.playerWins
         (AIPersonalityService.getStats hard
            (AIPersonalityService.recordGameResult hard WDraw
               (AIPersonalityService.recordGameResult hard (WMark O) ∅)))
     + AIPersonalityService.draws
         (AIPersonalityService.getStats hard
            (AIPersonalityService.recordGameResult hard WDraw
               (AIPersonalityService.recordGameResult hard (WMark O) ∅))))%Z.
Proof.
  destruct (recorded_stats_add_up
              (AIPersonalityService.recordGameResult hard WDraw
                 (AIPersonalityService.recordGameResult hard (WMark O) ∅))
              hard) as (_ & _ & _ & Hsum & _).
  - apply AIPersonalityService.recorded_result,
      AIPersonalityService.recorded_result,
      AIPersonalityService.recorded_empty.
  - exact Hsum.
Defined.

(** X7.  The calibrator keeps its records per difficulty: recording a
    game or resetting the stats of one difficulty leaves the stats of
    the other difficulties as they were, and after a reset the stats
    read for the difficulty reset (for every difficulty, when all are
    reset) are the default ones, with no game played. *)
Theorem calibrator_records_per_difficulty (d d' : Difficulty) (w : Winner)
    (ls : AIPersonalityService.LocalStorage) :
  (d <> d' ->
   AIPersonalityService.getStats d'
     (AIPersonalityService.recordGameResult d w ls)
   = AIPersonalityService.getStats d' ls
   /\ AIPersonalityService.getStats d'
        (AIPersonalityService.resetStats (Some d) ls)
      = AIPersonalityService.getStats d' ls)
  /\ AIPersonalityService.getStats d
       (AIPersonalityService.resetStats (Some d) ls)
     = AIPersonalityService.defaultStats
  /\ AIPersonalityService.getStats d (AIPersonalityService.resetStats None ls)
     = AIPersonalityService.defaultStats
  /\ AIPersonalityService.totalGames AIPersonalityService.defaultStats = 0%Z.
Proof.
  split; [|split; [|split; [|done]]].
  - intros Hne.
    assert (AIPersonalityService.key d <> AIPersonalityService.key d') as Hkey
      by (by intros ?%key_inj).
    split.
    + unfold AIPersonalityService.getStats,
        AIPersonalityService.recordGameResult.
      destruct w as [[]|]; simpl; by rewrite lookup_insert_ne.
    + unfold AIPersonalityService.getStats, AIPersonalityService.resetStats.
      by rewrite lookup_delete_ne.
  - unfold AIPersonalityService.getStats, AIPersonalityService.resetStats.
    by rewrite lookup_delete_eq.
  - unfold AIPersonalityService.getStats, AIPersonalityService.resetStats.
    destruct d; simpl;
      repeat first [ rewrite lookup_delete_eq
                   | rewrite lookup_delete_ne by done ]; done.
Qed.

Lemma calibrator_records_per_difficulty_witness :
  AIPersonalityService.getStats hard
    (AIPersonalityService.recordGameResult easy (WMark X) ∅)
  = AIPersonalityService.getStats hard ∅.
Proof.
  destruct (calibrator_records_per_difficulty easy hard (WMark X) ∅)
    as [Hother _].
  destruct Hother as [Hrecord _]; [done|]. exact Hrecord.
Defined.

(** The numbers of the literals, and the cases at up to 100 games. *)
Lemma tenth_number : Binary64.ofQ 0.1 = tenth.
Proof. vm_compute. reflexivity. Qed.

Lemma target_number (d : Difficulty) :
  Binary64.ofQ
    (AIPersonalityService.targetWinRate (AIPersonalityService.personalities d))
  = targetNumber d.
Proof. destruct d; vm_compute; reflexivity. Qed.

Lemma cases_checked : casesAgreeUpTo 100 = true.
Proof. vm_compute. reflexivity. Qed.

Lemma casesAgree_upTo (n aiWins games : nat) :
  casesAgreeUpTo n = true ->
  1 <= games <= n -> aiWins <= games ->
  forall d,
    casesAgreeAt
      (Binary64.ofQ (inject_Z (Z.of_nat aiWins) / inject_Z (Z.of_nat games)))
      (targetNumber d) = true.
Proof.
  intros Hall Hgames Hwins d. unfold casesAgreeUpTo in Hall.
  rewrite forallb_forall in Hall.
  specialize (Hall games ltac:(apply in_seq; lia)).
  rewrite forallb_forall in Hall.
  specialize (Hall aiWins ltac:(apply in_seq; lia)).
  unfold casesAgree in Hall. rewrite forallb_forall in Hall.
  apply Hall. destruct d; simpl; auto.
Qed.



(** ** The states of the game screen *)

Section Screen.

Import GameBoard.

Variables (props : Props) (ls : AIPersonalityService.LocalStorage).

Implicit Types (s : State) (b : Board) (h : list Board).

Lemma no_winner_no_line b :
  winner (checkWinner b) = None -> line (checkWinner b) = None.
Proof.
  unfold checkWinner. destruct (scan b lines) as [r|] eqn:Escan.
  - apply scan_Some in Escan as (before & L & after & HL & _ & Hwins & ->).
    assert (L ∈ lines) as HLin.
    { rewrite HL. apply elem_of_app. right. apply elem_of_cons. by left. }
    destruct (lines_triples L HLin) as (a & b' & c & ->).
    simpl. unfold lineWins in Hwins.
    by destruct (b !! a) as [[?|]|].
  - by destruct (everyNotNull b).
Qed.

Lemma Forall_removelast {A} (P : A -> Prop) (l : list A) :
  Forall P l -> Forall P (removelast l).
Proof.
  destruct (last l) as [x|] eqn:El.
  - apply last_Some in El as [l' ->]. rewrite removelast_last.
    by intros [? _]%Forall_app.
  - apply last_None in El as ->. done.
Qed.

Lemma last_removelast_inv {A} (l : list A) (x : A) :
  last (removelast l) = Some x -> x ∈ removelast l.
Proof. apply last_Some_elem_of. Qed.

Lemma isSingle_false : gameMode props <> single -> isSingle props = false.
Proof. intros H. unfold isSingle. by apply bool_decide_eq_false. Qed.

Implicit Types (p : list GameScreen.Callback) (sc : GameScreen.Screen).

Local Abbreviation inv := (GameScreen.screenInvariant props ls).
Local Abbreviation scr := GameScreen.mkScreen.

(** With the values of the state they run in, the callbacks of the
    timers are [startTimer] and the tick of the turn controller. *)
Lemma startTimerOf_live s :
  GameScreen.startTimerOf props (gameResult s) (isAiThinking s)
    (currentPlayer s) s
  = startTimer props s.
Proof. reflexivity. Qed.

Lemma timerTick_live s :
  GameScreen.timerTick props (gameResult s) (currentPlayer s) s
  = timerTick props s.
Proof. reflexivity. Qed.

Lemma invariant_initial : inv (scr (initialState props ls) []).
Proof.
  unfold GameScreen.screenInvariant.
  split_and!; simpl; try done; try lia. repeat constructor.
Qed.

(** Changes that touch only the timer, the player to move or the
    strategy keep the invariant. *)
Lemma invariant_frame s s' p :
  board s' = board s -> moveHistory s' = moveHistory s ->
  gameResult s' = gameResult s -> winningLine s' = winningLine s ->
  isAiThinking s' = isAiThinking s ->
  localStorage s' = localStorage s ->
  (0 <= turnTimeLeft s' <= TURN_TIME_LIMIT)%Z ->
  isTimerRunning s' = timerRef s' ->
  inv (scr s p) -> inv (scr s' p).
Proof.
  intros Hb Hh Hr Hw Ht Hl Htime Htimer
    (H1 & H2 & H3 & H4 & _ & _ & H7).
  unfold GameScreen.screenInvariant in *. cbn [GameScreen.state GameScreen.pending] in *.
  rewrite Hb, Hh, Hr, Hw, Ht, Hl. done.
Qed.

Lemma invariant_stopTimer s p :
  inv (scr s p) -> inv (scr (stopTimer s) p).
Proof.
  intros Hinv. apply (invariant_frame s); try done.
  by destruct Hinv as (_ & _ & _ & _ & ? & _).
Qed.

Lemma invariant_startTimerOf s p gameResult0 isAiThinking0 currentPlayer0 :
  inv (scr s p) ->
  inv (scr (GameScreen.startTimerOf props gameResult0 isAiThinking0
              currentPlayer0 s) p).
Proof.
  intros Hinv. unfold GameScreen.startTimerOf.
  destruct (_ || _ || _); [done|].
  by apply (invariant_frame s).
Qed.

Lemma invariant_handleTimeUpOf s p gameResult0 currentPlayer0 :
  inv (scr s p) ->
  inv (scr (GameScreen.handleTimeUpOf props gameResult0 currentPlayer0 s) p).
Proof.
  intros Hinv. pose proof Hinv as (_ & _ & _ & _ & Htime & _).
  unfold GameScreen.handleTimeUpOf.
  destruct (isOverResult gameResult0); [by apply invariant_stopTimer|].
  destruct (isSingle props && _); by apply (invariant_frame s).
Qed.

Lemma invariant_timerTick s p gameResult0 currentPlayer0 :
  inv (scr s p) ->
  inv (scr (GameScreen.timerTick props gameResult0 currentPlayer0 s) p).
Proof.
  intros Hinv. pose proof Hinv as (_ & _ & _ & _ & Htime & Htimer & _).
  simpl in Htime, Htimer.
  unfold GameScreen.timerTick. destruct (timerRef s) eqn:Eref; [|done].
  destruct (turnTimeLeft s <=? 1)%Z eqn:Eleft.
  - apply (invariant_frame
             (GameScreen.handleTimeUpOf props gameResult0 currentPlayer0 s));
      try done; try (by apply invariant_handleTimeUpOf).
    unfold GameScreen.handleTimeUpOf, stopTimer.
    destruct (isOverResult gameResult0); [done|].
    by destruct (isSingle props && _).
  - apply Z.leb_gt in Eleft.
    apply (invariant_frame s); try done; simpl; [|congruence].
    unfold TURN_TIME_LIMIT in *. lia.
Qed.

Lemma invariant_aiTurnEffect sc :
  inv sc -> inv (GameScreen.aiTurnEffect props sc).
Proof.
  destruct sc as [s p]. intros Hinv.
  pose proof Hinv as (H1 & H2 & H3 & H4 & [H5 H5'] & H6 & H7).
  cbn [GameScreen.state GameScreen.pending] in *.
  unfold GameScreen.aiTurnEffect. simpl. destruct (_ || _); [done|].
  destruct (isSingle props) eqn:Es; simpl; [|done].
  destruct (Mark_eqb _ _); [|done].
  unfold GameScreen.screenInvariant, stopTimer. simpl.
  split_and!; try done.
  - apply Forall_app. split; [done|]. by constructor.
  - intros Hmode; apply isSingle_false in Hmode; congruence.
Qed.

Lemma invariant_triggerAiMove s before after currentBoard flag :
  inv (scr s (before ++ GameScreen.Trigger currentBoard flag :: after)) ->
  inv (scr (GameScreen.triggerAiMove s)
         (before ++ after ++ [GameScreen.Move currentBoard flag])).
Proof.
  intros (H1 & H2 & H3 & H4 & [H5 H5'] & H6 & H7). cbn [GameScreen.state GameScreen.pending] in *.
  apply Forall_app in H4 as [Hbefore [Hb Hafter]%Forall_cons].
  unfold GameScreen.screenInvariant, GameScreen.triggerAiMove, stopTimer.
  simpl. split_and!; try done.
  - apply Forall_app. split; [done|]. apply Forall_app. split; [done|].
    by constructor.
  - intros Hmode. destruct (H7 Hmode) as (_ & _ & _ & _ & Hp & _).
    by destruct before.
Qed.

(** A new board is shown: it is appended to the history, and the game
    ends or goes on with the player [next]. *)
Lemma invariant_place s p newBoard next :
  length newBoard = 9 ->
  gameResult s = None ->
  inv (scr s p) ->
  inv (scr
         (let s := set_moveHistory (moveHistory s ++ [newBoard])
                     (set_board newBoard s) in
          match winner (checkWinner newBoard) with
          | Some w => finishGame props w (line (checkWinner newBoard)) s
          | None => set_currentPlayer next s
          end) p).
Proof.
  intros Hlen Hres (H1 & H2 & H3 & H4 & [H5 H5'] & H6 & H7). cbn [GameScreen.state GameScreen.pending] in *.
  assert (Forall (fun b => length b = 9) (moveHistory s ++ [newBoard])) as Hh.
  { apply Forall_app. split; [done|]. by constructor. }
  assert (gameMode props <> single ->
          Forall (fun b => winner (checkWinner b) = None) (moveHistory s))
    as Hall.
  { intros Hmode. destruct (H7 Hmode) as (Hr & _ & Hold & _).
    apply last_Some in H2 as [h' Hh']. rewrite Hh' in Hold |- *.
    rewrite removelast_last in Hold. apply Forall_app. split; [done|].
    constructor; [|done]. congruence. }
  unfold GameScreen.screenInvariant.
  destruct (winner (checkWinner newBoard)) as [w|] eqn:Ew.
  - unfold finishGame. destruct (isSingle props) eqn:Es.
    + split_and!; simpl; try done; try by rewrite last_snoc.
      intros Hmode; apply isSingle_false in Hmode; congruence.
    + split_and!; simpl; try done; try by rewrite last_snoc.
      intros Hmode. destruct (H7 Hmode) as (Hr & Hw & Hold & Ht & Ha & Hl).
      rewrite removelast_last. split_and!; try done. by apply Hall.
  - split_and!; simpl; try done; try by rewrite last_snoc.
    intros Hmode. destruct (H7 Hmode) as (Hr & Hw & Hold & Ht & Ha & Hl).
    rewrite removelast_last. split_and!; try done.
    + congruence.
    + rewrite (no_winner_no_line _ Ew). rewrite Hw.
      apply no_winner_no_line. congruence.
    + by apply Hall.
Qed.

Lemma invariant_handleCellClick s p index :
  inv (scr s p) -> inv (scr (handleCellClick props index s) p).
Proof.
  intros Hinv. unfold handleCellClick.
  destruct (truthy _ || isOverResult (gameResult s) || isAiThinking s)
    eqn:Eguard; [done|].
  apply orb_false_iff in Eguard as [[_ Hres]%orb_false_iff _].
  assert (gameResult s = None) as Hnone by (by destruct (gameResult s)).
  pose proof (invariant_stopTimer s p Hinv) as Hinv'.
  pose proof Hinv as (H1 & _). simpl in H1.
  destruct (isSingle props && _);
    apply (invariant_place (stopTimer s)); try done;
    by rewrite length_insert.
Qed.

(** The callback of the thinking delay shows the board it was given
    with the AI's mark, whatever the board of the state is. *)
Lemma invariant_applyAiMove s before after currentBoard flag aiMove :
  inv (scr s (before ++ GameScreen.Move currentBoard flag :: after)) ->
  inv (scr (applyAiMove props currentBoard aiMove s) (before ++ after)).
Proof.
  intros Hinv.
  pose proof Hinv as (H1 & H2 & H3 & H4 & [H5 H5'] & H6 & H7). cbn [GameScreen.state GameScreen.pending] in *.
  apply Forall_app in H4 as [Hbefore [Hb Hafter]%Forall_cons]. simpl in Hb.
  assert (Forall (fun cb => length (GameScreen.callbackBoard cb) = 9)
            (before ++ after)) as Hrest.
  { apply Forall_app. by split. }
  assert (gameMode props = single) as Hmode.
  { destruct (decide (gameMode props = single)) as [|Hne]; [done|].
    destruct (H7 Hne) as (_ & _ & _ & _ & Hp & _). by destruct before. }
  assert (forall s', inv (scr s' (before ++ after)) ->
            inv (scr (set_aiTimeout None (set_isAiThinking false s'))
                   (before ++ after))) as Hdone.
  { intros s' (G1 & G2 & G3 & G4 & [G5 G5'] & G6 & G7).
    unfold GameScreen.screenInvariant. cbn [GameScreen.state GameScreen.pending] in *.
    split_and!; try done; try (intros Hne; by destruct Hne). }
  unfold applyAiMove. apply Hdone.
  assert (length (writePick aiMove (Some (aiSymbol props)) currentBoard) = 9)
    as Hlen.
  { destruct aiMove; simpl; rewrite ?length_insert; done. }
  assert (inv (scr s (before ++ after))) as Hkept.
  { unfold GameScreen.screenInvariant. simpl.
    split_and!; try done; try (intros Hne; by destruct Hne). }
  assert (forall s', board s' = writePick aiMove (Some (aiSymbol props))
                                  currentBoard ->
            moveHistory s' = moveHistory s
                             ++ [writePick aiMove (Some (aiSymbol props))
                                   currentBoard] ->
            turnTimeLeft s' = turnTimeLeft s ->
            isTimerRunning s' = isTimerRunning s -> timerRef s' = timerRef s ->
            inv (scr s' (before ++ after))) as Hplaced.
  { intros s' Hb' Hh Ht Hr Href. unfold GameScreen.screenInvariant. simpl.
    rewrite Hb', Hh, Ht, Hr, Href, last_snoc.
    split_and!; try done; try (intros Hne; by destruct Hne).
    apply Forall_app. split; [done|]. by constructor. }
  destruct aiMove as [c| |]; [|done|].
  - cbn [writePick] in *.
    match goal with
    | |- context [finishGame props _ (line (checkWinner ?b))] =>
        destruct (winner (checkWinner b)) as [w|]; [|by apply Hplaced]
    end.
    unfold finishGame. destruct (isSingle props); by apply Hplaced.
  - cbn [writePick] in *.
    match goal with
    | |- context [finishGame props _ (line (checkWinner ?b))] =>
        destruct (winner (checkWinner b)) as [w|]; [|by apply Hplaced]
    end.
    unfold finishGame. destruct (isSingle props); by apply Hplaced.
Qed.

Lemma invariant_undoMove s p :
  inv (scr s p) -> inv (scr (undoMove props s) p).
Proof.
  intros Hinv. unfold undoMove.
  destruct ((length (moveHistory s) <=? 1) || isOverResult (gameResult s)
            || isAiThinking s) eqn:Eguard; [done|].
  apply orb_false_iff in Eguard as [[_ Hres]%orb_false_iff _].
  assert (gameResult s = None) as Hnone by (by destruct (gameResult s)).
  pose proof (invariant_stopTimer s p Hinv) as Hinv'.
  destruct Hinv as (H1 & H2 & H3 & H4 & [H5 H5'] & H6 & H7). cbn [GameScreen.state GameScreen.pending] in *.
  set (newHistory :=
         if isSingle props && (1 <? length (pop (moveHistory (stopTimer s))))
         then pop (pop (moveHistory (stopTimer s)))
         else pop (moveHistory (stopTimer s))).
  destruct (last newHistory) as [previousBoard|] eqn:Elast; [|done].
  assert (Forall (fun b => length b = 9) newHistory) as Hall.
  { unfold newHistory, pop. simpl.
    destruct (isSingle props && _); repeat apply Forall_removelast; done. }
  assert (previousBoard ∈ newHistory) as Hin by (by apply last_Some_elem_of).
  unfold GameScreen.screenInvariant.
  split_and!; simpl; try done; try (unfold TURN_TIME_LIMIT; lia).
  - rewrite Forall_forall in Hall. by apply Hall.
  - intros Hmode. destruct (H7 Hmode) as (Hr & Hw & Hold & Ht & Ha & Hl).
    unfold newHistory in Hin |- *. rewrite (isSingle_false Hmode) in Hin |- *.
    simpl in Hin |- *. rewrite Forall_forall in Hold.
    pose proof (Hold _ Hin) as Hprev.
    split_and!; try done.
    + congruence.
    + rewrite Hw. rewrite !no_winner_no_line; [done..|congruence].
    + apply Forall_removelast. by apply Forall_forall.
Qed.

Lemma invariant_resetGame s p g i :
  inv (scr s p) -> inv (scr (fst (resetGame props s g i)) p).
Proof.
  intros (H1 & H2 & H3 & H4 & [H5 H5'] & H6 & H7). cbn [GameScreen.state GameScreen.pending] in *.
  unfold resetGame, mbind, mret, Rand_bind, Rand_ret.
  unfold GameScreen.screenInvariant.
  destruct (isSingle props) eqn:Es.
  - destruct (AIPersonalityService.shouldAITryToWin _ _ g i) as [flag j].
    split_and!; simpl; try done; try (unfold TURN_TIME_LIMIT; lia).
    + repeat constructor.
    + intros Hmode; apply isSingle_false in Hmode; congruence.
  - split_and!; simpl; try done; try (unfold TURN_TIME_LIMIT; lia).
    + repeat constructor.
    + intros Hmode. destruct (H7 Hmode) as (Hr & Hw & Hold & Ht & Ha & Hl).
      split_and!; done.
Qed.

End Screen.

(** X9.  In every state that the game screen reaches - by clicks on the
    nine cells, the turn timer, the effect of the AI's turn and the
    callbacks of its two timeouts, undo and reset, in any order, with
    any number of callbacks pending and for any draws - the board has
    nine cells and is the last entry of the move history, every board of
    the history and every board that a pending callback was given have
    nine cells, the time left is between 0 and the limit of 3 seconds,
    and the timer is marked running exactly when its interval is
    installed.  In a game of two players moreover the stored result and
    winning line are those of the winner evaluation on the board, every
    earlier board of the history is a position in progress, the AI is
    never thinking, no callback is pending, and the calibrator's storage
    is as it was when the screen was mounted. *)
Theorem screen_invariant (props : GameBoard.Props)
    (ls : AIPersonalityService.LocalStorage) (sc : GameScreen.Screen) :
  GameScreen.screenState props ls sc ->
  GameScreen.screenInvariant props ls sc.
Proof.
  induction 1 as [|s p g i Hmode Hs IH|s p index Hindex Hs IH
                  |s p gameResult0 isAiThinking0 currentPlayer0 Hs IH
                  |s p gameResult0 currentPlayer0 Hs IH|sc Hs IH
                  |s before after currentBoard flag Hs IH
                  |s before after currentBoard flag g i s' Hs IH Hfires
                  |s p Hs IH|s p g i Hs IH].
  - apply invariant_initial.
  - pose proof IH as (_ & _ & _ & _ & ? & ? & _).
    by apply (invariant_frame props ls s).
  - by apply invariant_handleCellClick.
  - by apply invariant_startTimerOf.
  - by apply invariant_timerTick.
  - by apply invariant_aiTurnEffect.
  - by apply invariant_triggerAiMove.
  - revert Hfires. unfold GameScreen.aiMoveFires.
    unfold mbind, mret, Rand_bind, Rand_ret.
    destruct (GameBoard.getAiMove _ _ _ _ _ g i) as [[aiMove|] j]; [|done].
    simpl. intros [= <-]. by eapply invariant_applyAiMove.
  - by apply invariant_undoMove.
  - by apply invariant_resetGame.
Qed.

Lemma screen_invariant_witness :
  let props := GameBoard.mkProps single easy false in
  let scheduled :=
    GameScreen.aiTurnEffect props
      (GameScreen.mkScreen (GameBoard.initialState props ∅) []) in
  let restarted :=
    GameScreen.mkScreen
      (fst (GameBoard.resetGame props (GameScreen.state scheduled)
              (fun _ => 0.5%Q) 0))
      (GameScreen.pending scheduled) in
  GameScreen.pending (GameScreen.aiTurnEffect props restarted)
  = [GameScreen.Trigger emptyBoard true; GameScreen.Trigger emptyBoard false]
  /\ GameScreen.screenInvariant props ∅
       (GameScreen.aiTurnEffect props restarted).
Proof.
  cbv zeta. split; [vm_compute; reflexivity|].
  apply screen_invariant.
  apply GameScreen.screen_aiTurn.
  apply GameScreen.screen_reset.
  exact (GameScreen.screen_aiTurn _ _
           (GameScreen.mkScreen
              (GameBoard.initialState (GameBoard.mkProps single easy false) ∅)
              [])
           (GameScreen.screen_mounted _ _)).
Defined.

(** ** Moves on the game screen *)

(** X10.  A click on the game screen is refused, and the state is left
    as it is, when the cell holds a mark, the game is over or the AI is
    thinking.  A click on an empty cell of a running game places the
    mark of the player to move on that cell and on no other, appends the
    board to the history and stops the turn timer; when the winner
    evaluation reports a result it is stored and - against the AI only -
    recorded by the calibrator, and otherwise the turn passes to the
    other mark and the storage is untouched. *)
Theorem handleCellClick_places_mark (props : GameBoard.Props)
    (s : GameBoard.State) (index : nat) :
  let s' := GameBoard.handleCellClick props index s in
  ((exists m, GameBoard.board s !! index = Some (Some m))
   \/ GameBoard.gameResult s <> None
   \/ GameBoard.isAiThinking s = true ->
   s' = s)
  /\ (GameBoard.board s !! index = Some None ->
      GameBoard.gameResult s = None ->
      GameBoard.isAiThinking s = false ->
      let r := GameBoard.checkWinner (GameBoard.board s') in
      GameBoard.board s' !! index = Some (Some (GameBoard.currentPlayer s))
      /\ (forall j, j <> index ->
          GameBoard.board s' !! j = GameBoard.board s !! j)
      /\ GameBoard.moveHistory s'
         = GameBoard.moveHistory s ++ [GameBoard.board s']
      /\ GameBoard.timerRef s' = false
      /\ GameBoard.gameResult s' = winner r
      /\ (winner r = None ->
          GameBoard.currentPlayer s' = otherMark (GameBoard.currentPlayer s)
          /\ GameBoard.localStorage s' = GameBoard.localStorage s)
      /\ (forall w, winner r = Some w ->
          GameBoard.winningLine s' = line r
          /\ GameBoard.currentPlayer s' = GameBoard.currentPlayer s
          /\ GameBoard.localStorage s'
             = if bool_decide (GameBoard.gameMode props = single)
               then AIPersonalityService.recordGameResult
                      (GameBoard.difficulty props) w
                      (GameBoard.localStorage s)
               else GameBoard.localStorage s)).
Proof.
  intros s'. split.
  - intros Hrefused. unfold s', GameBoard.handleCellClick.
    destruct Hrefused as [[m ->]|[Hover| ->]]; [done| |].
    + destruct (GameBoard.gameResult s); [|done].
      by rewrite orb_true_r.
    + by rewrite orb_true_r.
  - intros Hempty Hrunning Hidle r.
    assert (index < length (GameBoard.board s)) as Hlt
      by (by eapply lookup_lt_Some).
    unfold r, s', GameBoard.handleCellClick.
    rewrite Hempty, Hrunning, Hidle. cbn [truthy isOverResult orb].
    set (newBoard := <[index := _]> _).
    destruct (winner (GameBoard.checkWinner newBoard)) as [w|] eqn:Ew.
    + unfold GameBoard.finishGame, GameBoard.isSingle.
      destruct (bool_decide (GameBoard.gameMode props = single)); simpl;
        fold newBoard; rewrite Ew;
        (split_and!; try done;
         try (by apply list_lookup_insert_eq);
         try (by intros j Hj; apply list_lookup_insert_ne);
         try (by intros w' [= <-])).
    + assert (GameBoard.currentPlayer
                (if GameBoard.isSingle props
                    && Mark_eqb (GameBoard.currentPlayer (GameBoard.stopTimer s))
                         (GameBoard.humanSymbol props)
                 then GameBoard.set_currentPlayer (GameBoard.aiSymbol props)
                        (GameBoard.set_moveHistory
                           (GameBoard.moveHistory (GameBoard.stopTimer s)
                            ++ [newBoard])
                           (GameBoard.set_board newBoard
                              (GameBoard.stopTimer s)))
                 else GameBoard.set_currentPlayer
                        (otherMark
                           (GameBoard.currentPlayer (GameBoard.stopTimer s)))
                        (GameBoard.set_moveHistory
                           (GameBoard.moveHistory (GameBoard.stopTimer s)
                            ++ [newBoard])
                           (GameBoard.set_board newBoard
                              (GameBoard.stopTimer s))))
              = otherMark (GameBoard.currentPlayer s)) as Hnext.
      { destruct (GameBoard.isSingle props); simpl; [|done].
        destruct (Mark_eqb _ _) eqn:Eh; simpl; [|done].
        apply Mark_eqb_eq in Eh. rewrite Eh. apply aiSymbol_other. }
      destruct (GameBoard.isSingle props && _); simpl in *;
        fold newBoard; rewrite Ew;
        (split_and!; try done;
         try (by apply list_lookup_insert_eq);
         try (by intros j Hj; apply list_lookup_insert_ne)).
Qed.

Lemma handleCellClick_places_mark_witness :
  GameBoard.board
    (GameBoard.handleCellClick (GameBoard.mkProps single medium true) 4
       (GameBoard.initialState (GameBoard.mkProps single medium true) ∅))
  !! 4 = Some (Some X).
Proof.
  destruct (handleCellClick_places_mark (GameBoard.mkProps single medium true)
              (GameBoard.initialState (GameBoard.mkProps single medium true) ∅)
              4) as [_ Hplaced].
  destruct (Hplaced eq_refl eq_refl eq_refl) as [Hmark _]. exact Hmark.
Defined.

(** X11.  The callback of the AI's thinking delay, for every state it
    fires in, every board it was given and either strategy flag of the
    render that set it.  On a board of nine cells with an empty cell,
    for draws in [[0, 1)], the AI's mark is placed on one empty cell of
    the board the callback was given and on no other - the board shown
    becomes that board with the mark, whatever was shown before -, the
    board is appended to the history and the AI is no longer thinking;
    when the winner evaluation reports a result it is stored and -
    against the AI - recorded by the calibrator, and otherwise the turn
    passes to the human.  On a board without an empty cell the callback
    only ends the thinking. *)
Theorem ai_turn_places_mark (props : GameBoard.Props) (s : GameBoard.State)
    (currentBoard : Board) (flag : bool) (g : Rng) (i : nat) :
  let fired := fst (GameScreen.aiMoveFires props currentBoard flag s g i) in
  (GameBoard.getEmptyCells currentBoard = [] ->
   exists s',
     fired = Some s'
     /\ GameBoard.board s' = GameBoard.board s
     /\ GameBoard.moveHistory s' = GameBoard.moveHistory s
     /\ GameBoard.currentPlayer s' = GameBoard.currentPlayer s
     /\ GameBoard.gameResult s' = GameBoard.gameResult s
     /\ GameBoard.localStorage s' = GameBoard.localStorage s
     /\ GameBoard.isAiThinking s' = false)
  /\ (validRng g ->
      length currentBoard = 9 ->
      (exists c0, currentBoard !! c0 = Some None) ->
      exists c s',
        fired = Some s'
        /\ c < 9
        /\ currentBoard !! c = Some None
        /\ GameBoard.board s'
           = <[c := Some (GameBoard.aiSymbol props)]> currentBoard
        /\ GameBoard.moveHistory s'
           = GameBoard.moveHistory s ++ [GameBoard.board s']
        /\ GameBoard.isAiThinking s' = false
        /\ (winner (GameBoard.checkWinner (GameBoard.board s')) = None ->
            GameBoard.currentPlayer s' = GameBoard.humanSymbol props
            /\ GameBoard.gameResult s' = GameBoard.gameResult s
            /\ GameBoard.localStorage s' = GameBoard.localStorage s)
        /\ (forall w,
            winner (GameBoard.checkWinner (GameBoard.board s')) = Some w ->
            GameBoard.gameResult s' = Some w
            /\ GameBoard.winningLine s'
               = line (GameBoard.checkWinner (GameBoard.board s'))
            /\ GameBoard.localStorage s'
               = if bool_decide (GameBoard.gameMode props = single)
                 then AIPersonalityService.recordGameResult
                        (GameBoard.difficulty props) w
                        (GameBoard.localStorage s)
                 else GameBoard.localStorage s)).
Proof.
  intros fired.
  pose proof (getAiMove_pick props flag currentBoard g i) as Hcell.
  assert (GameBoard.getEmptyCells currentBoard = [] ->
          fst (GameBoard.getAiMove (GameBoard.humanSymbol props)
                 (GameBoard.aiSymbol props) (GameBoard.difficulty props)
                 flag currentBoard g i)
          = Some MinusOne) as Hnone.
  { intros Hnil. unfold GameBoard.getAiMove. by rewrite Hnil. }
  unfold fired, GameScreen.aiMoveFires.
  unfold mbind, mret, Rand_bind, Rand_ret.
  destruct (GameBoard.getAiMove _ _ _ _ _ g i) as [m j]. simpl in *.
  split.
  - intros Hnil. rewrite (Hnone Hnil). simpl. eexists. by split_and!.
  - intros Hg Hlen [c0 Hc0].
    assert (GameBoard.getEmptyCells currentBoard <> []) as Hne.
    { intros Hnil.
      assert (c0 ∈ GameBoard.getEmptyCells currentBoard) as Hin.
      { apply GameBoard_getEmptyCells_elem. split; [|done].
        apply lookup_lt_Some in Hc0. lia. }
      rewrite Hnil in Hin. by apply elem_of_nil in Hin. }
    destruct (Hcell Hg Hlen Hne)
      as (c & -> & [Hc9 Hc]%GameBoard_getEmptyCells_elem).
    exists c. eexists. split; [done|]. split; [done|]. split; [done|].
    unfold GameBoard.applyAiMove. cbn [GameBoard.writePick].
    set (newBoard := <[c := _]> _).
    destruct (winner (GameBoard.checkWinner newBoard)) as [w|] eqn:Ew.
    + unfold GameBoard.finishGame, GameBoard.isSingle.
      destruct (bool_decide (GameBoard.gameMode props = single)); simpl;
        fold newBoard; rewrite Ew;
        (split_and!; try done; try (by intros w' [= <-])).
    + simpl. fold newBoard. rewrite Ew. split_and!; done.
Qed.

Lemma ai_turn_places_mark_witness :
  exists c s',
    fst (GameScreen.aiMoveFires (GameBoard.mkProps single medium true)
           boardCornerOpening true
           (GameBoard.initialState (GameBoard.mkProps single medium true) ∅)
           (fun _ => 0.5%Q) 0) = Some s'
    /\ GameBoard.board s' = <[c := Some O]> boardCornerOpening.
Proof.
  destruct (ai_turn_places_mark (GameBoard.mkProps single medium true)
              (GameBoard.initialState
                 (GameBoard.mkProps single medium true) ∅)
              boardCornerOpening true (fun _ => 0.5%Q) 0) as [_ Hplaced].
  destruct (Hplaced (fun _ => conj (Qle_bool_imp_le 0 0.5 eq_refl) eq_refl)
              eq_refl (ex_intro _ 1 eq_refl))
    as (c & s' & Hfires & _ & _ & Hboard & _).
  exists c, s'. split; [exact Hfires|exact Hboard].
Defined.

(** X12.  Undo on the game screen does nothing while only the initial
    board is in the history, when the game is over or while the AI is
    thinking.  Otherwise it takes back the last board, and against the
    AI one more when more than the initial board is left; the board
    shown is the last one kept, the player to move is [X] whoever made
    the move taken back, the time left is the limit and the timer is
    stopped. *)
Theorem undoMove_rewinds (props : GameBoard.Props) (s : GameBoard.State) :
  let s' := GameBoard.undoMove props s in
  (length (GameBoard.moveHistory s) <= 1
   \/ GameBoard.gameResult s <> None
   \/ GameBoard.isAiThinking s = true ->
   s' = s)
  /\ (GameBoard.gameResult s = None ->
      GameBoard.isAiThinking s = false ->
      forall h b1,
      h <> [] ->
      GameBoard.moveHistory s = h ++ [b1] ->
      let kept :=
        if bool_decide (GameBoard.gameMode props = single)
           && (1 <? length h)
        then removelast h else h in
      GameBoard.moveHistory s' = kept
      /\ last kept = Some (GameBoard.board s')
      /\ GameBoard.currentPlayer s' = X
      /\ GameBoard.gameResult s' = None
      /\ GameBoard.turnTimeLeft s' = GameBoard.TURN_TIME_LIMIT
      /\ GameBoard.timerRef s' = false
      /\ GameBoard.localStorage s' = GameBoard.localStorage s).
Proof.
  intros s'. split.
  - intros Hrefused. unfold s', GameBoard.undoMove.
    destruct Hrefused as [Hlen|[Hover| ->]].
    + apply Nat.leb_le in Hlen. by rewrite Hlen.
    + destruct (GameBoard.gameResult s); [|done].
      by rewrite orb_true_r.
    + by rewrite orb_true_r.
  - intros Hrunning Hidle h b1 Hne Hh kept.
    unfold s', GameBoard.undoMove. rewrite Hrunning, Hidle, Hh.
    assert ((length (h ++ [b1]) <=? 1) = false) as ->.
    { apply Nat.leb_gt. rewrite length_app. simpl.
      destruct h; [done|simpl; lia]. }
    cbn [orb isOverResult].
    assert (GameBoard.moveHistory (GameBoard.stopTimer s) = h ++ [b1]) as ->
      by done.
    rewrite pop_snoc. fold (GameBoard.isSingle props) in kept.
    change (if GameBoard.isSingle props && (1 <? length h)
            then GameBoard.pop h else h) with kept.
    destruct (last kept) as [previousBoard|] eqn:Elast.
    + simpl. split_and!; try done.
      unfold GameBoard.getStartingPlayer. by destruct (GameBoard.gameMode props).
    + apply last_None in Elast. unfold kept in Elast.
      destruct (GameBoard.isSingle props && (1 <? length h)) eqn:Etwo;
        [|done].
      apply andb_true_iff in Etwo as [_ Hlen%Nat.ltb_lt].
      destruct h as [|x [|y h]]; simpl in *; [lia..|done].
Qed.

Lemma undoMove_rewinds_witness :
  GameBoard.currentPlayer
    (GameBoard.undoMove (GameBoard.mkProps two_player easy true)
       (GameBoard.handleCellClick (GameBoard.mkProps two_player easy true) 0
          (GameBoard.handleCellClick (GameBoard.mkProps two_player easy true)
             4
             (GameBoard.initialState
                (GameBoard.mkProps two_player easy true) ∅))))
  = X.
Proof.
  destruct (undoMove_rewinds (GameBoard.mkProps two_player easy true)
              (GameBoard.handleCellClick
                 (GameBoard.mkProps two_player easy true) 0
                 (GameBoard.handleCellClick
                    (GameBoard.mkProps two_player easy true) 4
                    (GameBoard.initialState
                       (GameBoard.mkProps two_player easy true) ∅))))
    as [_ Hundo].
  destruct (Hundo eq_refl eq_refl
              [emptyBoard; <[4 := Some X]> emptyBoard]
              (<[0 := Some O]> (<[4 := Some X]> emptyBoard))
              ltac:(discriminate) eq_refl)
    as (_ & _ & Hplayer & _).
  exact Hplayer.
Defined.

(** ** The sessions of the online service *)

Section Sessions.

Import OnlineGameService.

Implicit Types (s : Service) (gs : GameState).

Lemma Online_no_winner_no_line (b : Board) :
  winner (checkWinner b) = None -> line (checkWinner b) = None.
Proof. apply no_winner_no_line. Qed.

Lemma clearOpponentMoveTimeout_cleared s :
  opponentMoveTimeout (clearOpponentMoveTimeout s) = NoTimeout
  /\ matchmakingStatus (clearOpponentMoveTimeout s) = matchmakingStatus s
  /\ matchmakingTimeout (clearOpponentMoveTimeout s) = matchmakingTimeout s.
Proof. unfold clearOpponentMoveTimeout. by destruct (opponentMoveTimeout s) eqn:E. Qed.

Lemma clearMatchmakingTimeout_cleared s :
  matchmakingTimeout (clearMatchmakingTimeout s) = NoTimeout
  /\ matchmakingStatus (clearMatchmakingTimeout s) = matchmakingStatus s
  /\ opponentMoveTimeout (clearMatchmakingTimeout s) = opponentMoveTimeout s.
Proof. unfold clearMatchmakingTimeout. by destruct (matchmakingTimeout s) eqn:E. Qed.

(** Changes that touch neither the match nor the game nor the
    opponent's timer keep the invariant. *)
Lemma sessionInvariant_frame s s' :
  matchmakingStatus s' = matchmakingStatus s ->
  playerSymbol s' = playerSymbol s ->
  gameState s' = gameState s ->
  opponentMoveTimeout s' = opponentMoveTimeout s ->
  sessionInvariant s -> sessionInvariant s'.
Proof. unfold sessionInvariant. by intros -> -> -> ->. Qed.

Lemma sessionInvariant_dropped s :
  playerSymbol s = None -> gameState s = None ->
  opponentMoveTimeout s = NoTimeout ->
  sessionInvariant s.
Proof. unfold sessionInvariant. intros -> -> ->. by split. Qed.

Lemma sessionInvariant_newGame s :
  (matchmakingStatus s = idle \/ matchmakingStatus s = searching ->
   playerSymbol s = None) ->
  gameState s = Some newGame ->
  opponentMoveTimeout s <> Scheduled ->
  sessionInvariant s.
Proof.
  unfold sessionInvariant. intros Hp -> Ht. split; [done|].
  split_and!; done.
Qed.

Lemma dropSession_invariant s :
  opponentMoveTimeout s = NoTimeout -> sessionInvariant (dropSession s).
Proof. intros Ht. by apply sessionInvariant_dropped. Qed.

Lemma sessionInvariant_makeMove position s :
  sessionInvariant s -> sessionInvariant (snd (makeMove position s)).
Proof.
  intros Hinv. pose proof Hinv as [Hp Hg]. unfold makeMove.
  destruct (gameState s) as [gs|] eqn:Egs; [|done].
  destruct Hg as (Hlen & Hlast & Hres & Hline & Hsched).
  destruct (isOverResult (gameResult gs)) eqn:Eover; [done|].
  destruct (not_null (board gs !! position)); [done|].
  destruct (notPlayersTurn gs s) eqn:Eturn; [done|].
  assert (gameResult gs = None) as Hnone by (by destruct (gameResult gs)).
  assert (playerSymbol s <> None) as Hsym.
  { intros Hs. unfold notPlayersTurn in Eturn. by rewrite Hs in Eturn. }
  destruct (clearOpponentMoveTimeout_frame s) as [_ Hps].
  destruct (clearOpponentMoveTimeout_cleared s) as (Hcleared & Hstatus & _).
  cbn [board currentPlayer gameResult winningLine moveHistory snd].
  rewrite Hps.
  set (newBoard := <[position := playerSymbol s]> (board gs)).
  destruct (winner (checkWinner newBoard)) as [w|] eqn:Ew.
  - unfold sessionInvariant. service_fields. rewrite Hps, Hstatus.
    split; [done|]. rewrite last_snoc, Hcleared.
    split_and!; try done. by unfold newBoard; rewrite length_insert.
  - unfold sessionInvariant. service_fields. rewrite Hps, Hstatus.
    split; [done|]. rewrite last_snoc.
    split_and!; try done.
    + by unfold newBoard; rewrite length_insert.
    + congruence.
    + rewrite (Online_no_winner_no_line _ Ew), Hline.
      apply Online_no_winner_no_line. congruence.
Qed.

Lemma sessionInvariant_executeOpponentMove s g i :
  opponentMoveTimeout s <> Scheduled ->
  sessionInvariant s -> sessionInvariant (fst (executeOpponentMove s g i)).
Proof.
  intros Ht Hinv. pose proof Hinv as [Hp Hg]. unfold executeOpponentMove.
  destruct (gameState s) as [gs|] eqn:Egs; [|done].
  destruct Hg as (Hlen & Hlast & Hres & Hline & Hsched).
  destruct (isOverResult (gameResult gs)) eqn:Eover; [done|].
  destruct (negb (Mark_eqb (currentPlayer gs) O)); [done|].
  destruct (length (emptyCellsOf (board gs)) =? 0); [done|].
  assert (gameResult gs = None) as Hnone by (by destruct (gameResult gs)).
  unfold mbind, mret, Rand_bind, Rand_ret.
  destruct (randomElement (emptyCellsOf (board gs)) g i)
    as [randomPosition j].
  cbn [board currentPlayer gameResult winningLine moveHistory fst].
  set (newBoard := match randomPosition with
                   | Cell c => <[c := Some O]> (board gs)
                   | _ => board gs
                   end).
  assert (length newBoard = 9) as Hnew.
  { unfold newBoard. destruct randomPosition; by rewrite ?length_insert. }
  destruct (winner (checkWinner newBoard)) as [w|] eqn:Ew.
  - unfold sessionInvariant. service_fields.
    split; [done|]. rewrite last_snoc. split_and!; done.
  - unfold sessionInvariant. service_fields.
    split; [done|]. rewrite last_snoc. split_and!; try done.
    + congruence.
    + rewrite (Online_no_winner_no_line _ Ew), Hline.
      apply Online_no_winner_no_line. congruence.
Qed.

Lemma reachable_sessionInvariant s : reachable s -> sessionInvariant s.
Proof.
  induction 1 as [|s _ IH|s _ IH|s _ IH|s g i _ IH|s g i _ IH|s _ IH|s _ IH
                  |s position _ IH|s g i _ IH|s _ IH|s _ IH].
  - by apply sessionInvariant_dropped.
  - by apply (sessionInvariant_frame s).
  - unfold connectTimerFires. destruct (connectTimer s); [|done].
    by apply (sessionInvariant_frame s).
  - apply dropSession_invariant. service_fields.
    destruct (clearMatchmakingTimeout_cleared (clearOpponentMoveTimeout s))
      as (_ & _ & ->).
    by destruct (clearOpponentMoveTimeout_cleared s) as (-> & _).
  - unfold findMatch. case_bool_decide as Hidle; [done|].
    case_bool_decide; [done|].
    unfold mbind, mret, Rand_bind, Rand_ret, random. simpl.
    destruct IH as [Hp Hg]. specialize (Hp (or_introl Hidle)).
    destruct (clearMatchmakingTimeout_frame
                (setMatchmakingStatus searching s)) as [Hgs Hps].
    destruct (clearMatchmakingTimeout_cleared
                (setMatchmakingStatus searching s)) as (_ & Hst & Hop).
    unfold sessionInvariant. service_fields.
    rewrite Hgs, Hps, Hst, Hop. simpl. split; [done|].
    destruct (gameState s) as [gs|]; [|done].
    destruct Hg as (? & ? & ? & ? & Hsched). split_and!; try done.
    all: intros Hs; by destruct (Hsched Hs).
  - unfold matchmakingTimerFires.
    destruct (matchmakingTimeout s); try done.
    case_bool_decide as Hsearching; [by apply (sessionInvariant_frame s)|].
    simpl in Hsearching.
    unfold randomIndex, random, mbind, mret, Rand_bind, Rand_ret. simpl.
    destruct IH as [Hp Hg]. specialize (Hp (or_intror Hsearching)).
    apply sessionInvariant_newGame; service_fields.
    + by intros [|].
    + done.
    + destruct (gameState s) as [gs|]; [|done].
      destruct Hg as (_ & _ & _ & _ & Hsched).
      intros Hs. destruct (Hsched Hs) as [Hsym _]. done.
  - unfold gameStartTimerFires. destruct (gameStartTimer s); [|done].
    case_bool_decide as Hfound; [|by apply (sessionInvariant_frame s)].
    simpl in Hfound. destruct IH as [Hp Hg].
    unfold sessionInvariant. service_fields. split; [by intros [|]|done].
  - apply dropSession_invariant. service_fields.
    destruct (clearOpponentMoveTimeout_cleared (clearMatchmakingTimeout s))
      as (-> & _). done.
  - by apply sessionInvariant_makeMove.
  - unfold opponentTimerFires.
    destruct (opponentMoveTimeout s) eqn:Et; try done.
    apply sessionInvariant_executeOpponentMove; [done|].
    destruct IH as [Hp Hg]. unfold sessionInvariant. service_fields.
    split; [done|]. destruct (gameState s) as [gs|]; [|done].
    destruct Hg as (? & ? & ? & ? & Hsched). split_and!; done.
  - destruct IH as [Hp _].
    destruct (clearOpponentMoveTimeout_frame s) as [_ Hps].
    destruct (clearOpponentMoveTimeout_cleared s) as (Hcl & Hst & _).
    apply sessionInvariant_newGame; unfold resetGame; service_fields.
    + by rewrite Hps, Hst.
    + done.
    + by rewrite Hcl.
  - apply dropSession_invariant. service_fields.
    destruct (clearMatchmakingTimeout_cleared (clearOpponentMoveTimeout s))
      as (_ & _ & ->).
    by destruct (clearOpponentMoveTimeout_cleared s) as (-> & _).
Qed.

End Sessions.

(** X13.  In every state of the online service that holds a game, the
    board has nine cells and is the last entry of the move history, the
    stored result and winning line are those that the winner evaluation
    reports on the board, and the opponent's reply is pending only
    while the game is running, a mark is assigned and [O] is to move.
    While the service is idle or searching no mark is assigned, and
    without a game no reply is pending. *)
Theorem session_consistent (s : OnlineGameService.Service) :
  OnlineGameService.reachable s ->
  (OnlineGameService.matchmakingStatus s = OnlineGameService.idle
   \/ OnlineGameService.matchmakingStatus s = OnlineGameService.searching ->
   OnlineGameService.playerSymbol s = None)
  /\ (OnlineGameService.gameState s = None ->
      OnlineGameService.opponentMoveTimeout s <> OnlineGameService.Scheduled)
  /\ forall gs,
      OnlineGameService.gameState s = Some gs ->
      length (OnlineGameService.board gs) = 9
      /\ last (OnlineGameService.moveHistory gs)
         = Some (OnlineGameService.board gs)
      /\ OnlineGameService.gameResult gs
         = winner (OnlineGameService.checkWinner (OnlineGameService.board gs))
      /\ OnlineGameService.winningLine gs
         = line (OnlineGameService.checkWinner (OnlineGameService.board gs))
      /\ (OnlineGameService.opponentMoveTimeout s
          = OnlineGameService.Scheduled ->
          OnlineGameService.playerSymbol s <> None
          /\ OnlineGameService.currentPlayer gs = O
          /\ OnlineGameService.gameResult gs = None).
Proof.
  intros [Hp Hg]%reachable_sessionInvariant. split; [done|].
  destruct (OnlineGameService.gameState s) as [gs|]; split; try done.
  by intros gs' [= <-].
Qed.

Lemma session_consistent_witness :
  exists gs,
    OnlineGameService.gameState
      (snd (OnlineGameService.makeMove 4 sessionAtGameStart)) = Some gs
    /\ OnlineGameService.gameResult gs
       = winner (OnlineGameService.checkWinner (OnlineGameService.board gs)).
Proof.
  destruct (session_consistent
              (snd (OnlineGameService.makeMove 4 sessionAtGameStart)))
    as (_ & _ & Hgame).
  - apply OnlineGameService.reach_makeMove, OnlineGameService.reach_resetGame,
      OnlineGameService.reach_matchmakingTimer,
      OnlineGameService.reach_findMatch,
      OnlineGameService.reach_connectTimer, OnlineGameService.reach_connect,
      OnlineGameService.reach_initial.
  - assert (exists gs,
              OnlineGameService.gameState
                (snd (OnlineGameService.makeMove 4 sessionAtGameStart))
              = Some gs) as [gs Hgs] by (vm_compute; eauto).
    exists gs. split; [exact Hgs|].
    destruct (Hgame gs Hgs) as (_ & _ & Hres & _). exact Hres.
Defined.

(** X14.  When the timer of the opponent's reply fires in a state of
    the online service, for draws in [[0, 1)], the mark [O] is placed
    on one empty cell of the board and on no other, the board is
    appended to the history, the turn passes to [X], the result and the
    winning line become those of the winner evaluation on the new
    board, and no reply is pending any more. *)
Theorem opponent_reply_places_O (s : OnlineGameService.Service) (g : Rng)
    (i : nat) :
  OnlineGameService.reachable s ->
  validRng g ->
  OnlineGameService.opponentMoveTimeout s = OnlineGameService.Scheduled ->
  let s' := fst (OnlineGameService.opponentTimerFires s g i) in
  exists gs gs' c,
    OnlineGameService.gameState s = Some gs
    /\ OnlineGameService.gameState s' = Some gs'
    /\ OnlineGameService.board gs !! c = Some None
    /\ OnlineGameService.board gs'
       = <[c := Some O]> (OnlineGameService.board gs)
    /\ OnlineGameService.moveHistory gs'
       = OnlineGameService.moveHistory gs ++ [OnlineGameService.board gs']
    /\ OnlineGameService.currentPlayer gs' = X
    /\ OnlineGameService.gameResult gs'
       = winner (OnlineGameService.checkWinner (OnlineGameService.board gs'))
    /\ OnlineGameService.winningLine gs'
       = line (OnlineGameService.checkWinner (OnlineGameService.board gs'))
    /\ OnlineGameService.opponentMoveTimeout s' = OnlineGameService.Expired
    /\ OnlineGameService.playerSymbol s' = OnlineGameService.playerSymbol s.
Proof.
  intros Hreach Hg Hsched s'.
  destruct (reachable_sessionInvariant s Hreach) as [_ Hgame].
  destruct (OnlineGameService.gameState s) as [gs|] eqn:Egs; [|done].
  destruct Hgame as (Hlen & Hlast & Hres & Hline & Hrun).
  destruct (Hrun Hsched) as (Hsym & Hturn & Hnone).
  assert (OnlineGameService.emptyCellsOf (OnlineGameService.board gs) <> [])
    as Hne.
  { change (OnlineGameService.emptyCellsOf (OnlineGameService.board gs))
      with (AIService.getEmptyCells (OnlineGameService.board gs)).
    rewrite getEmptyCells_agree by done.
    apply inProgress_getEmptyCells; [done|].
    rewrite <- OnlineGameService_checkWinner_eq. congruence. }
  unfold s', OnlineGameService.opponentTimerFires. rewrite Hsched.
  unfold OnlineGameService.executeOpponentMove.
  cbn [OnlineGameService.gameState OnlineGameService.set_opponentMoveTimeout].
  rewrite Egs, Hnone, Hturn. cbn [isOverResult Mark_eqb negb].
  destruct (length (OnlineGameService.emptyCellsOf
                      (OnlineGameService.board gs)) =? 0) eqn:Elen.
  { by destruct (OnlineGameService.emptyCellsOf (OnlineGameService.board gs)). }
  unfold mbind, mret, Rand_bind, Rand_ret.
  destruct (randomElement_in _ g i Hg Hne) as (c & Hc & Hin).
  destruct (randomElement _ g i) as [randomPosition j].
  simpl in Hc. subst randomPosition.
  apply (AIService_getEmptyCells_elem (OnlineGameService.board gs)) in Hin.
  exists gs. cbn [OnlineGameService.board OnlineGameService.currentPlayer
                    OnlineGameService.gameResult OnlineGameService.winningLine
                    OnlineGameService.moveHistory].
  set (newBoard := <[c := Some O]> (OnlineGameService.board gs)).
  destruct (winner (OnlineGameService.checkWinner newBoard)) as [w|] eqn:Ew.
  - eexists. exists c. OnlineGameService.service_fields.
    split_and!; try done.
  - eexists. exists c. OnlineGameService.service_fields.
    split_and!; try done; try congruence.
    simpl. rewrite (Online_no_winner_no_line _ Ew), Hline.
    apply Online_no_winner_no_line. congruence.
Qed.

Lemma opponent_reply_places_O_witness :
  exists gs',
    OnlineGameService.gameState
      (fst (OnlineGameService.opponentTimerFires
              (snd (OnlineGameService.makeMove 4 sessionAtGameStart))
              (fun _ => 0.5%Q) 0)) = Some gs'
    /\ OnlineGameService.currentPlayer gs' = X.
Proof.
  destruct (opponent_reply_places_O
              (snd (OnlineGameService.makeMove 4 sessionAtGameStart))
              (fun _ => 0.5%Q) 0)
    as (gs & gs' & c & _ & Hgs' & _ & _ & _ & Hturn & _).
  - apply OnlineGameService.reach_makeMove, OnlineGameService.reach_resetGame,
      OnlineGameService.reach_matchmakingTimer,
      OnlineGameService.reach_findMatch,
      OnlineGameService.reach_connectTimer, OnlineGameService.reach_connect,
      OnlineGameService.reach_initial.
  - exact (fun _ => conj (Qle_bool_imp_le 0 0.5 eq_refl) eq_refl).
  - reflexivity.
  - exists gs'. split; [exact Hgs'|exact Hturn].
Defined.

(** X15.  Leaving a game, cancelling the search and disconnecting end
    the session in every state of the service, also when there is none:
    afterwards the service is idle and holds no game, room, opponent or
    mark, every move is refused, the callbacks of the opponent's timer
    and of the search timer change nothing, the callback of the timer
    that starts the game leaves the service idle, and leaving once more
    changes nothing.  Leaving a game and cancelling the search have the
    same effect.  None of the three cancels the timer of [connect]: its
    callback still sets the connection status to [connected], also after
    [disconnect], and changes nothing else, so that the session stays
    ended, and every move refused, until a new search is started. *)
Theorem leaving_ends_session (s : OnlineGameService.Service)
    (leave : OnlineGameService.Service -> OnlineGameService.Service) :
  leave = OnlineGameService.leaveGame
  \/ leave = OnlineGameService.cancelMatchmaking
  \/ leave = OnlineGameService.disconnect ->
  let s' := leave s in
  let reconnected :=
    OnlineGameService.setConnectionStatus OnlineGameService.connected s' in
  OnlineGameService.matchmakingStatus s' = OnlineGameService.idle
  /\ OnlineGameService.gameState s' = None
  /\ OnlineGameService.currentRoomId s' = None
  /\ OnlineGameService.opponent s' = None
  /\ OnlineGameService.playerSymbol s' = None
  /\ (forall position, OnlineGameService.makeMove position s' = (false, s'))
  /\ (forall g i, OnlineGameService.opponentTimerFires s' g i = (s', i))
  /\ (forall g i, OnlineGameService.matchmakingTimerFires s' g i = (s', i))
  /\ OnlineGameService.matchmakingStatus
       (OnlineGameService.gameStartTimerFires s') = OnlineGameService.idle
  /\ OnlineGameService.gameState (OnlineGameService.gameStartTimerFires s')
     = None
  /\ leave s' = s'
  /\ OnlineGameService.cancelMatchmaking s = OnlineGameService.leaveGame s
  /\ OnlineGameService.connectTimer s' = OnlineGameService.connectTimer s
  /\ OnlineGameService.connectTimerFires s'
     = (if OnlineGameService.connectTimer s
        then OnlineGameService.set_connectTimer false reconnected
        else s')
  /\ OnlineGameService.connectionStatus reconnected
     = OnlineGameService.connected
  /\ OnlineGameService.matchmakingStatus reconnected = OnlineGameService.idle
  /\ OnlineGameService.gameState reconnected = None
  /\ OnlineGameService.playerSymbol reconnected = None
  /\ (forall position,
        OnlineGameService.makeMove position reconnected
        = (false, reconnected)).
Proof.
  intros Hleave s' reconnected.
  assert (OnlineGameService.cancelMatchmaking s = OnlineGameService.leaveGame s)
    as Hsame.
  { unfold OnlineGameService.cancelMatchmaking, OnlineGameService.leaveGame,
      OnlineGameService.clearMatchmakingTimeout,
      OnlineGameService.clearOpponentMoveTimeout.
    destruct s as [? ? ? ? ? ? [] [] ? ?]; reflexivity. }
  assert (OnlineGameService.opponentMoveTimeout s'
          = OnlineGameService.NoTimeout
          /\ OnlineGameService.matchmakingTimeout s'
             = OnlineGameService.NoTimeout
          /\ OnlineGameService.matchmakingStatus s' = OnlineGameService.idle
          /\ OnlineGameService.gameState s' = None
          /\ OnlineGameService.currentRoomId s' = None
          /\ OnlineGameService.opponent s' = None
          /\ OnlineGameService.playerSymbol s' = None
          /\ leave s' = s'
          /\ OnlineGameService.connectTimer s'
             = OnlineGameService.connectTimer s)
    as (Hop & Hmm & Hidle & Hgs & Hroom & Hopp & Hsym & Hagain & Hconn).
  { unfold s'.
    destruct Hleave as [->|[->| ->]];
      unfold OnlineGameService.leaveGame, OnlineGameService.cancelMatchmaking,
        OnlineGameService.disconnect, OnlineGameService.clearMatchmakingTimeout,
        OnlineGameService.clearOpponentMoveTimeout;
      destruct s as [? ? ? ? ? ? [] [] ? ?]; split_and!; reflexivity. }
  split_and!; try done.
  - intros position. unfold OnlineGameService.makeMove. by rewrite Hgs.
  - intros g i. unfold OnlineGameService.opponentTimerFires. by rewrite Hop.
  - intros g i. unfold OnlineGameService.matchmakingTimerFires. by rewrite Hmm.
  - unfold OnlineGameService.gameStartTimerFires.
    destruct (OnlineGameService.gameStartTimer s'); [|done].
    case_bool_decide as Hfound; simpl in *; [congruence|done].
  - unfold OnlineGameService.gameStartTimerFires.
    destruct (OnlineGameService.gameStartTimer s'); [|done].
    case_bool_decide as Hfound; simpl in *; [congruence|done].
  - unfold OnlineGameService.connectTimerFires. by rewrite Hconn.
  - intros position. unfold OnlineGameService.makeMove, reconnected.
    cbn [OnlineGameService.gameState OnlineGameService.setConnectionStatus].
    by rewrite Hgs.
Qed.

Lemma leaving_ends_session_witness :
  OnlineGameService.makeMove 0
    (OnlineGameService.leaveGame
       (snd (OnlineGameService.makeMove 4 sessionAtGameStart)))
  = (false,
     OnlineGameService.leaveGame
       (snd (OnlineGameService.makeMove 4 sessionAtGameStart))).
Proof.
  destruct (leaving_ends_session
              (snd (OnlineGameService.makeMove 4 sessionAtGameStart))
              OnlineGameService.leaveGame (or_introl eq_refl))
    as (_ & _ & _ & _ & _ & Hrefused & _).
  exact (Hrefused 0).
Defined.

(** X16.  A search for a match starts only on a connected, idle service
    and is otherwise ignored.  From a connected, idle service, for draws
    in [[0, 1)], the search takes one draw and sets a timer; when it
    fires a match is found: the player is given the mark [X], one of the
    eight demo opponents and a new game - an empty board of nine cells,
    [X] to move - and when the timer that starts the game fires the
    service is in the game, where the player's first move is accepted. *)
Theorem matchmaking_assigns_X (s : OnlineGameService.Service) (g : Rng)
    (i : nat) :
  (OnlineGameService.matchmakingStatus s <> OnlineGameService.idle
   \/ OnlineGameService.connectionStatus s <> OnlineGameService.connected ->
   OnlineGameService.findMatch s g i = (s, i))
  /\ (OnlineGameService.matchmakingStatus s = OnlineGameService.idle ->
      OnlineGameService.connectionStatus s = OnlineGameService.connected ->
      validRng g ->
      let s1 := fst (OnlineGameService.findMatch s g i) in
      let s2 := fst (OnlineGameService.matchmakingTimerFires s1 g (S i)) in
      let s3 := OnlineGameService.gameStartTimerFires s2 in
      snd (OnlineGameService.findMatch s g i) = S i
      /\ OnlineGameService.matchmakingStatus s1 = OnlineGameService.searching
      /\ OnlineGameService.matchmakingTimeout s1 = OnlineGameService.Scheduled
      /\ OnlineGameService.matchmakingStatus s2 = OnlineGameService.found
      /\ OnlineGameService.playerSymbol s2 = Some X
      /\ (exists k, OnlineGameService.opponent s2 = Some (Cell k) /\ k < 8)
      /\ OnlineGameService.gameState s2 = Some OnlineGameService.newGame
      /\ OnlineGameService.board OnlineGameService.newGame = replicate 9 None
      /\ OnlineGameService.currentPlayer OnlineGameService.newGame = X
      /\ OnlineGameService.matchmakingStatus s3 = OnlineGameService.in_game
      /\ OnlineGameService.gameState s3 = Some OnlineGameService.newGame
      /\ forall position, position < 9 ->
           fst (OnlineGameService.makeMove position s3) = true).
Proof.
  split.
  - intros Hnot. unfold OnlineGameService.findMatch.
    case_bool_decide as Hidle; [done|].
    case_bool_decide as Hconn; [done|].
    destruct Hnot as [Hnot|Hnot]; done.
  - intros Hidle Hconn Hg s1 s2 s3.
    assert (OnlineGameService.findMatch s g i
            = (OnlineGameService.set_matchmakingTimeout
                 OnlineGameService.Scheduled
                 (OnlineGameService.clearMatchmakingTimeout
                    (OnlineGameService.setMatchmakingStatus
                       OnlineGameService.searching s)), S i)) as Hfind.
    { unfold OnlineGameService.findMatch.
      case_bool_decide as H1; [done|]. case_bool_decide as H2; [done|].
      done. }
    destruct (clearMatchmakingTimeout_cleared
                (OnlineGameService.setMatchmakingStatus
                   OnlineGameService.searching s)) as (_ & Hst & _).
    assert (OnlineGameService.matchmakingStatus s1
            = OnlineGameService.searching
            /\ OnlineGameService.matchmakingTimeout s1
               = OnlineGameService.Scheduled) as [Hs1 Ht1].
    { unfold s1. rewrite Hfind. simpl. by rewrite Hst. }
    destruct (randomElement_in (seq 0 8) g (S i) Hg ltac:(done))
      as (k & Hk & Hkin).
    apply elem_of_seq in Hkin.
    assert (s2 = OnlineGameService.set_gameStartTimer true
                   (OnlineGameService.set_gameState
                      (Some OnlineGameService.newGame)
                      (OnlineGameService.setMatchmakingStatus
                         OnlineGameService.found
                         (OnlineGameService.set_match (Some (g (S (S i))))
                            (Some (Cell k)) (Some X)
                            (OnlineGameService.set_matchmakingTimeout
                               OnlineGameService.Expired s1))))) as Hs2.
    { unfold s2, OnlineGameService.matchmakingTimerFires. rewrite Ht1.
      cbn [OnlineGameService.matchmakingStatus
             OnlineGameService.set_matchmakingTimeout].
      rewrite Hs1. case_bool_decide; [done|].
      unfold mbind, mret, Rand_bind, Rand_ret, random.
      change (pickAt (seq 0 8) (fst (randomIndex 8 g (S i))))
        with (fst (randomElement (seq 0 8) g (S i))).
      destruct (randomIndex 8 g (S i)) as [idx j] eqn:Eidx.
      assert (j = S (S i)) as -> by (by injection Eidx).
      assert (pickAt (seq 0 8) idx = Cell k) as Hpick.
      { rewrite <- Hk. unfold randomElement, mbind, mret, Rand_bind, Rand_ret.
        change (length (seq 0 8)) with 8. by rewrite Eidx. }
      by rewrite Hpick. }
    rewrite Hfind. split; [done|]. split; [done|]. split; [done|].
    rewrite Hs2. split; [done|]. split; [done|].
    split; [exists k; split; [done|lia]|].
    split; [done|]. split; [done|]. split; [done|].
    unfold s3. rewrite Hs2. split; [done|]. split; [done|].
    intros position Hpos. clearbody s1.
    unfold OnlineGameService.makeMove,
      OnlineGameService.clearOpponentMoveTimeout.
    simpl.
    destruct (OnlineGameService.opponentMoveTimeout s1);
      do 9 (destruct position as [|position]; [reflexivity|]); lia.
Qed.

Lemma matchmaking_assigns_X_witness :
  OnlineGameService.playerSymbol
    (fst (OnlineGameService.matchmakingTimerFires
            (fst (OnlineGameService.findMatch
                    (OnlineGameService.connectTimerFires
                       (OnlineGameService.connect OnlineGameService.initial))
                    (fun _ => 0.5%Q) 0))
            (fun _ => 0.5%Q) 1))
  = Some X.
Proof.
  destruct (matchmaking_assigns_X
              (OnlineGameService.connectTimerFires
                 (OnlineGameService.connect OnlineGameService.initial))
              (fun _ => 0.5%Q) 0) as [_ Hmatch].
  destruct (Hmatch eq_refl eq_refl
              (fun _ => conj (Qle_bool_imp_le 0 0.5 eq_refl) eq_refl))
    as (_ & _ & _ & _ & Hsym & _).
  exact Hsym.
Defined.

(** ** The coin ledger *)

Section CoinLedger.

Import CoinService.

Implicit Types (s : CoinStats) (reward : CoinReward).

Lemma pushReward_length reward s :
  length (recentRewards s) <= 10 ->
  length (recentRewards (pushReward reward s)) <= 10.
Proof.
  intros Hlen. unfold pushReward, MAX_RECENT_REWARDS.
  cbn [recentRewards].
  destruct (10 <? length (reward :: recentRewards s)) eqn:E.
  - rewrite length_take. lia.
  - apply Nat.ltb_ge in E. done.
Qed.

Lemma pushReward_head reward s :
  head (recentRewards (pushReward reward s)) = Some reward.
Proof.
  unfold pushReward, MAX_RECENT_REWARDS. cbn [recentRewards].
  by destruct (10 <? length (reward :: recentRewards s)).
Qed.

End CoinLedger.

(** X17.  In every state that the coin ledger reaches from a new one the
    counters add up: the games played are the wins plus the losses plus
    the draws, the wins are those against the AI plus the local plus the
    online ones, the wins against the AI are those at the three
    difficulties, none of the game counters is negative, and the list of
    recent rewards holds at most ten entries. *)
Theorem coin_counters_add_up (s : CoinService.CoinStats) :
  CoinService.reachable s ->
  CoinService.totalGames s
  = (CoinService.totalWins s + CoinService.totalLosses s
     + CoinService.totalDraws s)%Z
  /\ CoinService.totalWins s
     = (CoinService.singlePlayerWins s + CoinService.twoPlayerWins s
        + CoinService.onlineWins s)%Z
  /\ CoinService.singlePlayerWins s
     = (CoinService.easyWins s + CoinService.mediumWins s
        + CoinService.hardWins s)%Z
  /\ (0 <= CoinService.totalLosses s)%Z
  /\ (0 <= CoinService.totalDraws s)%Z
  /\ (0 <= CoinService.twoPlayerWins s)%Z
  /\ (0 <= CoinService.onlineWins s)%Z
  /\ (0 <= CoinService.easyWins s)%Z
  /\ (0 <= CoinService.mediumWins s)%Z
  /\ (0 <= CoinService.hardWins s)%Z
  /\ length (CoinService.recentRewards s) <= 10.
Proof.
  induction 1 as [|now gameMode result difficulty s _ IH
                  |now gameMode difficulty isWin isDraw s _ IH
                  |now amount reason s _ IH|now amount reason s _ IH|s _ IH].
  - simpl. split_and!; lia.
  - destruct IH as (H1 & H2 & H3 & H4 & H5 & H6 & H7 & H8 & H9 & H10 & H11).
    unfold CoinService.recordGame, CoinService.awardCoins.
    destruct result, gameMode, difficulty;
      cbn [snd CoinService.totalGames CoinService.totalWins
             CoinService.totalLosses CoinService.totalDraws
             CoinService.singlePlayerWins CoinService.twoPlayerWins
             CoinService.onlineWins CoinService.easyWins
             CoinService.mediumWins CoinService.hardWins
             CoinService.countGame CoinService.pushReward
             CoinService.addToCoins];
      (split_and!; try lia); try (simpl; lia);
      try (by apply (pushReward_length _
                       (CoinService.mkCoinStats _ _ _ _ _ _ _ _ _ _ _
                          (CoinService.recentRewards s)))).
  - destruct IH as (H1 & H2 & H3 & H4 & H5 & H6 & H7 & H8 & H9 & H10 & H11).
    unfold CoinService.awardCoins. cbn [snd].
    split_and!; try done. by apply pushReward_length.
  - destruct IH as (H1 & H2 & H3 & H4 & H5 & H6 & H7 & H8 & H9 & H10 & H11).
    unfold CoinService.addCoins. cbn [snd].
    split_and!; try done. by apply pushReward_length.
  - destruct IH as (H1 & H2 & H3 & H4 & H5 & H6 & H7 & H8 & H9 & H10 & H11).
    unfold CoinService.spendCoins.
    destruct (amount <=? CoinService.totalCoins s)%Z; cbn [snd];
      split_and!; try done. by apply pushReward_length.
  - simpl. split_and!; lia.
Qed.

Lemma coin_counters_add_up_witness :
  CoinService.totalGames
    (snd (CoinService.recordGame 2 single CoinService.win hard
            (snd (CoinService.recordGame 1 online CoinService.loss medium
                    CoinService.initial))))
  = 2%Z.
Proof.
  destruct (coin_counters_add_up
              (snd (CoinService.recordGame 2 single CoinService.win hard
                      (snd (CoinService.recordGame 1 online CoinService.loss
                              medium CoinService.initial)))))
    as [Hgames _].
  - apply CoinService.reach_recordGame, CoinService.reach_recordGame,
      CoinService.reach_initial.
  - exact Hgames.
Defined.

(** X18.  [spendCoins] never overdraws: it succeeds exactly when the
    balance covers the amount, and then the balance is lowered by the
    amount and is not negative, the expense is the newest entry of the
    recent rewards with the negated amount, and the game counters are
    untouched; when the balance does not cover the amount it answers
    [false] and changes nothing. *)
Theorem spendCoins_never_overdraws (now amount : Z) (reason : string)
    (s : CoinService.CoinStats) :
  let answer := fst (CoinService.spendCoins now amount reason s) in
  let s' := snd (CoinService.spendCoins now amount reason s) in
  (answer = true <-> (amount <= CoinService.totalCoins s)%Z)
  /\ (answer = false -> s' = s)
  /\ (answer = true ->
      CoinService.totalCoins s' = (CoinService.totalCoins s - amount)%Z
      /\ (0 <= CoinService.totalCoins s')%Z
      /\ head (CoinService.recentRewards s')
         = Some (CoinService.mkCoinReward (- amount) ("Spent: " +:+ reason)
                   now)
      /\ CoinService.totalGames s' = CoinService.totalGames s
      /\ CoinService.totalWins s' = CoinService.totalWins s
      /\ CoinService.totalLosses s' = CoinService.totalLosses s
      /\ CoinService.totalDraws s' = CoinService.totalDraws s).
Proof.
  intros answer s'. unfold answer, s', CoinService.spendCoins.
  destruct (amount <=? CoinService.totalCoins s)%Z eqn:E; cbn [fst snd].
  - apply Z.leb_le in E. split; [done|]. split; [done|]. intros _.
    split_and!; try done; try (simpl; lia).
    apply pushReward_head.
  - apply Z.leb_gt in E. split; [|done]. split; [done|lia].
Qed.

Lemma spendCoins_never_overdraws_witness :
  snd (CoinService.spendCoins 7 5 "avatar"
         (snd (CoinService.addCoins 3 4 "bonus" CoinService.initial)))
  = snd (CoinService.addCoins 3 4 "bonus" CoinService.initial).
Proof.
  destruct (spendCoins_never_overdraws 7 5 "avatar"
              (snd (CoinService.addCoins 3 4 "bonus" CoinService.initial)))
    as (_ & Hrefused & _).
  apply Hrefused. reflexivity.
Defined.

(** X19.  The coins that the game screen pays at the end of a game:
    against the AI, a win of the human's mark pays 2, 5 or 10 coins at
    the easy, medium or hard difficulty; otherwise a win of [X] pays 3
    coins in a local game of two players and 8 coins online; a draw pays
    1 coin in every mode; every other result counts as a loss, for which
    no reward is returned and neither the balance nor the recent rewards
    change.  Every result counts one more game.  The amounts are those
    of the call of [recordGame] itself: what the listeners of the ledger
    do when they are notified is not part of it. *)
Theorem coins_paid_at_game_end (props : GameBoard.Props) (now : Z)
    (w : Winner) (s : CoinService.CoinStats) :
  let paid :=
    match w with
    | WDraw => 1%Z
    | WMark m =>
        match GameBoard.gameMode props with
        | single =>
            if bool_decide (m = GameBoard.humanSymbol props)
            then match GameBoard.difficulty props with
                 | easy => 2 | medium => 5 | hard => 10
                 end%Z
            else 0%Z
        | two_player => if bool_decide (m = X) then 3%Z else 0%Z
        | online => if bool_decide (m = X) then 8%Z else 0%Z
        end
    end in
  let reward := fst (GameEnd.recordCoins props now w s) in
  let s' := snd (GameEnd.recordCoins props now w s) in
  CoinService.totalCoins s' = (CoinService.totalCoins s + paid)%Z
  /\ CoinService.totalGames s' = (CoinService.totalGames s + 1)%Z
  /\ (GameEnd.result props w = CoinService.loss <-> paid = 0%Z)
  /\ (GameEnd.result props w = CoinService.loss ->
      reward = None
      /\ CoinService.recentRewards s' = CoinService.recentRewards s)
  /\ (GameEnd.result props w <> CoinService.loss ->
      exists r, reward = Some r
                /\ CoinService.amount r = paid
                /\ CoinService.timestamp r = now
                /\ head (CoinService.recentRewards s') = Some r).
Proof.
  intros paid reward s'.
  unfold paid, reward, s', GameEnd.recordCoins, GameEnd.result,
    GameEnd.playerWon, GameBoard.isSingle, CoinService.recordGame,
    CoinService.awardCoins.
  destruct w as [m|]; cbn [winner_is_draw winner_is].
  - destruct (GameBoard.gameMode props) eqn:Em; simpl.
    + destruct (Mark_eqb m (GameBoard.humanSymbol props)) eqn:Eh.
      * apply Mark_eqb_eq in Eh. rewrite bool_decide_eq_true_2 by done.
        destruct (GameBoard.difficulty props); simpl;
          (split_and!; try done; try lia;
           try (intros _; eexists; split_and!;
                [done..|apply pushReward_head])).
      * apply Mark_eqb_neq in Eh. rewrite bool_decide_eq_false_2 by done.
        destruct (GameBoard.difficulty props); simpl;
          (split_and!; try done; try lia).
    + destruct m; simpl;
        destruct (GameBoard.difficulty props); simpl;
        (split_and!; try done; try lia;
         try (intros _; eexists; split_and!;
              [done..|apply pushReward_head])).
    + destruct m; simpl;
        destruct (GameBoard.difficulty props); simpl;
        (split_and!; try done; try lia;
         try (intros _; eexists; split_and!;
              [done..|apply pushReward_head])).
  - destruct (GameBoard.gameMode props), (GameBoard.difficulty props); simpl;
      (split_and!; try done; try lia;
       try (intros _; eexists; split_and!;
            [done..|apply pushReward_head])).
Qed.

Lemma coins_paid_at_game_end_witness :
  fst (GameEnd.recordCoins (GameBoard.mkProps single hard false) 9
         (WMark X) CoinService.initial)
  = None.
Proof.
  destruct (coins_paid_at_game_end (GameBoard.mkProps single hard false) 9
              (WMark X) CoinService.initial) as (_ & _ & _ & Hloss & _).
  destruct (Hloss eq_refl) as [Hnone _]. exact Hnone.
Defined.

(** ** Pruning does not change the value of a position *)

Section Pruning.

Implicit Types (board : Board) (move : nat) (alpha beta v r e m : Num).

(** Decides a statement on the order of scores by cases: every score is
    one of the infinities or an integer, and the comparisons of integers
    are decided. *)
Local Ltac num_cases :=
  unfold boundsValue, Num_max, Num_min, Num_leb in *;
  repeat match goal with x : Num |- _ => destruct x end;
  repeat (cbn [Num_ltb negb] in *;
          match goal with
          | |- context [(?a <? ?b)%Z] => destruct (Z.ltb_spec a b)
          | H : context [(?a <? ?b)%Z] |- _ => destruct (Z.ltb_spec a b)
          end);
  cbn [Num_ltb negb] in *;
  repeat match goal with
    | H : true = true -> _ |- _ => specialize (H eq_refl)
    | H : false = true -> _ |- _ => clear H
    | H : _ = _ :> Num |- _ => first [discriminate H | injection H as H]
    | H : _ = _ :> bool |- _ => first [discriminate H | clear H]
    end;
  repeat split; intros;
  try done; try lia; try (f_equal; lia).

Lemma boundsValue_refl alpha beta v : boundsValue alpha beta v v.
Proof. num_cases. Qed.

Lemma boundsValue_full v r :
  boundsValue NegInf PosInf v r -> v = r.
Proof.
  intros (H1 & H2 & H3). destruct r as [|z|].
  - specialize (H1 eq_refl). by destruct v.
  - by apply H3.
  - specialize (H2 eq_refl). by destruct v.
Qed.

Lemma maximizeOver_ge child board cells e v :
  GameBoard.maximizeOver O child board cells e = Some v -> Num_leb e v = true.
Proof.
  revert e. induction cells as [|cell rest IH]; intros e; simpl.
  - intros [= <-]. num_cases.
  - destruct (child _) as [ev|]; [|done]. intros Hv%IH. num_cases.
Qed.

Lemma minimizeOver_le child board cells e v :
  GameBoard.minimizeOver X child board cells e = Some v -> Num_leb v e = true.
Proof.
  revert e. induction cells as [|cell rest IH]; intros e; simpl.
  - intros [= <-]. num_cases.
  - destruct (child _) as [ev|]; [|done]. intros Hv%IH. num_cases.
Qed.

(** *** Facts on the order of scores *)

Lemma Num_leb_trans a b c :
  Num_leb a b = true -> Num_leb b c = true -> Num_leb a c = true.
Proof. intros. num_cases. Qed.

Lemma Num_leb_false a b : Num_leb a b = false -> Num_ltb b a = true.
Proof. intros. num_cases. Qed.

Lemma Num_max_bound e vi v :
  Num_leb (Num_max e vi) v = true -> Num_leb vi v = true.
Proof. intros. num_cases. Qed.

Lemma Num_min_bound e vi v :
  Num_leb v (Num_min e vi) = true -> Num_leb v vi = true.
Proof. intros. num_cases. Qed.

Lemma Num_max_assoc alpha0 m r :
  Num_max (Num_max alpha0 m) r
  = Num_max alpha0 (if Num_ltb m r then r else m).
Proof. num_cases. Qed.

Lemma Num_min_assoc beta0 m r :
  Num_min (Num_min beta0 m) r
  = Num_min beta0 (if Num_ltb r m then r else m).
Proof. num_cases. Qed.

(** The maximizing loop leaves by [break]: the last score is at or
    above [beta] and is the best score. *)
Lemma max_break alpha0 m beta r :
  Num_ltb (Num_max alpha0 m) beta = true ->
  Num_leb beta (Num_max (Num_max alpha0 m) r) = true ->
  Num_leb beta r = true
  /\ (if Num_ltb m r then r else m) = r
  /\ Num_ltb alpha0 beta = true.
Proof. intros. num_cases. Qed.

Lemma min_break alpha m beta0 r :
  Num_ltb alpha (Num_min beta0 m) = true ->
  Num_leb (Num_min (Num_min beta0 m) r) alpha = true ->
  Num_leb r alpha = true
  /\ (if Num_ltb r m then r else m) = r
  /\ Num_ltb alpha beta0 = true.
Proof. intros. num_cases. Qed.

Lemma boundsValue_high alpha beta v r :
  Num_ltb alpha beta = true -> Num_leb beta r = true ->
  Num_leb r v = true -> boundsValue alpha beta v r.
Proof. intros. num_cases. Qed.

Lemma boundsValue_low alpha beta v r :
  Num_ltb alpha beta = true -> Num_leb r alpha = true ->
  Num_leb v r = true -> boundsValue alpha beta v r.
Proof. intros. num_cases. Qed.

(** The maximizing loop goes on: the score of the child was a bound
    below the running [alpha], or it was the value of the child. *)
Lemma max_continue_window alpha0 m beta r :
  Num_leb beta (Num_max (Num_max alpha0 m) r) = false ->
  Num_ltb (Num_max alpha0 (if Num_ltb m r then r else m)) beta = true
  /\ Num_ltb r beta = true.
Proof. intros. num_cases. Qed.

Lemma min_continue_window alpha m beta0 r :
  Num_leb (Num_min (Num_min beta0 m) r) alpha = false ->
  Num_ltb alpha (Num_min beta0 (if Num_ltb r m then r else m)) = true
  /\ Num_ltb alpha r = true.
Proof. intros. num_cases. Qed.

Lemma max_step_bound alpha0 m e vi r :
  (Num_leb m alpha0 = true -> Num_leb e m = true) ->
  (Num_ltb alpha0 m = true -> e = m) ->
  Num_leb r (Num_max alpha0 m) = true ->
  Num_leb vi r = true ->
  (Num_leb (if Num_ltb m r then r else m) alpha0 = true ->
   Num_leb (Num_max e vi) (if Num_ltb m r then r else m) = true)
  /\ (Num_ltb alpha0 (if Num_ltb m r then r else m) = true ->
      Num_max e vi = (if Num_ltb m r then r else m)).
Proof. intros. num_cases. Qed.

Lemma max_step_exact alpha0 m e r :
  (Num_leb m alpha0 = true -> Num_leb e m = true) ->
  (Num_ltb alpha0 m = true -> e = m) ->
  Num_ltb (Num_max alpha0 m) r = true ->
  (Num_leb (if Num_ltb m r then r else m) alpha0 = true ->
   Num_leb (Num_max e r) (if Num_ltb m r then r else m) = true)
  /\ (Num_ltb alpha0 (if Num_ltb m r then r else m) = true ->
      Num_max e r = (if Num_ltb m r then r else m)).
Proof. intros. num_cases. Qed.

Lemma min_step_bound beta0 m e vi r :
  (Num_leb beta0 m = true -> Num_leb m e = true) ->
  (Num_ltb m beta0 = true -> e = m) ->
  Num_leb (Num_min beta0 m) r = true ->
  Num_leb r vi = true ->
  (Num_leb beta0 (if Num_ltb r m then r else m) = true ->
   Num_leb (if Num_ltb r m then r else m) (Num_min e vi) = true)
  /\ (Num_ltb (if Num_ltb r m then r else m) beta0 = true ->
      Num_min e vi = (if Num_ltb r m then r else m)).
Proof. intros. num_cases. Qed.

Lemma min_step_exact beta0 m e r :
  (Num_leb beta0 m = true -> Num_leb m e = true) ->
  (Num_ltb m beta0 = true -> e = m) ->
  Num_ltb r (Num_min beta0 m) = true ->
  (Num_leb beta0 (if Num_ltb r m then r else m) = true ->
   Num_leb (if Num_ltb r m then r else m) (Num_min e r) = true)
  /\ (Num_ltb (if Num_ltb r m then r else m) beta0 = true ->
      Num_min e r = (if Num_ltb r m then r else m)).
Proof. intros. num_cases. Qed.

Lemma max_done alpha0 m beta e :
  Num_ltb (Num_max alpha0 m) beta = true ->
  (Num_leb m alpha0 = true -> Num_leb e m = true) ->
  (Num_ltb alpha0 m = true -> e = m) ->
  boundsValue alpha0 beta e m.
Proof. intros. num_cases. Qed.

Lemma min_done alpha m beta0 e :
  Num_ltb alpha (Num_min beta0 m) = true ->
  (Num_leb beta0 m = true -> Num_leb m e = true) ->
  (Num_ltb m beta0 = true -> e = m) ->
  boundsValue alpha beta0 e m.
Proof. intros. num_cases. Qed.

(** *** The loops *)

(** The loop of the maximizing branch against the fold of the plain
    search.  [alpha0] is the bound the node was called with; the loop has
    seen the best score [m] and runs with the bound [max alpha0 m],
    while the fold has seen the best value [e]. *)
Lemma maximizingLoop_bounds childP childM beta cells board :
  (forall move, move ∈ cells -> board !! move = Some None) ->
  (forall move a v, move ∈ cells -> Num_ltb a beta = true ->
     childM (<[move := Some O]> board) = Some v ->
     exists p r,
       childP (<[move := Some O]> board) a
       = Some ((p, r), <[move := Some O]> board)
       /\ boundsValue a beta v r) ->
  forall alpha0 bestMove m e v,
    Num_ltb (Num_max alpha0 m) beta = true ->
    (Num_leb m alpha0 = true -> Num_leb e m = true) ->
    (Num_ltb alpha0 m = true -> e = m) ->
    GameBoard.maximizeOver O childM board cells e = Some v ->
    exists p r,
      AIService.maximizingLoop childP beta cells board bestMove m
        (Num_max alpha0 m) = Some ((p, r), board)
      /\ boundsValue alpha0 beta v r.
Proof.
  induction cells as [|move rest IH];
    intros Hempty Hchild alpha0 bestMove m e v Hwindow Hlow Hexact.
  - simpl. intros [= <-]. exists bestMove, m. split; [done|].
    by apply max_done.
  - simpl. destruct (childM _) as [vi|] eqn:Evi; [|done]. intros Hv.
    destruct (Hchild move (Num_max alpha0 m) vi) as (pi & ri & -> & Hbounds);
      [apply elem_of_cons; by left|done..|].
    rewrite restore_cell by (apply Hempty, elem_of_cons; by left).
    pose proof (maximizeOver_ge _ _ _ _ _ Hv) as Hge.
    destruct Hbounds as (Hupper & Hlower & Hinside).
    destruct (Num_leb beta (Num_max (Num_max alpha0 m) ri)) eqn:Ebreak.
    + destruct (max_break _ _ _ _ Hwindow Ebreak) as (Hhigh & -> & Hab).
      eexists _, _. split; [done|].
      apply boundsValue_high; [done..|].
      eapply Num_leb_trans; [by apply Hlower|]. by eapply Num_max_bound.
    + rewrite Num_max_assoc.
      destruct (max_continue_window _ _ _ _ Ebreak) as [Hwindow' Hbelow].
      assert ((Num_leb (if Num_ltb m ri then ri else m) alpha0 = true ->
               Num_leb (Num_max e vi) (if Num_ltb m ri then ri else m) = true)
              /\ (Num_ltb alpha0 (if Num_ltb m ri then ri else m) = true ->
                  Num_max e vi = (if Num_ltb m ri then ri else m)))
        as [Hlow' Hexact'].
      { destruct (Num_leb ri (Num_max alpha0 m)) eqn:Eri.
        - apply max_step_bound; [done..|]. by apply Hupper.
        - apply Num_leb_false in Eri. rewrite (Hinside Eri Hbelow).
          by apply max_step_exact. }
      apply (IH ltac:(intros c Hc; apply Hempty, elem_of_cons; by right)
                ltac:(intros c a w Hc; apply Hchild, elem_of_cons; by right)
                alpha0 _ _ (Num_max e vi) v); done.
Qed.

(** The loop of the minimizing branch: [beta0] is the bound the node was
    called with and the loop runs with [min beta0 m]. *)
Lemma minimizingLoop_bounds childP childM alpha cells board :
  (forall move, move ∈ cells -> board !! move = Some None) ->
  (forall move b v, move ∈ cells -> Num_ltb alpha b = true ->
     childM (<[move := Some X]> board) = Some v ->
     exists p r,
       childP (<[move := Some X]> board) b
       = Some ((p, r), <[move := Some X]> board)
       /\ boundsValue alpha b v r) ->
  forall beta0 bestMove m e v,
    Num_ltb alpha (Num_min beta0 m) = true ->
    (Num_leb beta0 m = true -> Num_leb m e = true) ->
    (Num_ltb m beta0 = true -> e = m) ->
    GameBoard.minimizeOver X childM board cells e = Some v ->
    exists p r,
      AIService.minimizingLoop childP alpha cells board bestMove m
        (Num_min beta0 m) = Some ((p, r), board)
      /\ boundsValue alpha beta0 v r.
Proof.
  induction cells as [|move rest IH];
    intros Hempty Hchild beta0 bestMove m e v Hwindow Hhigh Hexact.
  - simpl. intros [= <-]. exists bestMove, m. split; [done|].
    by apply min_done.
  - simpl. destruct (childM _) as [vi|] eqn:Evi; [|done]. intros Hv.
    destruct (Hchild move (Num_min beta0 m) vi) as (pi & ri & -> & Hbounds);
      [apply elem_of_cons; by left|done..|].
    rewrite restore_cell by (apply Hempty, elem_of_cons; by left).
    pose proof (minimizeOver_le _ _ _ _ _ Hv) as Hle.
    destruct Hbounds as (Hupper & Hlower & Hinside).
    destruct (Num_leb (Num_min (Num_min beta0 m) ri) alpha) eqn:Ebreak.
    + destruct (min_break _ _ _ _ Hwindow Ebreak) as (Hlowscore & -> & Hab).
      eexists _, _. split; [done|].
      apply boundsValue_low; [done..|].
      eapply Num_leb_trans; [|by apply Hupper]. by eapply Num_min_bound.
    + rewrite Num_min_assoc.
      destruct (min_continue_window _ _ _ _ Ebreak) as [Hwindow' Habove].
      assert ((Num_leb beta0 (if Num_ltb ri m then ri else m) = true ->
               Num_leb (if Num_ltb ri m then ri else m) (Num_min e vi) = true)
              /\ (Num_ltb (if Num_ltb ri m then ri else m) beta0 = true ->
                  Num_min e vi = (if Num_ltb ri m then ri else m)))
        as [Hhigh' Hexact'].
      { destruct (Num_leb (Num_min beta0 m) ri) eqn:Eri.
        - apply min_step_bound; [done..|]. by apply Hlower.
        - apply Num_leb_false in Eri. rewrite (Hinside Habove Eri).
          by apply min_step_exact. }
      apply (IH ltac:(intros c Hc; apply Hempty, elem_of_cons; by right)
                ltac:(intros c b w Hc; apply Hchild, elem_of_cons; by right)
                beta0 _ _ (Num_min e vi) v); done.
Qed.

End Pruning.

(** X20.  Pruning does not change the value of a position.  On every
    board of nine cells, at every depth and for either player to move,
    the search with pruning of the [AIService], called with the full
    window from [-Infinity] to [Infinity], returns - with the board as
    it was given - the score that the plain search [minimax] of the game
    screen computes when the AI plays [O]; called with any window
    [alpha < beta] it returns that score when the score lies inside the
    window, and otherwise a bound on it on the side where it left the
    window. *)
Theorem pruning_keeps_the_value (board : Board) (depth : Z)
    (isMaximizing : bool) :
  length board = 9 ->
  exists v,
    GameBoard.minimax X O GameBoard.searchFuel board depth isMaximizing
    = Some v
    /\ (exists p,
         AIService.minimaxWithPruning (AIService.searchFuel board) board depth
           isMaximizing NegInf PosInf
         = Some ((p, v), board))
    /\ forall alpha beta,
        Num_ltb alpha beta = true ->
        exists p r,
          AIService.minimaxWithPruning (AIService.searchFuel board) board
            depth isMaximizing alpha beta
          = Some ((p, r), board)
          /\ boundsValue alpha beta v r.
Proof.
  intros Hlen.
  assert (forall fuel b d isMax alpha beta v,
            length b = 9 -> Num_ltb alpha beta = true ->
            GameBoard.minimax X O fuel b d isMax = Some v ->
            exists p r,
              AIService.minimaxWithPruning fuel b d isMax alpha beta
              = Some ((p, r), b)
              /\ boundsValue alpha beta v r) as Hwindow.
  { induction fuel as [|fuel IH]; intros b d isMax alpha beta v Hb Hab;
      [done|].
    simpl.
    change (AIService.checkWinner b) with (GameBoard.checkWinner b).
    destruct (winner_is _ O);
      [intros [= <-]; eexists _, _; split; [done|apply boundsValue_refl]|].
    destruct (winner_is _ X);
      [intros [= <-]; eexists _, _; split; [done|apply boundsValue_refl]|].
    destruct (winner_is_draw _);
      [intros [= <-]; eexists _, _; split; [done|apply boundsValue_refl]|].
    rewrite getEmptyCells_agree by done.
    assert (forall move, move ∈ GameBoard.getEmptyCells b ->
              b !! move = Some None) as Hempty
      by (by intros move [_ ?]%GameBoard_getEmptyCells_elem).
    destruct isMax.
    - intros Hv.
      assert (Num_max alpha NegInf = alpha) as Halpha by (by destruct alpha).
      destruct (maximizingLoop_bounds
                  (fun board0 alpha0 =>
                     AIService.minimaxWithPruning fuel board0 (d + 1) false
                       alpha0 beta)
                  (fun newBoard =>
                     GameBoard.minimax X O fuel newBoard (d + 1) false)
                  beta (GameBoard.getEmptyCells b) b Hempty)
        with (alpha0 := alpha) (bestMove := MinusOne) (m := NegInf)
             (e := NegInf) (v := v) as (p & r & Hr & Hbounds); try done.
      + intros move a w Hmove Ha Hw.
        apply IH; [by rewrite length_insert|done..].
      + by rewrite Halpha.
      + rewrite Halpha in Hr. by exists p, r.
    - intros Hv.
      assert (Num_min beta PosInf = beta) as Hbeta by (by destruct beta).
      destruct (minimizingLoop_bounds
                  (fun board0 beta0 =>
                     AIService.minimaxWithPruning fuel board0 (d + 1) true
                       alpha beta0)
                  (fun newBoard =>
                     GameBoard.minimax X O fuel newBoard (d + 1) true)
                  alpha (GameBoard.getEmptyCells b) b Hempty)
        with (beta0 := beta) (bestMove := MinusOne) (m := PosInf)
             (e := PosInf) (v := v) as (p & r & Hr & Hbounds); try done.
      + intros move bb w Hmove Hbb Hw.
        apply IH; [by rewrite length_insert|done..].
      + by exists p, r. }
  destruct (minimax_returns X O GameBoard.searchFuel board depth isMaximizing)
    as [v Hv].
  { pose proof (GameBoard_getEmptyCells_bound board).
    unfold GameBoard.searchFuel. lia. }
  exists v. split; [done|].
  assert (AIService.searchFuel board = GameBoard.searchFuel) as ->
    by (unfold AIService.searchFuel, GameBoard.searchFuel; by rewrite Hlen).
  split.
  - destruct (Hwindow GameBoard.searchFuel board depth isMaximizing NegInf
                PosInf v Hlen eq_refl Hv) as (p & r & Hr & Hbounds).
    apply boundsValue_full in Hbounds as ->. by exists p.
  - intros alpha beta Hab. by apply Hwindow.
Qed.

Lemma pruning_keeps_the_value_witness :
  exists v,
    GameBoard.minimax X O GameBoard.searchFuel boardWithFreeWin 9 true
    = Some v
    /\ exists p,
        AIService.minimaxWithPruning (AIService.searchFuel boardWithFreeWin)
          boardWithFreeWin 9 true NegInf PosInf
        = Some ((p, v), boardWithFreeWin).
Proof.
  destruct (pruning_keeps_the_value boardWithFreeWin 9 true eq_refl)
    as (v & Hplain & Hpruned & _).
  exists v. split; [exact Hplain|exact Hpruned].
Defined.

(** ** The achievements *)

Section Achievements.

Import AchievementService.

Implicit Types (sv : Service) (a : Achievement) (l : list Achievement)
  (st : AchievementStats).

(** The achievement that [updateAchievement] leaves for a progress. *)
Local Abbreviation updated := (fun (newProgress : Z) (a : Achievement) =>
  mkAchievement (id a) (coinReward a) (Z.min newProgress (maxProgress a))
    (maxProgress a) (unlocked a || (maxProgress a <=? newProgress)%Z)).

(** The events of the achievements that are unlocked in the second list
    and locked in the first. *)
Local Abbreviation events := (fun (before after : list Achievement) =>
  map (fun p : Achievement * Achievement => (id p.2, coinReward p.2))
    (filter (fun p : Achievement * Achievement =>
               unlocked p.1 = false /\ unlocked p.2 = true)
       (zip before after))).

Local Abbreviation catalog := (fun l =>
  map (fun a => (id a, coinReward a, maxProgress a)) l = achievementList).

Local Abbreviation capped := (fun a =>
  (progress a <= maxProgress a)%Z
  /\ (progress a = maxProgress a -> unlocked a = true)).

Local Abbreviation soundCounters := (fun st =>
  (0 <= winStreak st <= bestWinStreak st)%Z
  /\ (bestWinStreak st <= totalWins st)%Z
  /\ (0 <= easyWins st)%Z /\ (0 <= mediumWins st)%Z /\ (0 <= hardWins st)%Z
  /\ (easyWins st + mediumWins st + hardWins st <= totalWins st)%Z
  /\ (0 <= perfectGames st <= totalWins st)%Z
  /\ (0 <= totalGames st)%Z
  /\ (0 <= themesSwitched st)%Z
  /\ NoDup (avatarsUsed st)).

Lemma unlock_test (u : bool) (goal newProgress : Z) :
  u || negb u && (goal <=? Z.min newProgress goal)%Z
  = u || (goal <=? newProgress)%Z.
Proof.
  destruct u; [done|]. simpl.
  destruct (Z.leb_spec goal newProgress), (Z.leb_spec goal (Z.min newProgress goal));
    try done; lia.
Qed.

Lemma goal_test (goal newProgress : Z) :
  (goal <=? Z.min newProgress goal)%Z = (goal <=? newProgress)%Z.
Proof.
  destruct (Z.leb_spec goal newProgress), (Z.leb_spec goal (Z.min newProgress goal));
    try done; lia.
Qed.

Lemma get_middle key done a todo :
  id a = key -> Forall (fun b => id b <> key) done ->
  get key (done ++ a :: todo) = Some a.
Proof.
  intros Ha Hdone. unfold get.
  induction Hdone as [|b done Hb _ IH]; simpl.
  - by rewrite Ha, String.eqb_refl.
  - by destruct (String.eqb_spec (id b) key).
Qed.

Lemma put_middle a' done a todo :
  id a = id a' -> Forall (fun b => id b <> id a') done ->
  put a' (done ++ a :: todo) = done ++ a' :: todo.
Proof.
  intros Ha Hdone.
  induction Hdone as [|b done Hb _ IH]; simpl.
  - by rewrite Ha, String.eqb_refl.
  - destruct (String.eqb_spec (id b) (id a')); [done|]. by rewrite IH.
Qed.

(** The calls of [updateAchievementProgress] do not interfere: each one
    changes the achievement of its key and nothing else. *)
Lemma fold_updates (ks : list (string * Z)) :
  forall done todo st d,
  id <$> todo = ks.*1 ->
  NoDup (ks.*1) ->
  Forall (fun b => id b ∉ ks.*1) done ->
  Forall (fun a => (0 < coinReward a)%Z) todo ->
  foldl (fun sv '(key, newProgress) => updateAchievement key newProgress sv)
    (mkService (done ++ todo) st d) ks
  = mkService (done ++ zip_with updated (ks.*2) todo) st
      (d ++ events todo (zip_with updated (ks.*2) todo)).
Proof.
  induction ks as [|[key newProgress] ks IH];
    intros done todo st d Hids Hnodup Hdone Hpos.
  - destruct todo; [|discriminate Hids]. simpl. by rewrite !app_nil_r.
  - destruct todo as [|a todo]; [discriminate Hids|].
    rewrite !fmap_cons in Hids. cbn [fst] in Hids.
    injection Hids as Hkey Hids.
    rewrite fmap_cons in Hnodup. cbn [fst] in Hnodup.
    apply NoDup_cons in Hnodup as [Hfresh Hnodup].
    apply Forall_cons in Hpos as [Hreward Hpos].
    assert (Forall (fun b => id b <> key) done) as Hdone'.
    { eapply Forall_impl; [exact Hdone|]. intros b Hb E.
      apply Hb. rewrite E. simpl. left. }
    rewrite (fmap_cons snd). cbn [foldl snd zip_with].
    unfold updateAchievement at 2. cbn [achievements stats dispatched].
    rewrite (get_middle key done a todo Hkey Hdone').
    rewrite put_middle; [|done|by rewrite Hkey].
    rewrite unlock_test, goal_test.
    replace (0 <? coinReward a)%Z with true
      by (symmetry; apply Z.ltb_lt; done).
    rewrite andb_true_r.
    rewrite (cons_middle _ done todo), (assoc_L (++)).
    match goal with
    | |- foldl _ (mkService _ _ ?d1) _ = _ =>
        rewrite (IH _ todo st d1 Hids Hnodup)
    end.
    + rewrite <- (assoc_L (++)), <- cons_middle. f_equal.
      cbn [zip zip_with]. rewrite filter_cons. cbn [fst snd unlocked].
      destruct (unlocked a) eqn:Eu; cbn [negb andb orb].
      * rewrite decide_False by (by intros [? _]). done.
      * destruct (maxProgress a <=? newProgress)%Z eqn:Egoal.
        -- rewrite decide_True by done. cbn [map fst snd id coinReward].
           by rewrite <- (assoc_L (++)).
        -- rewrite decide_False by (by intros [_ ?]). done.
    + apply Forall_app. split.
      * eapply Forall_impl; [exact Hdone|]. intros b Hb Hin.
        apply Hb. simpl. by right.
      * apply Forall_singleton. cbn [id]. by rewrite Hkey.
    + done.
Qed.

Lemma catalog_cases l :
  catalog l ->
  id <$> l
  = [ "first_win"; "win_streak"; "beat_easy"; "beat_medium"; "beat_hard";
      "perfect_game"; "coin_collector"; "veteran_player"; "avatar_explorer";
      "champion" ]
  /\ Forall (fun a => (0 < coinReward a)%Z /\ (0 < maxProgress a)%Z) l
  /\ length l = 10.
Proof.
  intros Hcat. unfold achievementList in Hcat.
  do 10 (destruct l as [|[? ? ? ? ?] l]; [discriminate Hcat|]).
  destruct l; [|discriminate Hcat].
  simpl in Hcat. simplify_eq.
  split_and!; [done| |done].
  repeat (apply Forall_cons; split; [done|]). apply Forall_nil_2.
Qed.

Lemma catalog_zip_with (news : list Z) l :
  map (fun a => (id a, coinReward a, maxProgress a)) (zip_with updated news l)
  = map (fun a => (id a, coinReward a, maxProgress a)) (take (length news) l).
Proof.
  revert l. induction news as [|newProgress news IH]; intros [|a l]; try done.
  simpl. by rewrite IH.
Qed.

(** [updateAchievementProgress] on the achievements of the catalog. *)
Lemma updateAchievementProgress_catalog sv :
  catalog (achievements sv) ->
  updateAchievementProgress sv
  = mkService
      (zip_with updated ((progressOf (stats sv)).*2) (achievements sv))
      (stats sv)
      (dispatched sv
       ++ events (achievements sv)
            (zip_with updated ((progressOf (stats sv)).*2) (achievements sv))).
Proof.
  intros Hcat. destruct (catalog_cases _ Hcat) as (Hids & Hpos & _).
  destruct sv as [l st d]. cbn [achievements stats dispatched] in *.
  unfold updateAchievementProgress. cbn [stats].
  apply (fold_updates (progressOf st) [] l st d); [done| | |].
  - unfold progressOf. cbn [fmap list_fmap fst].
    apply (bool_decide_unpack _). by vm_compute.
  - apply Forall_nil_2.
  - eapply Forall_impl; [exact Hpos|]. by intros a [? _].
Qed.

Lemma updated_capped newProgress a : capped (updated newProgress a).
Proof.
  cbn [progress maxProgress unlocked]. split; [lia|].
  intros Hfull. destruct (unlocked a); [done|]. simpl.
  apply Z.leb_le. lia.
Qed.

Lemma zip_with_capped (news : list Z) l :
  Forall (fun a => capped a) (zip_with updated news l).
Proof.
  revert l. induction news as [|newProgress news IH]; intros [|a l];
    try apply Forall_nil_2.
  cbn [zip_with]. apply Forall_cons. split; [apply updated_capped|apply IH].
Qed.

(** What every call that records something keeps. *)
Lemma updateAchievementProgress_keeps sv :
  catalog (achievements sv) ->
  catalog (achievements (updateAchievementProgress sv))
  /\ Forall (fun a => capped a) (achievements (updateAchievementProgress sv))
  /\ stats (updateAchievementProgress sv) = stats sv.
Proof.
  intros Hcat. rewrite updateAchievementProgress_catalog by done.
  cbn [achievements stats]. split_and!; [|apply zip_with_capped|done].
  rewrite catalog_zip_with.
  destruct (catalog_cases _ Hcat) as (_ & _ & Hlen).
  rewrite take_ge; [done|]. rewrite Hlen.
  unfold progressOf. simpl. lia.
Qed.

Lemma records_stats sv sv' :
  records sv sv' ->
  exists st, sv' = updateAchievementProgress (set_stats st sv)
             /\ (soundCounters (stats sv) -> soundCounters st).
Proof.
  destruct 1 as [gameMode firstMove avatar sv
                |result gameMode difficulty moveCount sv
                |totalCoins sv|sv|sv];
    (eexists; split; [reflexivity|]); cbn;
    intros ([H1 H1'] & H2 & H3 & H4 & H5 & H6 & [H7 H7'] & H8 & H9 & H10).
  - split_and!; try done; try lia.
    destruct (existsb (String.eqb avatar) (avatarsUsed (stats sv))) eqn:E;
      [done|].
    apply NoDup_app. split_and!; [done| |apply NoDup_singleton].
    intros x Hx ->%list_elem_of_singleton.
    assert (existsb (String.eqb avatar) (avatarsUsed (stats sv)) = true)
      as Habs; [|congruence].
    apply existsb_exists. exists avatar. split; [|apply String.eqb_refl].
    by apply list_elem_of_In.
  - destruct result; cbn; [|split_and!; try done; lia..].
    split_and!; try done; try lia;
      repeat case_bool_decide; simplify_eq; try lia;
      repeat case_match; lia.
  - split_and!; try done; lia.
  - split_and!; try done; lia.
  - split_and!; try done. apply NoDup_nil_2.
Qed.

Lemma reachable_keeps sv :
  reachable sv ->
  catalog (achievements sv)
  /\ Forall (fun a => capped a) (achievements sv)
  /\ soundCounters (stats sv).
Proof.
  induction 1 as [|sv sv' _ (Hcat & Hcap & Hst) Hrec|sv _ (Hcat & Hcap & Hst)].
  - unfold initial.
    match goal with
    | |- context [updateAchievementProgress ?sv0] =>
        destruct (updateAchievementProgress_keeps sv0) as (H1 & H2 & H3);
          [done|]
    end.
    split; [done|split; [done|]]. rewrite H3. cbn.
    split_and!; try done. apply NoDup_nil_2.
  - destruct (records_stats _ _ Hrec) as (st & -> & Hsound).
    destruct (updateAchievementProgress_keeps (set_stats st sv))
      as (H1 & H2 & H3); [done|].
    split; [done|split; [done|]]. rewrite H3. by apply Hsound.
  - destruct (catalog_cases _ Hcat) as (_ & Hpos & _).
    unfold resetAllAchievements. cbn [achievements stats].
    split; [|split; [|done]].
    + rewrite <- Hcat. clear. induction (achievements sv) as [|a l IH];
        [done|]. simpl. by rewrite IH.
    + clear -Hpos. induction Hpos as [|a l [_ Ha] _ IH]; [apply Forall_nil_2|].
      simpl. apply Forall_cons. split; [|done].
      cbn. split; [lia|]. intros Habs. lia.
Qed.

Lemma length_filter_split l :
  length (filter (fun a => unlocked a = true) l
          ++ filter (fun a => unlocked a <> true) l)
  = length l.
Proof.
  rewrite length_app. induction l as [|a l IH]; [done|].
  rewrite !filter_cons. destruct (unlocked a); simpl; lia.
Qed.

Lemma filter_unlocked_sorted l :
  filter (fun a => unlocked a = true)
    (filter (fun a => unlocked a = true) l
     ++ filter (fun a => unlocked a <> true) l)
  = filter (fun a => unlocked a = true) l.
Proof.
  rewrite filter_app.
  replace (filter (fun a => unlocked a = true)
             (filter (fun a => unlocked a <> true) l)) with (@nil Achievement).
  - rewrite app_nil_r. induction l as [|a l IH]; [done|].
    rewrite filter_cons. destruct (decide (unlocked a = true)) as [E|E].
    + rewrite filter_cons, decide_True by done. by rewrite IH.
    + done.
  - induction l as [|a l IH]; [done|].
    rewrite filter_cons. destruct (decide (unlocked a <> true)) as [E|E].
    + rewrite filter_cons, decide_False by done. done.
    + done.
Qed.

Lemma round_percentage (n : nat) :
  n <= 10 ->
  round (inject_Z (Z.of_nat n) / inject_Z (Z.of_nat 10) * 100)
  = (10 * Z.of_nat n)%Z.
Proof.
  intros Hn. do 11 (destruct n as [|n]; [by vm_compute|]). lia.
Qed.

End Achievements.

(** X21.  In every state that the achievement service reaches from a
    new one, in which nothing was saved, the ten achievements of the
    catalog are kept, in its order and with its rewards and targets; the
    progress of an achievement never exceeds its target, and an
    achievement whose progress is at the target is unlocked. *)
Theorem achievements_capped_and_unlocked (sv : AchievementService.Service) :
  AchievementService.reachable sv ->
  map (fun a => (AchievementService.id a, AchievementService.coinReward a,
                 AchievementService.maxProgress a))
    (AchievementService.achievements sv)
  = AchievementService.achievementList
  /\ Forall (fun a =>
       (AchievementService.progress a <= AchievementService.maxProgress a)%Z
       /\ (AchievementService.progress a = AchievementService.maxProgress a ->
           AchievementService.unlocked a = true))
      (AchievementService.achievements sv).
Proof.
  intros Hreach. destruct (reachable_keeps sv Hreach) as (Hcat & Hcap & _).
  by split.
Qed.

Lemma achievements_capped_and_unlocked_witness :
  map (fun a => (AchievementService.id a, AchievementService.coinReward a,
                 AchievementService.maxProgress a))
    (AchievementService.achievements
       (AchievementService.recordGameEnd CoinService.win single (Some hard)
          (Some 5%Z) AchievementService.initial))
  = AchievementService.achievementList.
Proof.
  destruct (achievements_capped_and_unlocked
              (AchievementService.recordGameEnd CoinService.win single
                 (Some hard) (Some 5%Z) AchievementService.initial))
    as [Hcatalog _].
  - eapply AchievementService.reach_records;
      [apply AchievementService.reach_initial
      |apply AchievementService.records_gameEnd].
  - exact Hcatalog.
Defined.

(** X22.  In every state that the achievement service reaches from a new
    one the counters of its stats are consistent: the current win streak
    is at most the best one, which is at most the number of wins; the
    wins against the three difficulties together, and the perfect games,
    are at most the number of wins; none of the counters of games, wins,
    streaks and theme switches is negative, and no avatar is listed
    twice. *)
Theorem achievement_stats_consistent (sv : AchievementService.Service) :
  AchievementService.reachable sv ->
  let st := AchievementService.stats sv in
  (0 <= AchievementService.winStreak st
   <= AchievementService.bestWinStreak st)%Z
  /\ (AchievementService.bestWinStreak st
      <= AchievementService.totalWins st)%Z
  /\ (0 <= AchievementService.easyWins st)%Z
  /\ (0 <= AchievementService.mediumWins st)%Z
  /\ (0 <= AchievementService.hardWins st)%Z
  /\ (AchievementService.easyWins st + AchievementService.mediumWins st
      + AchievementService.hardWins st
      <= AchievementService.totalWins st)%Z
  /\ (0 <= AchievementService.perfectGames st
      <= AchievementService.totalWins st)%Z
  /\ (0 <= AchievementService.totalGames st)%Z
  /\ (0 <= AchievementService.themesSwitched st)%Z
  /\ NoDup (AchievementService.avatarsUsed st).
Proof.
  intros Hreach. by destruct (reachable_keeps sv Hreach) as (_ & _ & Hst).
Qed.

Lemma achievement_stats_consistent_witness :
  (AchievementService.bestWinStreak
     (AchievementService.stats
        (AchievementService.recordGameEnd CoinService.win single (Some hard)
           (Some 5%Z) AchievementService.initial))
   <= AchievementService.totalWins
        (AchievementService.stats
           (AchievementService.recordGameEnd CoinService.win single
              (Some hard) (Some 5%Z) AchievementService.initial)))%Z.
Proof.
  destruct (achievement_stats_consistent
              (AchievementService.recordGameEnd CoinService.win single
                 (Some hard) (Some 5%Z) AchievementService.initial))
    as (_ & Hbest & _).
  - eapply AchievementService.reach_records;
      [apply AchievementService.reach_initial
      |apply AchievementService.records_gameEnd].
  - exact Hbest.
Defined.

(** X23.  A call that records something ([recordGameStart],
    [recordGameEnd], [recordCoinEarned], [recordThemeSwitch],
    [resetStats]) leaves every achievement with the progress that the new
    stats give for it, capped at its target; an achievement is unlocked
    afterwards exactly if it was unlocked before or the new stats reach
    its target, so the call locks nothing; and the call dispatches one
    [achievementUnlocked] event, with the reward of the achievement, for
    each achievement that it unlocks, in the order of the catalog, and no
    other event.  The events are those of the call itself: what their
    handlers do is not part of it. *)
Theorem recording_unlocks_and_pays_once (sv sv' : AchievementService.Service) :
  AchievementService.reachable sv ->
  AchievementService.records sv sv' ->
  Forall2 (fun a '(key, newProgress) =>
       AchievementService.get key (AchievementService.achievements sv')
       = Some (AchievementService.mkAchievement key
                 (AchievementService.coinReward a)
                 (Z.min newProgress (AchievementService.maxProgress a))
                 (AchievementService.maxProgress a)
                 (AchievementService.unlocked a
                  || (AchievementService.maxProgress a <=? newProgress)%Z))
       /\ AchievementService.id a = key)
    (AchievementService.achievements sv)
    (AchievementService.progressOf (AchievementService.stats sv'))
  /\ AchievementService.dispatched sv'
     = AchievementService.dispatched sv
       ++ map (fun p : AchievementService.Achievement
                       * AchievementService.Achievement =>
                 (AchievementService.id p.2, AchievementService.coinReward p.2))
            (filter (fun p : AchievementService.Achievement
                             * AchievementService.Achievement =>
                       AchievementService.unlocked p.1 = false
                       /\ AchievementService.unlocked p.2 = true)
               (zip (AchievementService.achievements sv)
                  (AchievementService.achievements sv'))).
Proof.
  intros Hreach Hrec.
  destruct (reachable_keeps sv Hreach) as (Hcat & _ & _).
  destruct (records_stats _ _ Hrec) as (st & -> & _).
  rewrite updateAchievementProgress_catalog by done.
  cbn [AchievementService.achievements AchievementService.stats
       AchievementService.dispatched AchievementService.set_stats].
  split; [|done].
  destruct sv as [l st0 d]. cbn [AchievementService.achievements] in *.
  unfold AchievementService.achievementList in Hcat.
  do 10 (destruct l as [|[? ? ? ? ?] l]; [discriminate Hcat|]).
  destruct l; [|discriminate Hcat].
  simpl in Hcat. simplify_eq.
  unfold AchievementService.progressOf.
  cbn [fmap list_fmap snd zip_with].
  repeat (apply Forall2_cons; split; [by split; [vm_compute|]|]).
  apply Forall2_nil_2.
Qed.

Lemma recording_unlocks_and_pays_once_witness :
  AchievementService.dispatched
    (AchievementService.recordGameEnd CoinService.win single (Some hard)
       (Some 5%Z) AchievementService.initial)
  = [ ("first_win", 10%Z); ("beat_hard", 50%Z); ("perfect_game", 35%Z) ].
Proof.
  destruct (recording_unlocks_and_pays_once AchievementService.initial
              (AchievementService.recordGameEnd CoinService.win single
                 (Some hard) (Some 5%Z) AchievementService.initial))
    as [_ Hpaid].
  - apply AchievementService.reach_initial.
  - apply AchievementService.records_gameEnd.
  - rewrite Hpaid. by vm_compute.
Defined.

(** X24.  In every state that the achievement service reaches from a new
    one [getProgress] reports ten achievements, the number of those that
    are unlocked, and ten times that number as the percentage;
    [getAllAchievements] lists ten achievements. *)
Theorem getProgress_counts_unlocked (sv : AchievementService.Service) :
  AchievementService.reachable sv ->
  let unlockedNow :=
    length (filter (fun a => AchievementService.unlocked a = true)
              (AchievementService.achievements sv)) in
  AchievementService.getProgress sv
  = AchievementService.mkProgress 10 unlockedNow (10 * Z.of_nat unlockedNow)
  /\ unlockedNow <= 10
  /\ length (AchievementService.getAllAchievements sv) = 10.
Proof.
  intros Hreach unlockedNow.
  destruct (reachable_keeps sv Hreach) as (Hcat & _ & _).
  destruct (catalog_cases _ Hcat) as (_ & _ & Hlen).
  assert (unlockedNow <= 10) as Hle.
  { unfold unlockedNow. rewrite <- Hlen. apply length_filter. }
  assert (length (AchievementService.getAllAchievements sv) = 10) as Hall.
  { unfold AchievementService.getAllAchievements.
    by rewrite length_filter_split. }
  split_and!; [|done|done].
  unfold AchievementService.getProgress. rewrite Hall.
  unfold AchievementService.getAllAchievements.
  rewrite filter_unlocked_sorted. fold unlockedNow.
  change (0 <? 10) with true. cbv iota.
  by rewrite round_percentage.
Qed.

Lemma getProgress_counts_unlocked_witness :
  AchievementService.percentage
    (AchievementService.getProgress
       (AchievementService.recordGameEnd CoinService.win single (Some hard)
          (Some 5%Z) AchievementService.initial))
  = 30%Z.
Proof.
  destruct (getProgress_counts_unlocked
              (AchievementService.recordGameEnd CoinService.win single
                 (Some hard) (Some 5%Z) AchievementService.initial))
    as (Hprogress & _ & _).
  - eapply AchievementService.reach_records;
      [apply AchievementService.reach_initial
      |apply AchievementService.records_gameEnd].
  - rewrite Hprogress. by vm_compute.
Defined.
